(** * Toyota radar driver scripts: reception handlers, keep-alive loops, cleanup.

    A shallow embedding of the Python scripts [toyota_radar_rpi.py],
    [toyota_radar_2019.py] and [toyota_radar_debug.py], and of the track
    cache that [radar_callbacks.py] and [radar_curses.py] consume.

    Conventions.
    - Python [int] is [Z]; [bytes] is [list byte]; a decoded signal dict is a
      [gmap string pyval].
    - A call into an external collaborator (the DBC codec, a CAN bus, the
      notifier) is a parameter that may raise; a raised exception is a value
      of [exn].
    - [print] is recorded as an output event, so that "what was reported" can
      be stated. *)

From Stdlib Require Import ZArith QArith Lia.
From Stdlib.Strings Require Import Byte.
From stdpp Require Import gmap strings list.
From Stdlib Require Import Lqa.
From stdpp Require Import sorting.

Local Open Scope Z_scope.

#[global] Instance byte_eq_decision : EqDecision byte := Byte.byte_eq_dec.

(** ** Python values that occur as signal values *)

Inductive pyval :=
| PyInt (z : Z)
| PyFloat (q : Q)
| PyStr (s : string).

(** Python's [==] on these values: numbers compare by value across [int] and
    [float], strings by content, a number never equals a string. *)
Definition py_eqb (a b : pyval) : bool :=
  match a, b with
  | PyInt x, PyInt y => x =? y
  | PyInt x, PyFloat q => Qeq_bool (inject_Z x) q
  | PyFloat q, PyInt x => Qeq_bool q (inject_Z x)
  | PyFloat p, PyFloat q => Qeq_bool p q
  | PyStr s, PyStr t => String.eqb s t
  | _, _ => false
  end.

(** ** CAN frames and the codec *)

Record Message := mkMessage {
  arbitration_id : Z;
  data : list byte
}.

(** [db.decode_message(arbitration_id, data)]: the signal dict, or [None]
    when the call raises. *)
Definition Database := Z -> list byte -> option (gmap string pyval).

(** What the handlers print. *)
Inductive Output :=
| OutStatusNew (payload : list byte)
| OutTrack (id : Z) (payload : list byte)
| OutValidTrack (dist : pyval)
| OutInvalidTrack (valid : pyval)
| OutDecodeError
| OutNoDbc
| OutRaw (id : Z) (payload : list byte)
| OutRx (id : Z) (payload : list byte)
| OutOther (id : Z) (payload : list byte).

(** The distances reported as valid tracks, in order. *)
Fixpoint valid_reports (out : list Output) : list pyval :=
  match out with
  | [] => []
  | OutValidTrack d :: rest => d :: valid_reports rest
  | _ :: rest => valid_reports rest
  end.

(** [d.get(key, default)] *)
Definition dict_get (d : gmap string pyval) (key : string) (default : pyval) : pyval :=
  match d !! key with
  | Some v => v
  | None => default
  end.

(** [decoded.get("VALID") == 1]; a missing key gives [None], and [None == 1]
    is false. *)
Definition get_VALID_is_1 (decoded : gmap string pyval) : bool :=
  match decoded !! "VALID"%string with
  | Some v => py_eqb v (PyInt 1)
  | None => false
  end.

(** ** Exceptions, buses, and the trace of external calls *)

Inductive exn :=
| CanError
| EncodeError
| KeyError
| ValueError
| ZeroDivisionError
| KeyboardInterrupt
| OtherError.

Inductive result (A : Type) :=
| Ok (a : A)
| Raise (e : exn).
Arguments Ok {A} a.
Arguments Raise {A} e.

(** The two channels: ['can0'] is the car bus, ['can1'] the radar bus. *)
Inductive Bus := Can0 | Can1.

(** A message object of the control DBC, as returned by
  [db.get_message_by_name]. *)
Record DbcMessage := mkDbcMessage {
name : string;
frame_id : Z;
encode : gmap string pyval -> result (list byte)
}.

(** The calls of the cleanup sequence. *)
Inductive CleanupCall :=
| NotifierStop
| BusShutdown (bus : Bus).

Inductive Event :=
| EvEncode (message : string) (signals : gmap string pyval)
| EvEncodeFailed (message : string) (signals : gmap string pyval) (e : exn)
| EvSend (bus : Bus) (msg : Message)
| EvSendFailed (bus : Bus) (msg : Message) (e : exn)
| EvSleep (seconds : Q).

(** The exception an event stands for, if it records a failed call. *)
Definition failure_of (ev : Event) : option exn :=
match ev with
| EvEncodeFailed _ _ e => Some e
| EvSendFailed _ _ e => Some e
| _ => None
end.

Definition is_send_attempt (ev : Event) : bool :=
match ev with
| EvSend _ _ | EvSendFailed _ _ _ => true
| _ => false
end.

(** How many [bus.send] calls a trace holds, failed ones included. *)
Fixpoint attempts (tr : list Event) : nat :=
match tr with
| [] => O
| ev :: rest => if is_send_attempt ev then S (attempts rest) else attempts rest
end.

(** The CAN transport: [send_raises n bus msg] is the exception raised by
  the [n]-th call of [bus.send] (counting from 0) if it fails. *)
Record CanEnv := mkCanEnv {
send_raises : nat -> Bus -> Message -> option exn
}.

(** ** A state-and-exception monad for the main scripts

  [V] holds the script's variables; the trace is shared by all scripts.
  A raised exception keeps the state reached so far, as in Python. *)

Section Exec.

Context {V : Type}.

Record Loop := mkLoop {
  vars : V;
  trace : list Event
}.

Definition M (A : Type) := Loop -> result A * Loop.

Definition ret {A} (a : A) : M A := fun s => (Ok a, s).

Definition bind {A B} (c : M A) (k : A -> M B) : M B :=
  fun s =>
    match c s with
    | (Ok a, s1) => k a s1
    | (Raise e, s1) => (Raise e, s1)
    end.

Definition raise {A} (e : exn) : M A := fun s => (Raise e, s).

Definition get : M V := fun s => (Ok (vars s), s).

Definition put (v : V) : M unit := fun s => (Ok tt, mkLoop v (trace s)).

(** An update of the variables in place, such as [frame += 1]. *)
Definition modify (f : V -> V) : M unit :=
  fun s => (Ok tt, mkLoop (f (vars s)) (trace s)).

Definition emit (ev : Event) : M unit :=
  fun s => (Ok tt, mkLoop (vars s) (trace s ++ [ev])).

(** [bus.send(msg)] *)
Definition send (env : CanEnv) (bus : Bus) (msg : Message) : M unit :=
  fun s =>
    match send_raises env (attempts (trace s)) bus msg with
    | None => (Ok tt, mkLoop (vars s) (trace s ++ [EvSend bus msg]))
    | Some e => (Raise e, mkLoop (vars s) (trace s ++ [EvSendFailed bus msg e]))
    end.

(** [m.encode(signals)] *)
Definition encode_message (m : DbcMessage) (signals : gmap string pyval)
    : M (list byte) :=
  fun s =>
    match encode m signals with
    | Ok payload => (Ok payload, mkLoop (vars s) (trace s ++ [EvEncode (name m) signals]))
    | Raise e => (Raise e, mkLoop (vars s) (trace s ++ [EvEncodeFailed (name m) signals e]))
    end.

(** [time.sleep(seconds)] *)
Definition sleep (seconds : Q) : M unit := emit (EvSleep seconds).

(** [a % b] on integers; Python's result has the sign of the divisor, as
    [Z.modulo] has. *)
Definition py_mod (a b : Z) : M Z :=
  if b =? 0 then raise ZeroDivisionError else ret (a mod b).

(** [bytearray.append(cnt)] *)
Definition bytearray_append (tosend : list byte) (cnt : Z) : M (list byte) :=
  if (0 <=? cnt) && (cnt <? 256) then
    match Byte.of_N (Z.to_N cnt) with
    | Some b => ret (tosend ++ [b])
    | None => raise ValueError
    end
  else raise ValueError.

(** [for x in l: body(x)] *)
Fixpoint for_each {A} (l : list A) (body : A -> M unit) : M unit :=
  match l with
  | [] => ret tt
  | x :: rest => bind (body x) (fun _ => for_each rest body)
  end.

(** [while True: body], cut after [n] iterations.  [Ok tt] means the loop
    is still running after [n] iterations; [Raise e] that the exception
    [e] left the loop. *)
Fixpoint while_true (n : nat) (body : M unit) : M unit :=
  match n with
  | O => ret tt
  | S n' => bind body (fun _ => while_true n' body)
  end.

(** [try: c  except: pass] *)
Definition try_except_pass (c : M unit) : M unit :=
  fun s => (Ok tt, snd (c s)).

End Exec.

Arguments Loop : clear implicits.
Arguments M : clear implicits.

Notation "x <- c ;; k" := (bind c (fun x => k))
(at level 100, c at next level, right associativity).
Notation "c ;; k" := (bind c (fun _ => k))
(at level 100, right associativity).

(** An entry [(addr, ecu, cars, bus, fr_step, vl)] of [STATIC_MSGS]. *)
Record StaticMsg := mkStaticMsg {
  addr : Z;
  ecu : Z;
  cars : list Z;
  bus : Z;
  fr_step : Z;
  vl : list byte
}.

(** ** toyota_radar_rpi.py *)

Module Rpi.

(** [0x210 <= boo.arbitration_id < 0x21F] *)
Definition in_track_window (id : Z) : bool :=
  (0x210 <=? id) && (id <? 0x21F).

(** [OnCan.on_message_received].  [msg["VALID"]] and [msg["LONG_DIST"]]
    raise [KeyError] on a missing key; like a decode error it is swallowed
    by the [except Exception: pass]. *)
Definition on_message_received (db : option Database) (boo : Message) : list Output :=
  if in_track_window (arbitration_id boo) then
    match db with
    | Some decode_message =>
        match decode_message (arbitration_id boo) (data boo) with
        | Some msg =>
            match msg !! "VALID"%string with
            | Some v =>
                if py_eqb v (PyInt 1) then
                  match msg !! "LONG_DIST"%string with
                  | Some d => [OutValidTrack d]
                  | None => []
                  end
                else []
            | None => []
            end
        | None => []
        end
    | None => [OutRaw (arbitration_id boo) (data boo)]
    end
  else [].

Module ECU.
Definition CAM : Z := 0.
Definition DSU : Z := 1.
Definition APGS : Z := 2.
End ECU.

Module CAR.
Definition PRIUS : Z := 0.
Definition LEXUS_RXH : Z := 1.
Definition RAV4 : Z := 2.
Definition RAV4H : Z := 3.
Definition COROLLA : Z := 4.
End CAR.

Definition STATIC_MSGS : list StaticMsg := [
  mkStaticMsg 0x141 ECU.DSU [CAR.PRIUS; CAR.RAV4H; CAR.LEXUS_RXH; CAR.RAV4; CAR.COROLLA] 1 2
    [x00; x00; x00; x46];
  mkStaticMsg 0x128 ECU.DSU [CAR.PRIUS; CAR.RAV4H; CAR.LEXUS_RXH; CAR.RAV4; CAR.COROLLA] 1 3
    [xf4; x01; x90; x83; x00; x37];
  mkStaticMsg 0x283 ECU.DSU [CAR.PRIUS; CAR.RAV4H; CAR.LEXUS_RXH; CAR.RAV4; CAR.COROLLA] 0 3
    [x00; x00; x00; x00; x00; x00; x8c];
  mkStaticMsg 0x344 ECU.DSU [CAR.PRIUS; CAR.RAV4H; CAR.LEXUS_RXH; CAR.RAV4; CAR.COROLLA] 0 5
    [x00; x00; x01; x00; x00; x00; x00; x50];
  mkStaticMsg 0x160 ECU.DSU [CAR.PRIUS; CAR.RAV4H; CAR.LEXUS_RXH; CAR.RAV4; CAR.COROLLA] 1 7
    [x00; x00; x08; x12; x01; x31; x9c; x51];
  mkStaticMsg 0x161 ECU.DSU [CAR.PRIUS; CAR.RAV4H; CAR.LEXUS_RXH; CAR.RAV4; CAR.COROLLA] 1 7
    [x00; x1e; x00; x00; x00; x80; x07];
  mkStaticMsg 0x365 ECU.DSU [CAR.RAV4; CAR.COROLLA] 0 20
    [x00; x00; x00; x80; xfc; x00; x08];
  mkStaticMsg 0x366 ECU.DSU [CAR.RAV4; CAR.COROLLA] 0 20
    [x00; x72; x07; xff; x09; xfe; x00];
  mkStaticMsg 0x4CB ECU.DSU [CAR.PRIUS; CAR.RAV4H; CAR.LEXUS_RXH; CAR.RAV4; CAR.COROLLA] 0 100
    [x0c; x00; x00; x00; x00; x00; x00; x00]
].

(** The signal dict encoded into ACC_CONTROL on every pass of the main
    loop. *)
Definition acc_control_signals : gmap string pyval :=
  {[ "ACCEL_CMD"%string := PyFloat 0;
     "SET_ME_X63"%string := PyInt 0x63;
     "SET_ME_1"%string := PyInt 1;
     "RELEASE_STANDSTILL"%string := PyInt 1;
     "CANCEL_REQ"%string := PyInt 0;
     "CHECKSUM"%string := PyInt 113 ]}.

(** The payload of a static message: [bytearray(vl)], with a rolling counter
    byte appended for the ids 0x489 and 0x48a.  [frame] holds an integer, so
    [int((frame / 100) % 0xf)] is [(frame / 100) mod 0xf] with the integer
    quotient. *)
Definition tosend (frame : Z) (e : StaticMsg) : M Z (list byte) :=
  if ((addr e =? 0x489) || (addr e =? 0x48a)) && (bus e =? 0) then
    let cnt := (frame / 100) mod 0xf + 1 in
    let cnt := if addr e =? 0x48a then cnt + Z.shiftl 1 7 else cnt in
    bytearray_append (vl e) cnt
  else ret (vl e).

(** The body of [for (addr, ecu, cars, bus, fr_step, vl) in STATIC_MSGS]. *)
Definition send_static (env : CanEnv) (frame : Z) (e : StaticMsg) : M Z unit :=
  r <- py_mod frame (fr_step e) ;;
  if r =? 0 then
    payload <- tosend frame e ;;
    let can_bus := if bus e =? 0 then Can0 else Can1 in
    send env can_bus (mkMessage (addr e) payload)
  else ret tt.

(** One pass of the [while True] body; the only variable is [frame].  The
    script counts in floats ([frame = 0.], [frame += 1.]); the counter only
    ever holds integers, on which float arithmetic is exact, so it is an
    integer here. *)
Definition tick (env : CanEnv) (acc_message : DbcMessage) : M Z unit :=
  frame <- get ;;
  r <- py_mod frame 1 ;;
  (if r =? 0 then
     acc_msg <- encode_message acc_message acc_control_signals ;;
     send env Can0 (mkMessage (frame_id acc_message) acc_msg)
   else ret tt) ;;
  for_each STATIC_MSGS (send_static env frame) ;;
  modify (fun frame => frame + 1) ;;
  sleep (1 # 100).

Definition main_loop (env : CanEnv) (acc_message : DbcMessage) (n : nat) : M Z unit :=
  while_true n (tick env acc_message).

(** The [finally] block: each call in a [try] of its own. *)
Definition cleanup {Sys : Type} (call : CleanupCall -> M Sys unit) : M Sys unit :=
  try_except_pass (call NotifierStop) ;;
  try_except_pass (call (BusShutdown Can0)) ;;
  try_except_pass (call (BusShutdown Can1)).

End Rpi.

(** ** toyota_radar_2019.py: the listener *)

Module Y2019.

Record MessageLogger := mkLogger {
  can0_tx : Z;
  can1_rx : Z;
  radar_status_msgs : Z;
  radar_track_msgs : Z;
  valid_tracks : Z;
  last_4ff_data : option (list byte)
}.

Definition logger0 : MessageLogger :=
  mkLogger 0 0 0 0 0 None.

(** [0x210 <= msg.arbitration_id <= 0x21F] *)
Definition in_track_window (id : Z) : bool :=
  (0x210 <=? id) && (id <=? 0x21F).

Definition same_payload (a : option (list byte)) (b : list byte) : bool :=
  match a with
  | Some x => bool_decide (x = b)
  | None => false
  end.

(** [OnCanRadar.on_message_received]: the new logger and what is printed. *)
Definition on_message_received (db : option Database) (msg : Message)
    (logger : MessageLogger) : MessageLogger * list Output :=
  let logger := mkLogger (can0_tx logger) (can1_rx logger + 1)
                  (radar_status_msgs logger) (radar_track_msgs logger)
                  (valid_tracks logger) (last_4ff_data logger) in
  if arbitration_id msg =? 0x4FF then
    let logger := mkLogger (can0_tx logger) (can1_rx logger)
                    (radar_status_msgs logger + 1) (radar_track_msgs logger)
                    (valid_tracks logger) (last_4ff_data logger) in
    if same_payload (last_4ff_data logger) (data msg) then (logger, [])
    else (mkLogger (can0_tx logger) (can1_rx logger)
            (radar_status_msgs logger) (radar_track_msgs logger)
            (valid_tracks logger) (Some (data msg)),
          [OutStatusNew (data msg)])
  else if in_track_window (arbitration_id msg) then
    let logger := mkLogger (can0_tx logger) (can1_rx logger)
                    (radar_status_msgs logger) (radar_track_msgs logger + 1)
                    (valid_tracks logger) (last_4ff_data logger) in
    let out := [OutTrack (arbitration_id msg) (data msg)] in
    match db with
    | Some decode_message =>
        match decode_message (arbitration_id msg) (data msg) with
        | Some decoded =>
            if get_VALID_is_1 decoded then
              (mkLogger (can0_tx logger) (can1_rx logger)
                 (radar_status_msgs logger) (radar_track_msgs logger)
                 (valid_tracks logger + 1) (last_4ff_data logger),
               out ++ [OutValidTrack
                         (dict_get decoded "LONG_DIST" (PyStr "N/A"))])
            else (logger, out)
        | None => (logger, out)
        end
    | None => (logger, out)
    end
  else (logger, [OutOther (arbitration_id msg) (data msg)]).

(** The notifier calls the listener once per frame, in arrival order. *)
Fixpoint receive_all (db : option Database) (frames : list Message)
    (logger : MessageLogger) : MessageLogger * list Output :=
  match frames with
  | [] => (logger, [])
  | msg :: rest =>
      let '(logger1, out1) := on_message_received db msg logger in
      let '(logger2, out2) := receive_all db rest logger1 in
      (logger2, out1 ++ out2)
  end.

(** An entry [(addr, bus, fr_step, vl)] of [STATIC_MSGS_2019]. *)
Record StaticMsg2019 := mkStaticMsg2019 {
  addr : Z;
  bus : Z;
  fr_step : Z;
  vl : list byte
}.

Definition STATIC_MSGS_2019 : list StaticMsg2019 := [
  mkStaticMsg2019 0x141 0 2 [x00; x00; x00; x46];
  mkStaticMsg2019 0x128 1 3 [xf4; x01; x90; x83; x00; x37];
  mkStaticMsg2019 0x283 0 3 [x00; x00; x00; x00; x00; x00; x8c];
  mkStaticMsg2019 0x344 0 5 [x00; x00; x01; x00; x00; x00; x00; x50];
  mkStaticMsg2019 0x160 1 7 [x00; x00; x08; x12; x01; x31; x9c; x51];
  mkStaticMsg2019 0x161 1 7 [x00; x1e; x00; x00; x00; x80; x07];
  mkStaticMsg2019 0x365 0 20 [x00; x00; x00; x80; x03; x00; x08];
  mkStaticMsg2019 0x366 0 20 [x00; x00; x4d; x82; x40; x02; x00];
  mkStaticMsg2019 0x4CB 0 100 [x0c; x00; x00; x00; x00; x00; x00; x00];
  mkStaticMsg2019 0x1D4 0 3 [x00; x00; x00; x00; x00; x00; x00; x00];
  mkStaticMsg2019 0x620 0 20 [x00; x00; x00; x00; x00; x00; x00; x00]
].

(** The variables of the main block, with the module-level [logger]. *)
Record Vars := mkVars {
  frame : Z;
  logger : MessageLogger
}.

(** [logger.can0_tx += 1] *)
Definition incr_can0_tx : M Vars unit :=
  modify (fun v =>
    let l := logger v in
    mkVars (frame v)
      (mkLogger (can0_tx l + 1) (can1_rx l) (radar_status_msgs l)
         (radar_track_msgs l) (valid_tracks l) (last_4ff_data l))).

(** [send_message(bus, msg_id, data, desc)], the print aside. *)
Definition send_message (env : CanEnv) (bus : Bus) (msg_id : Z) (data : list byte)
    : M Vars unit :=
  send env bus (mkMessage msg_id data) ;;
  incr_can0_tx.

Definition acc_control_signals : gmap string pyval :=
  {[ "ACCEL_CMD"%string := PyFloat 0;
     "SET_ME_X63"%string := PyInt 0x63;
     "SET_ME_1"%string := PyInt 1;
     "RELEASE_STANDSTILL"%string := PyInt 1;
     "CANCEL_REQ"%string := PyInt 0;
     "CHECKSUM"%string := PyInt 113 ]}.

(** The body of [for (addr, bus, fr_step, vl) in STATIC_MSGS_2019]. *)
Definition send_static (env : CanEnv) (frame : Z) (e : StaticMsg2019) : M Vars unit :=
  r <- py_mod frame (fr_step e) ;;
  if r =? 0 then
    let target_bus := if bus e =? 0 then Can0 else Can1 in
    send env target_bus (mkMessage (addr e) (vl e)) ;;
    if bus e =? 0 then incr_can0_tx else ret tt
  else ret tt.

(** One pass of the [while True] body (the status print aside).
    [acc_message] is [None] when the DBC lacks one of the messages. *)
Definition tick (env : CanEnv) (acc_message : option DbcMessage) : M Vars unit :=
  v <- get ;;
  r <- py_mod (frame v) 1 ;;
  match acc_message with
  | Some acc =>
      if r =? 0 then
        acc_msg <- encode_message acc acc_control_signals ;;
        send env Can0 (mkMessage (frame_id acc) acc_msg) ;;
        incr_can0_tx
      else ret tt
  | None => ret tt
  end ;;
  for_each STATIC_MSGS_2019 (send_static env (frame v)) ;;
  modify (fun v => mkVars (frame v + 1) (logger v)) ;;
  sleep (1 # 100).

Definition main_loop (env : CanEnv) (acc_message : option DbcMessage) (n : nat)
    : M Vars unit :=
  while_true n (tick env acc_message).

(** The [finally] block: the three calls share one [try]. *)
Definition cleanup {Sys : Type} (call : CleanupCall -> M Sys unit) : M Sys unit :=
  try_except_pass
    (call NotifierStop ;;
     call (BusShutdown Can0) ;;
     call (BusShutdown Can1)).

End Y2019.

(** ** toyota_radar_debug.py: the listener *)

Module Debug.

Record OnCan := mkOnCan {
  msg_count : Z;
  valid_tracks : Z;
  db : option Database
}.

(** [0x210 <= msg.arbitration_id <= 0x21F] *)
Definition in_track_window (id : Z) : bool :=
  (0x210 <=? id) && (id <=? 0x21F).

(** [OnCan.on_message_received] *)
Definition on_message_received (self : OnCan) (msg : Message) : OnCan * list Output :=
  let self := mkOnCan (msg_count self + 1) (valid_tracks self) (db self) in
  let out := [OutRx (arbitration_id msg) (data msg)] in
  if in_track_window (arbitration_id msg) then
    match db self with
    | Some decode_message =>
        match decode_message (arbitration_id msg) (data msg) with
        | Some decoded =>
            if get_VALID_is_1 decoded then
              (mkOnCan (msg_count self) (valid_tracks self + 1) (db self),
               out ++ [OutValidTrack
                         (dict_get decoded "LONG_DIST" (PyStr "N/A"))])
            else (self, out ++ [OutInvalidTrack
                                  (dict_get decoded "VALID" (PyStr "N/A"))])
        | None => (self, out ++ [OutDecodeError])
        end
    | None => (self, out ++ [OutNoDbc])
    end
  else (self, out).

Fixpoint receive_all (self : OnCan) (frames : list Message) : OnCan * list Output :=
  match frames with
  | [] => (self, [])
  | msg :: rest =>
      let '(self1, out1) := on_message_received self msg in
      let '(self2, out2) := receive_all self1 rest in
      (self2, out1 ++ out2)
  end.

Module ECU.
Definition CAM : Z := 0.
Definition DSU : Z := 1.
Definition APGS : Z := 2.
End ECU.

Module CAR.
Definition PRIUS : Z := 0.
Definition LEXUS_RXH : Z := 1.
Definition RAV4 : Z := 2.
Definition RAV4H : Z := 3.
Definition COROLLA : Z := 4.
End CAR.

Definition STATIC_MSGS : list StaticMsg := [
  mkStaticMsg 0x141 ECU.DSU [CAR.PRIUS; CAR.RAV4H; CAR.LEXUS_RXH; CAR.RAV4; CAR.COROLLA] 1 2
    [x00; x00; x00; x46];
  mkStaticMsg 0x128 ECU.DSU [CAR.PRIUS; CAR.RAV4H; CAR.LEXUS_RXH; CAR.RAV4; CAR.COROLLA] 1 3
    [xf4; x01; x90; x83; x00; x37];
  mkStaticMsg 0x283 ECU.DSU [CAR.PRIUS; CAR.RAV4H; CAR.LEXUS_RXH; CAR.RAV4; CAR.COROLLA] 0 3
    [x00; x00; x00; x00; x00; x00; x8c];
  mkStaticMsg 0x344 ECU.DSU [CAR.PRIUS; CAR.RAV4H; CAR.LEXUS_RXH; CAR.RAV4; CAR.COROLLA] 0 5
    [x00; x00; x01; x00; x00; x00; x00; x50];
  mkStaticMsg 0x160 ECU.DSU [CAR.PRIUS; CAR.RAV4H; CAR.LEXUS_RXH; CAR.RAV4; CAR.COROLLA] 1 7
    [x00; x00; x08; x12; x01; x31; x9c; x51];
  mkStaticMsg 0x161 ECU.DSU [CAR.PRIUS; CAR.RAV4H; CAR.LEXUS_RXH; CAR.RAV4; CAR.COROLLA] 1 7
    [x00; x1e; x00; x00; x00; x80; x07];
  mkStaticMsg 0x365 ECU.DSU [CAR.RAV4; CAR.COROLLA] 0 20
    [x00; x00; x00; x80; xfc; x00; x08];
  mkStaticMsg 0x366 ECU.DSU [CAR.RAV4; CAR.COROLLA] 0 20
    [x00; x72; x07; xff; x09; xfe; x00];
  mkStaticMsg 0x4CB ECU.DSU [CAR.PRIUS; CAR.RAV4H; CAR.LEXUS_RXH; CAR.RAV4; CAR.COROLLA] 0 100
    [x0c; x00; x00; x00; x00; x00; x00; x00]
].

(** The signal dict encoded into ACC_CONTROL on every pass of the main
    loop. *)
Definition acc_control_signals : gmap string pyval :=
  {[ "ACCEL_CMD"%string := PyFloat 0;
     "SET_ME_X63"%string := PyInt 0x63;
     "SET_ME_1"%string := PyInt 1;
     "RELEASE_STANDSTILL"%string := PyInt 1;
     "CANCEL_REQ"%string := PyInt 0;
     "CHECKSUM"%string := PyInt 113 ]}.

(** The variables of the main block. *)
Record Vars := mkVars {
  frame : Z;
  tx_count : Z
}.

(** [tx_count += 1] *)
Definition incr_tx_count : M Vars unit :=
  modify (fun v => mkVars (frame v) (tx_count v + 1)).

(** The payload of a static message, as in [toyota_radar_rpi.py]. *)
Definition tosend (frame : Z) (e : StaticMsg) : M Vars (list byte) :=
  if ((addr e =? 0x489) || (addr e =? 0x48a)) && (bus e =? 0) then
    let cnt := (frame / 100) mod 0xf + 1 in
    let cnt := if addr e =? 0x48a then cnt + Z.shiftl 1 7 else cnt in
    bytearray_append (vl e) cnt
  else ret (vl e).

(** The body of [for (addr, ecu, cars, bus, fr_step, vl) in STATIC_MSGS]. *)
Definition send_static (env : CanEnv) (frame : Z) (e : StaticMsg) : M Vars unit :=
  r <- py_mod frame (fr_step e) ;;
  if r =? 0 then
    payload <- tosend frame e ;;
    let can_bus := if bus e =? 0 then Can0 else Can1 in
    send env can_bus (mkMessage (addr e) payload) ;;
    incr_tx_count
  else ret tt.

(** One pass of the [while True] body (the status print aside).  [frame]
    starts as the integer 0 and is advanced by [frame += 1.0]; it only ever
    holds integers. *)
Definition tick (env : CanEnv) (acc_message : DbcMessage) : M Vars unit :=
  v <- get ;;
  r <- py_mod (frame v) 1 ;;
  (if r =? 0 then
     acc_msg <- encode_message acc_message acc_control_signals ;;
     send env Can0 (mkMessage (frame_id acc_message) acc_msg) ;;
     incr_tx_count
   else ret tt) ;;
  for_each STATIC_MSGS (send_static env (frame v)) ;;
  modify (fun v => mkVars (frame v + 1) (tx_count v)) ;;
  sleep (1 # 100).

Definition main_loop (env : CanEnv) (acc_message : DbcMessage) (n : nat) : M Vars unit :=
  while_true n (tick env acc_message).

(** The [finally] block: each call in a [try] of its own. *)
Definition cleanup {Sys : Type} (call : CleanupCall -> M Sys unit) : M Sys unit :=
  try_except_pass (call NotifierStop) ;;
  try_except_pass (call (BusShutdown Can0)) ;;
  try_except_pass (call (BusShutdown Can1)).

End Debug.

(** ** toyota_radar_driver: the track cache

    [radar_callbacks.py] and [radar_curses.py] import [RadarTrack] and
    [ToyotaRadarDriver] from [toyota_radar_driver]; they read the fields
    [track_id], [long_dist], [lat_dist], [rel_speed], [new_track] and
    [timestamp] of a track, and pass [track_timeout] in the configuration. *)

Module Driver.

(** Modelled from the spec: the record [RadarTrack] of [toyota_radar_driver],
    a module whose source is missing; the fields are those its consumers
    read, distances and times as rationals. *)
Record RadarTrack := mkRadarTrack {
  track_id : Z;
  long_dist : Q;
  lat_dist : Q;
  rel_speed : Q;
  new_track : bool;
  timestamp : Q
}.

(** Modelled from the spec: the decision of the missing track cache whether
    an update of [id] at time [now] starts a new track: "no prior entry
    existed for that id, or the prior entry's age at this moment exceeds
    [track_timeout]". *)
Definition is_new_track (tracks : gmap Z RadarTrack) (track_timeout now : Q) (id : Z)
    : bool :=
  match tracks !! id with
  | None => true
  | Some prev => negb (Qle_bool (now - timestamp prev) track_timeout)
  end.

(** Modelled from the spec: the upsert of the missing track cache for a
    valid decoded frame: "upsert the RadarTrack for that id (distances,
    relative speed, timestamp = now)".  Returns the cache and the track handed
    to the callbacks. *)
Definition upsert (track_timeout now : Q) (id : Z) (long lat rel : Q)
    (tracks : gmap Z RadarTrack) : gmap Z RadarTrack * RadarTrack :=
  let track := mkRadarTrack id long lat rel
                 (is_new_track tracks track_timeout now id) now in
  (<[id := track]> tracks, track).

(** Modelled from the spec: a run of valid updates [(now, id)], oldest first,
    through the missing track cache; the [new_track] flags delivered, in
    order. *)
Fixpoint new_track_flags (track_timeout : Q) (updates : list (Q * Z))
    (tracks : gmap Z RadarTrack) : list bool :=
  match updates with
  | [] => []
  | (now, id) :: rest =>
      let '(tracks', track) := upsert track_timeout now id 0 0 0 tracks in
      new_track track :: new_track_flags track_timeout rest tracks'
  end.

End Driver.

(** ** Time taken by a trace

    [time.sleep(d)] takes [d] seconds; every other call takes what [cost]
    says. *)

Definition duration (cost : Event -> Q) (ev : Event) : Q :=
  match ev with
  | EvSleep d => d
  | _ => cost ev
  end.

Fixpoint elapsed (cost : Event -> Q) (tr : list Event) : Q :=
  match tr with
  | [] => 0
  | ev :: rest => duration cost ev + elapsed cost rest
  end.

(** The pause requested at the end of a trace, if it ends with one. *)
Definition final_sleep (tr : list Event) : option Q :=
  match last tr with
  | Some (EvSleep d) => Some d
  | _ => None
  end.

(** ** Properties of runs *)

Definition status {A} (r : result A) : option exn :=
  match r with
  | Ok _ => None
  | Raise e => Some e
  end.

(** [sat G c]: the computation [c] only appends to the trace, and the
    variables before, the events appended, the exception status and the
    variables after are related by [G]. *)
Definition sat {V A} (G : V -> list Event -> option exn -> V -> Prop) (c : M V A)
    : Prop :=
  forall s, exists tr,
    trace (snd (c s)) = trace s ++ tr /\
    G (vars s) tr (status (fst (c s))) (vars (snd (c s))).

(** A failed call is the last event, and its exception is the one that
    leaves the computation. *)
Fixpoint stops_at_failure (tr : list Event) (st : option exn) : Prop :=
  match tr with
  | [] => True
  | ev :: rest =>
      match failure_of ev with
      | Some e => rest = [] /\ st = Some e
      | None => stops_at_failure rest st
      end
  end.

Definition Bus_eqb (a b : Bus) : bool :=
  match a, b with
  | Can0, Can0 | Can1, Can1 => true
  | _, _ => false
  end.

Definition Message_eqb (a b : Message) : bool :=
  (arbitration_id a =? arbitration_id b) && bool_decide (data a = data b).

(** Successful sends of the frame [m] on the bus [b]. *)
Fixpoint count_sent (b : Bus) (m : Message) (tr : list Event) : Z :=
  match tr with
  | [] => 0
  | EvSend b' m' :: rest =>
      (if Bus_eqb b b' && Message_eqb m m' then 1 else 0) + count_sent b m rest
  | _ :: rest => count_sent b m rest
  end.

(** Successful sends on the bus [b]. *)
Fixpoint sent_on (b : Bus) (tr : list Event) : Z :=
  match tr with
  | [] => 0
  | EvSend b' _ :: rest => (if Bus_eqb b b' then 1 else 0) + sent_on b rest
  | _ :: rest => sent_on b rest
  end.

(** Successful sends on either bus. *)
Definition sent (tr : list Event) : Z := sent_on Can0 tr + sent_on Can1 tr.

Definition is_sleep (ev : Event) : bool :=
  match ev with
  | EvSleep _ => true
  | _ => false
  end.

(** The signal values of a passive control frame. *)
Definition benign_signals (signals : gmap string pyval) : Prop :=
  signals !! "ACCEL_CMD"%string = Some (PyFloat 0) /\
  signals !! "RELEASE_STANDSTILL"%string = Some (PyInt 1) /\
  signals !! "CANCEL_REQ"%string = Some (PyInt 0).

(** Every encode call of the event, successful or not, is for a passive
    control frame. *)
Definition benign (ev : Event) : Prop :=
  match ev with
  | EvEncode _ signals | EvEncodeFailed _ signals _ => benign_signals signals
  | _ => True
  end.

(** The encode calls of a trace, successful or failed, in order: the name
    of the message and the signal dict passed to [encode]. *)
Fixpoint encode_calls (tr : list Event) : list (string * gmap string pyval) :=
  match tr with
  | [] => []
  | EvEncode message signals :: rest => (message, signals) :: encode_calls rest
  | EvEncodeFailed message signals _ :: rest => (message, signals) :: encode_calls rest
  | _ :: rest => encode_calls rest
  end.

(** No encode call among the events. *)
Definition encodes_nothing {V} (v : V) (tr : list Event) (st : option exn) (v' : V)
    : Prop :=
  encode_calls tr = [].

(** A pass that starts with an encode call and holds no other. *)
Definition starts_with_encode {V} (body : M V unit) (message : string)
    (signals : gmap string pyval) : Prop :=
  forall s, exists ev tr,
    trace (snd (body s)) = trace s ++ ev :: tr /\
    (ev = EvEncode message signals \/ exists e, ev = EvEncodeFailed message signals e) /\
    encode_calls tr = [].

(** The encode calls of a run of [n] passes: one per pass started. *)
Definition one_encode_per_pass {V} (loop : nat -> M V unit) (message : string)
    (signals : gmap string pyval) : Prop :=
  forall n s, exists tr k,
    trace (snd (loop n s)) = trace s ++ tr /\
    encode_calls tr = repeat (message, signals) k /\
    (k <= n)%nat /\
    (status (fst (loop n s)) = None -> k = n) /\
    (n <> O -> k <> O).

(** The ticks [t, t+1, ..., t+n-1]. *)
Fixpoint ticks (t : Z) (n : nat) : list Z :=
  match n with
  | O => []
  | S n' => t :: ticks (t + 1) n'
  end.

(** What one pass of the main loop of toyota_radar_rpi.py sends when no call
    fails. *)
Definition rpi_static_events (t : Z) (e : StaticMsg) : list Event :=
  if t mod fr_step e =? 0
  then [EvSend (if bus e =? 0 then Can0 else Can1) (mkMessage (addr e) (vl e))]
  else [].

Definition rpi_tick_events (acc_message : DbcMessage) (payload : list byte) (t : Z)
    : list Event :=
  [EvEncode (name acc_message) Rpi.acc_control_signals;
   EvSend Can0 (mkMessage (frame_id acc_message) payload)]
  ++ flat_map (rpi_static_events t) Rpi.STATIC_MSGS
  ++ [EvSleep (1 # 100)].

(** The same for toyota_radar_2019.py. *)
Definition y2019_static_events (t : Z) (e : Y2019.StaticMsg2019) : list Event :=
  if t mod Y2019.fr_step e =? 0
  then [EvSend (if Y2019.bus e =? 0 then Can0 else Can1)
          (mkMessage (Y2019.addr e) (Y2019.vl e))]
  else [].

Definition y2019_tick_events (acc_message : DbcMessage) (payload : list byte) (t : Z)
    : list Event :=
  [EvEncode (name acc_message) Y2019.acc_control_signals;
   EvSend Can0 (mkMessage (frame_id acc_message) payload)]
  ++ flat_map (y2019_static_events t) Y2019.STATIC_MSGS_2019
  ++ [EvSleep (1 # 100)].

(** A pass of toyota_radar_2019.py when [acc_message] is [None]: no control
    frame. *)
Definition y2019_tick_events_no_control (t : Z) : list Event :=
  flat_map (y2019_static_events t) Y2019.STATIC_MSGS_2019
  ++ [EvSleep (1 # 100)].

(** The relations the three main loops keep. *)
Definition rpi_keeps (v : Z) (tr : list Event) (st : option exn) (v' : Z) : Prop :=
  stops_at_failure tr st /\ Forall benign tr.

Definition y2019_keeps (v : Y2019.Vars) (tr : list Event) (st : option exn)
    (v' : Y2019.Vars) : Prop :=
  stops_at_failure tr st /\ Forall benign tr /\
  Y2019.can0_tx (Y2019.logger v')
  = Y2019.can0_tx (Y2019.logger v) + sent_on Can0 tr.

Definition debug_keeps (v : Debug.Vars) (tr : list Event) (st : option exn)
    (v' : Debug.Vars) : Prop :=
  stops_at_failure tr st /\ Forall benign tr /\
  Debug.tx_count v' = Debug.tx_count v + sent tr.

(** A pass that completes ends with [time.sleep(1/100)] and holds no other
    pause; a pass that raises holds none. *)
Definition ends_with_constant_sleep {V} (v : V) (tr : list Event) (st : option exn)
    (v' : V) : Prop :=
  match st with
  | None => exists work, tr = work ++ [EvSleep (1 # 100)] /\
                         Forall (fun ev => is_sleep ev = false) work
  | Some _ => Forall (fun ev => is_sleep ev = false) tr
  end.

Definition no_sleep {V} (v : V) (tr : list Event) (st : option exn) (v' : V) : Prop :=
  Forall (fun ev => is_sleep ev = false) tr.


(** ** Sample collaborators, for the worked examples *)

(** A decoder that finds a valid track 12.5 m ahead in every payload. *)
Definition decode_valid_track : Database :=
  fun _ _ => Some {[ "VALID"%string := PyInt 1;
                     "LONG_DIST"%string := PyFloat (25 # 2) ]}.

(** An ACC_CONTROL message object with the frame id of the Toyota DBC and
    an encoder that accepts every signal dict. *)
Definition sample_acc_payload : list byte :=
  [x00; x00; x63; xc0; x00; x00; x00; x71].

Definition sample_acc_message : DbcMessage :=
  mkDbcMessage "ACC_CONTROL" 0x343 (fun _ => Ok sample_acc_payload).

(** A transport on which every send succeeds. *)
Definition env_ok : CanEnv := mkCanEnv (fun _ _ _ => None).

(** A transport on which the second send of the run fails. *)
Definition env_second_send_fails : CanEnv :=
  mkCanEnv (fun n _ _ => if Nat.eqb n 1 then Some CanError else None).


(** Every successful send takes [d] seconds, everything else no time. *)
Definition send_cost (d : Q) (ev : Event) : Q :=
  match ev with
  | EvSend _ _ => d
  | _ => 0
  end.

(** A notifier and two buses seen through one flag, "the reception thread
    is running": [notifier.stop()] halts the thread and raises if it was
    halted already; shutting a bus down always raises. *)
Definition sample_call (c : CleanupCall) : M bool unit :=
  fun s =>
    match c with
    | NotifierStop =>
        if vars s then (Ok tt, mkLoop false (trace s))
        else (Raise OtherError, s)
    | BusShutdown _ => (Raise CanError, s)
    end.


(** ** Further relations kept by the main loops *)

(** The fields of [logger] that the listener of toyota_radar_2019.py writes
    are the same before and after. *)
Definition y2019_rx_fields_kept (v : Y2019.Vars) (tr : list Event) (st : option exn)
    (v' : Y2019.Vars) : Prop :=
  Y2019.can1_rx (Y2019.logger v') = Y2019.can1_rx (Y2019.logger v) /\
  Y2019.radar_status_msgs (Y2019.logger v') = Y2019.radar_status_msgs (Y2019.logger v) /\
  Y2019.radar_track_msgs (Y2019.logger v') = Y2019.radar_track_msgs (Y2019.logger v) /\
  Y2019.valid_tracks (Y2019.logger v') = Y2019.valid_tracks (Y2019.logger v) /\
  Y2019.last_4ff_data (Y2019.logger v') = Y2019.last_4ff_data (Y2019.logger v).


(** ** The main blocks of the scripts, from the DBC lookups to the cleanup *)

(** [db.get_message_by_name]: the message object, or [None] where the call
    raises [KeyError]. *)
Definition DbcFile := string -> option DbcMessage.

Definition get_message_by_name {V} (db : DbcFile) (name : string) : M V DbcMessage :=
  match db name with
  | Some m => ret m
  | None => raise KeyError
  end.

(** How a script run stands: still in its [while True] loop, ended normally,
    or ended by an exception that reached the interpreter. *)
Inductive Outcome :=
| StillLooping
| Exited
| Propagated (e : exn).

Definition is_KeyboardInterrupt (e : exn) : bool :=
  match e with
  | KeyboardInterrupt => true
  | _ => false
  end.

Module RpiScript.

Definition speed_signals : gmap string pyval :=
  {[ "ENCODER"%string := PyInt 0;
     "SPEED"%string := PyFloat (144 # 100);
     "CHECKSUM"%string := PyInt 0 ]}.

Definition pcm_cruise_signals : gmap string pyval :=
  {[ "CRUISE_STATE"%string := PyInt 9;
     "GAS_RELEASED"%string := PyInt 0;
     "STANDSTILL_ON"%string := PyInt 0;
     "ACCEL_NET"%string := PyInt 0;
     "CHECKSUM"%string := PyInt 0 ]}.

Definition pcm_cruise_2_signals : gmap string pyval :=
  {[ "MAIN_ON"%string := PyInt 0;
     "LOW_SPEED_LOCKOUT"%string := PyInt 0;
     "SET_SPEED"%string := PyInt 0;
     "CHECKSUM"%string := PyInt 0 ]}.

Definition acc_control_init_signals : gmap string pyval :=
  {[ "ACCEL_CMD"%string := PyInt 0;
     "SET_ME_X63"%string := PyInt 0;
     "RELEASE_STANDSTILL"%string := PyInt 0;
     "SET_ME_1"%string := PyInt 0;
     "CANCEL_REQ"%string := PyInt 0;
     "CHECKSUM"%string := PyInt 0 ]}.

Definition pcm_cruise_sm_signals : gmap string pyval :=
  {[ "MAIN_ON"%string := PyInt 0;
     "CRUISE_CONTROL_STATE"%string := PyInt 0;
     "UI_SET_SPEED"%string := PyInt 0 ]}.

(** One of the one-time initialization messages: look the message up, encode
    the signals, send the frame on can0. *)
Definition send_init (env : CanEnv) (db : DbcFile) (name : string)
    (signals : gmap string pyval) : M Z unit :=
  msg <- get_message_by_name db name ;;
  payload <- encode_message msg signals ;;
  send env Can0 (mkMessage (frame_id msg) payload).

(** The body of the outer [try]. *)
Definition main_block (env : CanEnv) (db : DbcFile) (n : nat) : M Z unit :=
  acc_message <- get_message_by_name db "ACC_CONTROL" ;;
  put 0 ;;
  send_init env db "SPEED" speed_signals ;;
  send_init env db "PCM_CRUISE" pcm_cruise_signals ;;
  send_init env db "PCM_CRUISE_2" pcm_cruise_2_signals ;;
  send_init env db "ACC_CONTROL" acc_control_init_signals ;;
  send_init env db "PCM_CRUISE_SM" pcm_cruise_sm_signals ;;
  Rpi.main_loop env acc_message n.

(** The [try ... except KeyboardInterrupt ... except Exception ... finally]
    around the main block: both handlers only print, then the cleanup
    runs. *)
Definition script (env : CanEnv) (db : DbcFile) (call : CleanupCall -> M Z unit)
    (n : nat) (s : Loop Z) : Outcome * Loop Z :=
  match main_block env db n s with
  | (Ok _, s1) => (StillLooping, s1)
  | (Raise _, s1) =>
      match Rpi.cleanup call s1 with
      | (Ok _, s2) => (Exited, s2)
      | (Raise e', s2) => (Propagated e', s2)
      end
  end.

End RpiScript.

Module Y2019Script.

Definition speed_signals : gmap string pyval :=
  {[ "ENCODER"%string := PyInt 0;
     "SPEED"%string := PyFloat 0;
     "CHECKSUM"%string := PyInt 0 ]}.

Definition pcm_cruise_signals : gmap string pyval :=
  {[ "CRUISE_STATE"%string := PyInt 8;
     "GAS_RELEASED"%string := PyInt 1;
     "STANDSTILL_ON"%string := PyInt 0;
     "ACCEL_NET"%string := PyInt 0;
     "CHECKSUM"%string := PyInt 0 ]}.

Definition pcm_cruise_2_signals : gmap string pyval :=
  {[ "MAIN_ON"%string := PyInt 1;
     "LOW_SPEED_LOCKOUT"%string := PyInt 0;
     "SET_SPEED"%string := PyInt 25;
     "CHECKSUM"%string := PyInt 0 ]}.

Definition acc_control_init_signals : gmap string pyval :=
  {[ "ACCEL_CMD"%string := PyInt 0;
     "SET_ME_X63"%string := PyInt 0x63;
     "RELEASE_STANDSTILL"%string := PyInt 1;
     "SET_ME_1"%string := PyInt 1;
     "CANCEL_REQ"%string := PyInt 0;
     "CHECKSUM"%string := PyInt 0 ]}.

Definition pcm_cruise_sm_signals : gmap string pyval :=
  {[ "MAIN_ON"%string := PyInt 1;
     "CRUISE_CONTROL_STATE"%string := PyInt 2;
     "UI_SET_SPEED"%string := PyInt 25 ]}.

(** The message objects the startup needs. *)
Record Messages := mkMessages {
  acc_message : DbcMessage;
  speed_msg : DbcMessage;
  cruise_msg : DbcMessage;
  cruise2_msg : DbcMessage;
  cruise_sm_msg : DbcMessage
}.

(** The inner [try]: five lookups; if one raises, [acc_message = None]. *)
Definition lookup_messages (db : DbcFile) : option Messages :=
  match db "ACC_CONTROL"%string, db "SPEED"%string, db "PCM_CRUISE"%string,
        db "PCM_CRUISE_2"%string, db "PCM_CRUISE_SM"%string with
  | Some a, Some s, Some c, Some c2, Some sm => Some (mkMessages a s c c2 sm)
  | _, _, _, _, _ => None
  end.

(** [send_message(can_bus0, m.frame_id, m.encode(signals), desc)] *)
Definition send_encoded (env : CanEnv) (m : DbcMessage) (signals : gmap string pyval)
    : M Y2019.Vars unit :=
  payload <- encode_message m signals ;;
  Y2019.send_message env Can0 (frame_id m) payload.

(** The startup sequence under [if acc_message:]. *)
Definition startup_sequence (env : CanEnv) (ms : Messages) : M Y2019.Vars unit :=
  for_each [0; 1; 2]%Z (fun _ =>
    send_encoded env (speed_msg ms) speed_signals ;;
    sleep (2 # 100)) ;;
  for_each [0; 1; 2]%Z (fun _ =>
    send_encoded env (cruise_msg ms) pcm_cruise_signals ;;
    sleep (2 # 100)) ;;
  send_encoded env (cruise2_msg ms) pcm_cruise_2_signals ;;
  send_encoded env (acc_message ms) acc_control_init_signals ;;
  send_encoded env (cruise_sm_msg ms) pcm_cruise_sm_signals.

(** The body of the outer [try]. *)
Definition main_block (env : CanEnv) (db : DbcFile) (n : nat) : M Y2019.Vars unit :=
  let ms := lookup_messages db in
  modify (fun v => Y2019.mkVars 0 (Y2019.logger v)) ;;
  match ms with
  | Some ms => startup_sequence env ms
  | None => ret tt
  end ;;
  Y2019.main_loop env (option_map acc_message ms) n.

(** The [try ... except KeyboardInterrupt ... finally] around the main
    block: only [KeyboardInterrupt] is handled; the cleanup runs either
    way. *)
Definition script (env : CanEnv) (db : DbcFile)
    (call : CleanupCall -> M Y2019.Vars unit) (n : nat) (s : Loop Y2019.Vars)
    : Outcome * Loop Y2019.Vars :=
  match main_block env db n s with
  | (Ok _, s1) => (StillLooping, s1)
  | (Raise e, s1) =>
      match Y2019.cleanup call s1 with
      | (Ok _, s2) => (if is_KeyboardInterrupt e then Exited else Propagated e, s2)
      | (Raise e', s2) => (Propagated e', s2)
      end
  end.

End Y2019Script.

(** The main block of toyota_radar_debug.py.  Its initialization messages
    carry the signal values of toyota_radar_rpi.py. *)
Module DebugScript.

(** One of the one-time initialization messages: look the message up, encode
    the signals, send the frame on can0.  [tx_count] is not touched. *)
Definition send_init (env : CanEnv) (db : DbcFile) (name : string)
    (signals : gmap string pyval) : M Debug.Vars unit :=
  msg <- get_message_by_name db name ;;
  payload <- encode_message msg signals ;;
  send env Can0 (mkMessage (frame_id msg) payload).

(** The body of the outer [try]. *)
Definition main_block (env : CanEnv) (db : DbcFile) (n : nat) : M Debug.Vars unit :=
  acc_message <- get_message_by_name db "ACC_CONTROL" ;;
  put (Debug.mkVars 0 0) ;;
  send_init env db "SPEED" RpiScript.speed_signals ;;
  send_init env db "PCM_CRUISE" RpiScript.pcm_cruise_signals ;;
  send_init env db "PCM_CRUISE_2" RpiScript.pcm_cruise_2_signals ;;
  send_init env db "ACC_CONTROL" RpiScript.acc_control_init_signals ;;
  send_init env db "PCM_CRUISE_SM" RpiScript.pcm_cruise_sm_signals ;;
  Debug.main_loop env acc_message n.

(** The [try ... except KeyboardInterrupt ... except Exception ... finally]
    around the main block: both handlers only print, then the cleanup
    runs. *)
Definition script (env : CanEnv) (db : DbcFile)
    (call : CleanupCall -> M Debug.Vars unit) (n : nat) (s : Loop Debug.Vars)
    : Outcome * Loop Debug.Vars :=
  match main_block env db n s with
  | (Ok _, s1) => (StillLooping, s1)
  | (Raise _, s1) =>
      match Debug.cleanup call s1 with
      | (Ok _, s2) => (Exited, s2)
      | (Raise e', s2) => (Propagated e', s2)
      end
  end.

End DebugScript.

(** No encode call. *)
Definition no_encode {V} (v : V) (tr : list Event) (st : option exn) (v' : V) : Prop :=
  Forall (fun ev => match ev with
                    | EvEncode _ _ | EvEncodeFailed _ _ _ => False
                    | _ => True
                    end) tr.

(** A codec file that knows the five messages of the startup. *)
Definition sample_db : DbcFile :=
  fun name =>
    if String.eqb name "ACC_CONTROL" then Some sample_acc_message
    else if String.eqb name "SPEED"
    then Some (mkDbcMessage "SPEED" 0xB4 (fun _ => Ok [x00; x00; x00; x00; x00; x00; x00; xbc]))
    else if String.eqb name "PCM_CRUISE"
    then Some (mkDbcMessage "PCM_CRUISE" 0x1D2 (fun _ => Ok [x00; x00; x00; x00; x00; x00; x80; x5b]))
    else if String.eqb name "PCM_CRUISE_2"
    then Some (mkDbcMessage "PCM_CRUISE_2" 0x1D3 (fun _ => Ok [x00; x80; x19; x00; x00; x00; x00; x7d]))
    else if String.eqb name "PCM_CRUISE_SM"
    then Some (mkDbcMessage "PCM_CRUISE_SM" 0x3B7 (fun _ => Ok [x00; x00; x00; x00; x00; x00; x00; x00]))
    else None.

(** A codec file without PCM_CRUISE_SM. *)
Definition sample_db_incomplete : DbcFile :=
  fun name => if String.eqb name "PCM_CRUISE_SM" then None else sample_db name.

(** A transport on which every send fails. *)
Definition env_down : CanEnv := mkCanEnv (fun _ _ _ => Some CanError).


(** [logger.can0_tx] has grown by the number of successful sends on can0. *)
Definition y2019_counts_can0 (v : Y2019.Vars) (tr : list Event) (st : option exn)
    (v' : Y2019.Vars) : Prop :=
  Y2019.can0_tx (Y2019.logger v')
  = (Y2019.can0_tx (Y2019.logger v) + sent_on Can0 tr)%Z.

(** The five message names the scripts look up. *)
Definition startup_names : list string :=
  ["ACC_CONTROL"; "SPEED"; "PCM_CRUISE"; "PCM_CRUISE_2"; "PCM_CRUISE_SM"]%string.


(** The sample notifier and buses, beside the variables of each script: the
    calls all raise and touch nothing. *)
Definition sample_call_z (c : CleanupCall) : M Z unit :=
  fun s => (Raise OtherError, s).

Definition sample_call_2019 (c : CleanupCall) : M Y2019.Vars unit :=
  fun s => (Raise OtherError, s).

Definition sample_call_debug (c : CleanupCall) : M Debug.Vars unit :=
  fun s => (Raise OtherError, s).


(** [not s] for a string [s]. *)
Definition str_is_empty (s : string) : bool :=
  match s with
  | EmptyString => true
  | String _ _ => false
  end.

(** ** fix_dbc.py

    A Python [str] is a list of Unicode code points.  The classes [\d],
    [\w] and [\s] of [re] are the ASCII ones on the ASCII characters; on the
    characters beyond they follow the Unicode database ([str.isdecimal],
    [str.isalnum], [str.isspace]), which is a parameter here.

    A file is what opening it with [open(path, 'r')] and reading it gives:
    the text after decoding and newline translation (so it holds no carriage
    return), or a [UnicodeDecodeError].  Such a text written with
    [open(path, 'w')] is a file that reads back as that text; its bytes need
    not be those of the file it was read from.  The file system is a map from paths to
    regular files that can be opened. *)

Module FixDbc.

Abbreviation text := (list Z).

(** The code points of an ASCII literal. *)
Fixpoint codes (s : string) : text :=
  match s with
  | EmptyString => []
  | String c rest => Z.of_N (Ascii.N_of_ascii c) :: codes rest
  end.

(** The Unicode database, for the characters beyond ASCII. *)
Record UnicodeData := mkUnicodeData {
  isdecimal : Z -> bool;
  isalnum : Z -> bool;
  isspace : Z -> bool
}.

Inductive File :=
| Undecodable
| Text (content : text).

(** [f.readlines()]: the text cut after every line feed. *)
Fixpoint readlines (content : text) : list text :=
  match content with
  | [] => []
  | c :: rest =>
      if c =? 10 then [c] :: readlines rest
      else
        match readlines rest with
        | [] => [[c]]
        | line :: lines => (c :: line) :: lines
        end
  end.

(** [s] without the literal prefix [pre], if it starts with it. *)
Fixpoint strip_prefix (pre s : text) : option text :=
  match pre with
  | [] => Some s
  | c :: pre' =>
      match s with
      | d :: s' => if c =? d then strip_prefix pre' s' else None
      | [] => None
      end
  end.

(** The longest prefix of [s] made of characters of the class [p], and the
    rest of [s]: what a greedy [p+] takes when the pattern that follows
    starts with a character outside [p]. *)
Fixpoint span (p : Z -> bool) (s : text) : text * text :=
  match s with
  | [] => ([], [])
  | c :: rest =>
      if p c
      then let '(taken, remaining) := span p rest in (c :: taken, remaining)
      else ([], s)
  end.

Section Patterns.

Variable ucd : UnicodeData.

(** [\d] *)
Definition is_digit (c : Z) : bool :=
  if c <? 128 then (48 <=? c) && (c <=? 57) else isdecimal ucd c.

(** [\w]: a letter, a digit or the underscore *)
Definition is_word (c : Z) : bool :=
  if c <? 128
  then ((48 <=? c) && (c <=? 57))
       || ((65 <=? c) && (c <=? 90))
       || ((97 <=? c) && (c <=? 122))
       || (c =? 95)
  else isalnum ucd c.

(** [\s]: on ASCII the tab, line feed, vertical tab, form feed, carriage
    return, the four separators 0x1c..0x1f and the space *)
Definition is_space (c : Z) : bool :=
  if c <? 128
  then ((9 <=? c) && (c <=? 13))
       || ((28 <=? c) && (c <=? 31))
       || (c =? 32)
  else isspace ucd c.

(** [re.match(r'BO_ (\d+) (\w+):', line)]: group 2 of the match.  The
    space is no digit and the colon no word character, so each [+] takes the
    longest run. *)
Definition match_message (line : text) : option text :=
  match strip_prefix (codes "BO_ ") line with
  | None => None
  | Some after_bo =>
      let '(digits, after_digits) := span is_digit after_bo in
      match digits with
      | [] => None
      | _ :: _ =>
          match strip_prefix (codes " ") after_digits with
          | None => None
          | Some after_space =>
              let '(name, after_name) := span is_word after_space in
              match name with
              | [] => None
              | _ :: _ =>
                  match strip_prefix (codes ":") after_name with
                  | None => None
                  | Some _ => Some name
                  end
              end
          end
      end
  end.

(** [re.match(r'\s+SG_ (\w+)', line)]: group 1 of the match.  The letter S
    is no blank, so [\s+] takes the longest run. *)
Definition match_signal (line : text) : option text :=
  let '(blanks, after_blanks) := span is_space line in
  match blanks with
  | [] => None
  | _ :: _ =>
      match strip_prefix (codes "SG_ ") after_blanks with
      | None => None
      | Some after_sg =>
          let '(name, _) := span is_word after_sg in
          match name with
          | [] => None
          | _ :: _ => Some name
          end
      end
  end.

(** The loop [for line in lines] of [fix_dbc_file], from the state
    ([current_message], [seen_signals]): the lines kept, in order, and the
    duplicates removed as (signal, message) pairs, in order.
    [seen_signals[current_message]] is read with the empty set as default;
    the key is always present when the script reads it. *)
Fixpoint scan (current_message : option text)
    (seen_signals : gmap text (gset text)) (lines : list text)
    : list text * list (text * text) :=
  match lines with
  | [] => ([], [])
  | line :: rest =>
      match match_message line with
      | Some name =>
          let '(fixed_lines, removed) :=
            scan (Some name) (<[name := ∅]> seen_signals) rest in
          (line :: fixed_lines, removed)
      | None =>
          match match_signal line, current_message with
          | Some signal_name, Some ((_ :: _) as message) =>
              if bool_decide (signal_name ∈ seen_signals !!! message)
              then
                let '(fixed_lines, removed) := scan current_message seen_signals rest in
                (fixed_lines, (signal_name, message) :: removed)
              else
                let '(fixed_lines, removed) :=
                  scan current_message
                    (<[message := {[signal_name]} ∪ seen_signals !!! message]> seen_signals)
                    rest in
                (line :: fixed_lines, removed)
          | _, _ =>
              let '(fixed_lines, removed) := scan current_message seen_signals rest in
              (line :: fixed_lines, removed)
          end
      end
  end.

(** [fix_dbc_file(filepath)] on the file system [fs]: the value returned or
    the exception raised, and the file system afterwards.  The prints are
    left out.  [UnicodeDecodeError] is a [ValueError]. *)
Definition fix_dbc_file (fs : gmap text File) (filepath : text)
    : result bool * gmap text File :=
  match fs !! filepath with
  | None => (Ok false, fs)
  | Some file =>
      let backup_path := filepath ++ codes ".backup" in
      let backed_up :=
        match fs !! backup_path with
        | Some _ => Ok fs
        | None =>
            match file with
            | Undecodable => Raise ValueError
            | Text content => Ok (<[backup_path := Text content]> fs)
            end
        end in
      match backed_up with
      | Raise e => (Raise e, fs)
      | Ok fs1 =>
          match fs1 !! filepath with
          | None => (Raise OtherError, fs1)
          | Some Undecodable => (Raise ValueError, fs1)
          | Some (Text content) =>
              let '(fixed_lines, removed) := scan None ∅ (readlines content) in
              if (0 <? Z.of_nat (length removed))%Z
              then (Ok true, <[filepath := Text (concat fixed_lines)]> fs1)
              else (Ok true, fs1)
          end
      end
  end.

(** The signal lines of a message body, by name. *)
Definition signal_names (lines : list text) : list text :=
  omap match_signal lines.

(** A line the loop treats as a signal definition: not a message definition,
    and matched by the signal pattern. *)
Definition is_signal_line (line : text) : bool :=
  match match_message line, match_signal line with
  | None, Some _ => true
  | _, _ => false
  end.

(** A line that defines a signal already defined by one of the lines
    [earlier]. *)
Definition defined_earlier (earlier : list text) (line : text) : bool :=
  match match_signal line with
  | Some signal_name => bool_decide (signal_name ∈ signal_names earlier)
  | None => false
  end.

End Patterns.

(** The lines [readlines] gives: every line but the last ends with its only
    line feed; the last is not empty and holds no line feed before its
    end. *)
Inductive whole_lines : list text -> Prop :=
| whole_lines_nil : whole_lines []
| whole_lines_last (line : text) :
    line <> [] -> 10 ∉ line -> whole_lines [line]
| whole_lines_cons (body : text) (lines : list text) :
    10 ∉ body -> whole_lines lines -> whole_lines ((body ++ [10]) :: lines).

End FixDbc.

(** A Unicode database for the worked examples, whose texts are ASCII: no
    character beyond ASCII is put in a class. *)
Definition sample_ucd : FixDbc.UnicodeData :=
  FixDbc.mkUnicodeData (fun _ => false) (fun _ => false) (fun _ => false).

(** A message of a DBC file with the signal LONG_DIST defined twice. *)
Definition sample_dbc_lines : list FixDbc.text :=
  [FixDbc.codes "VERSION 1" ++ [10];
   FixDbc.codes "BO_ 528 TRACK_A_0: 8 XXX" ++ [10];
   FixDbc.codes " SG_ COUNTER : 7|8@0+ (1,0) [0|255] XXX" ++ [10];
   FixDbc.codes " SG_ LONG_DIST : 15|13@0+ (0.04,0) [0|300] XXX" ++ [10];
   FixDbc.codes " SG_ LONG_DIST : 15|12@0+ (0.04,0) [0|300] XXX" ++ [10];
   FixDbc.codes " SG_ VALID : 48|1@0+ (1,0) [0|1] XXX" ++ [10]].

(** ** radar_curses.py

    Distances are rationals; [min], [max] and the comparisons of [sorted] are
    exact on floats, so they are the same on the rationals the floats
    denote. *)

Module Curses.

(** [min(a, b)]: [b] if [b < a], else [a]. *)
Definition py_min (a b : Q) : Q := if Qle_bool a b then a else b.

(** [max(a, b)]: [b] if [b > a], else [a]. *)
Definition py_max (a b : Q) : Q := if Qle_bool b a then a else b.

(** [clamp(value, lower, upper)] *)
Definition clamp (value lower upper : Q) : Q :=
  py_max lower (py_min upper value).

(** The upper-case hexadecimal digit of [d]: the characters 0..9 (codes
    48..57) and A..F (codes 65..70). *)
Definition hex_digit (d : Z) : Ascii.ascii :=
  if d <? 10
  then Ascii.ascii_of_N (Z.to_N (48 + d))
  else Ascii.ascii_of_N (Z.to_N (55 + d)).

(** The upper-case hexadecimal digits of [n >= 0], written in front of
    [acc]; [fuel] bounds the number of digits. *)
Fixpoint to_hex (fuel : nat) (n : Z) (acc : string) : string :=
  match fuel with
  | O => acc
  | S fuel' =>
      let acc' := String (hex_digit (n mod 16)) acc in
      if n / 16 =? 0 then acc' else to_hex fuel' (n / 16) acc'
  end.

(** [format(n, "X")] *)
Definition format_X (n : Z) : string :=
  if n <? 0
  then String (Ascii.ascii_of_nat 45) (to_hex (S (Z.to_nat (- n))) (- n) EmptyString)
  else to_hex (S (Z.to_nat n)) n EmptyString.

(** [s[-1]] of a non-empty string. *)
Fixpoint last_char (s : string) : option Ascii.ascii :=
  match s with
  | EmptyString => None
  | String c EmptyString => Some c
  | String _ rest => last_char rest
  end.

(** [str.lower] on one ASCII character. *)
Definition lower (c : Ascii.ascii) : Ascii.ascii :=
  let n := Ascii.N_of_ascii c in
  if ((65 <=? n) && (n <=? 90))%N then Ascii.ascii_of_N (n + 32) else c.

(** The marker of a track in [draw_tracks]:
    [format(track.track_id, "X")[-1]], lower-cased for a new track. *)
Definition marker (track : Driver.RadarTrack) : option Ascii.ascii :=
  match last_char (format_X (Driver.track_id track)) with
  | Some m => Some (if Driver.new_track track then lower m else m)
  | None => None
  end.

(** [l[:stop]] *)
Definition slice_to {A} (l : list A) (stop : Z) : list A :=
  if 0 <=? stop
  then take (Z.to_nat stop) l
  else take (Z.to_nat (Z.of_nat (length l) + stop)) l.

(** [sorted(l, key=key)]: the stable sort, here by insertion: an element
    goes in front of the first one whose key is not smaller, so equal keys
    keep their order. *)
Fixpoint insert_by {A} (key : A -> Q) (x : A) (l : list A) : list A :=
  match l with
  | [] => [x]
  | y :: rest =>
      if Qle_bool (key x) (key y) then x :: l else y :: insert_by key x rest
  end.

Definition sorted {A} (key : A -> Q) (l : list A) : list A :=
  foldr (insert_by key) [] l.

(** [draw_info_panel]: the screen rows written, top down: the header in
    row 2 ([None]), then one row per track from row 3 on.  [tracks] is
    [tracks.values()], in the order of the dict. *)
Definition draw_info_panel (tracks : list Driver.RadarTrack) (panel_width max_rows : Z)
    : list (Z * option Driver.RadarTrack) :=
  if panel_width <=? 0 then []
  else
    let ordered := sorted Driver.long_dist tracks in
    (2, None)
    :: imap (fun idx track => (3 + Z.of_nat idx, Some track))
         (slice_to ordered (max_rows - 3)).

End Curses.

(** ** radar_callbacks.py: [TrackLogger]

    Times are rationals: [time.time()] readings, with the subtraction
    [now - last] taken as exact. *)

Module Callbacks.

Record TrackLogger := mkTrackLogger {
  _last_print : gmap Z Q;
  _min_interval : Q
}.

(** [TrackLogger.__init__] *)
Definition init (min_interval : Q) : TrackLogger :=
  mkTrackLogger ∅ (Curses.py_max min_interval 0).

(** [TrackLogger.__call__] at the clock reading [now]: the logger
    afterwards, and whether the track was printed. *)
Definition call (self : TrackLogger) (now : Q) (track : Driver.RadarTrack)
    : TrackLogger * bool :=
  let last := default 0%Q (_last_print self !! Driver.track_id track) in
  if Qle_bool (_min_interval self) (now - last)
  then (mkTrackLogger (<[Driver.track_id track := now]> (_last_print self))
          (_min_interval self), true)
  else (self, false).

(** The callbacks of a run, oldest first; the updates printed, with their
    clock readings, in order. *)
Fixpoint run (self : TrackLogger) (updates : list (Q * Driver.RadarTrack))
    : TrackLogger * list (Q * Driver.RadarTrack) :=
  match updates with
  | [] => (self, [])
  | (now, track) :: rest =>
      let '(self1, printed) := call self now track in
      let '(self2, later) := run self1 rest in
      (self2, if printed then (now, track) :: later else later)
  end.

End Callbacks.

(** Three tracks, at 30 m, 5 m and 12 m. *)
Definition sample_tracks : list Driver.RadarTrack :=
  [Driver.mkRadarTrack 0x210 30 0 0 false 0;
   Driver.mkRadarTrack 0x21A 5 (1 # 2) 0 true 0;
   Driver.mkRadarTrack 0x21F 12 (-1) 0 false 0].


(** ** radar_experimental.py: the listener, the status analysis and the
    final block *)

Module Experimental.

Record MessageLogger := mkLogger {
  can0_tx : Z;
  can1_tx : Z;
  can1_rx : Z;
  status_4ff_count : Z;
  status_4ff_data : option string;
  other_messages : gset Z
}.

(** [MessageLogger.__init__] *)
Definition logger0 : MessageLogger :=
  mkLogger 0 0 0 0 None ∅.

(** The lower-case hexadecimal digit of [d]: the characters 0..9 (codes
    48..57) and a..f (codes 97..102). *)
Definition hex_digit (d : Z) : Ascii.ascii :=
  if d <? 10
  then Ascii.ascii_of_N (Z.to_N (48 + d))
  else Ascii.ascii_of_N (Z.to_N (87 + d)).

Definition hex_byte (b : byte) : string :=
  let n := Z.of_N (Byte.to_N b) in
  String (hex_digit (n / 16)) (String (hex_digit (n mod 16)) EmptyString).

(** [bytes.hex()]: two lower-case digits per byte. *)
Fixpoint hex (data : list byte) : string :=
  match data with
  | [] => EmptyString
  | b :: rest => hex_byte b +:+ hex rest
  end.

(** The value of a hexadecimal digit, of either case. *)
Definition hex_value (c : Ascii.ascii) : option Z :=
  let n := Z.of_N (Ascii.N_of_ascii c) in
  if (48 <=? n) && (n <=? 57) then Some (n - 48)
  else if (97 <=? n) && (n <=? 102) then Some (n - 87)
  else if (65 <=? n) && (n <=? 70) then Some (n - 55)
  else None.

(** ASCII whitespace: codes 9..13 and 32. *)
Definition is_space (c : Ascii.ascii) : bool :=
  let n := Z.of_N (Ascii.N_of_ascii c) in
  ((9 <=? n) && (n <=? 13)) || (n =? 32).

(** [bytes.fromhex(s)]: whitespace between bytes is skipped, every byte is
    two hexadecimal digits; [None] stands for [ValueError]. *)
Fixpoint fromhex (s : string) : option (list byte) :=
  match s with
  | EmptyString => Some []
  | String c rest =>
      if is_space c then fromhex rest
      else
        match rest with
        | EmptyString => None
        | String c2 rest2 =>
            match hex_value c, hex_value c2 with
            | Some top, Some bot =>
                match Byte.of_N (Z.to_N (16 * top + bot)), fromhex rest2 with
                | Some b, Some bytes => Some (b :: bytes)
                | _, _ => None
                end
            | _, _ => None
            end
        end
  end.

(** [OnCanRadar.on_message_received]: the new logger and what is printed. *)
Definition on_message_received (msg : Message) (logger : MessageLogger)
    : MessageLogger * list Output :=
  let logger := mkLogger (can0_tx logger) (can1_tx logger) (can1_rx logger + 1)
                  (status_4ff_count logger) (status_4ff_data logger)
                  (other_messages logger) in
  if arbitration_id msg =? 0x4FF then
    let logger := mkLogger (can0_tx logger) (can1_tx logger) (can1_rx logger)
                    (status_4ff_count logger + 1) (status_4ff_data logger)
                    (other_messages logger) in
    let new_data := hex (data msg) in
    if bool_decide (status_4ff_data logger = Some new_data) then (logger, [])
    else (mkLogger (can0_tx logger) (can1_tx logger) (can1_rx logger)
            (status_4ff_count logger) (Some new_data) (other_messages logger),
          [OutStatusNew (data msg)])
  else if Y2019.in_track_window (arbitration_id msg) then
    (logger, [OutTrack (arbitration_id msg) (data msg)])
  else if bool_decide (arbitration_id msg ∈ other_messages logger) then (logger, [])
  else (mkLogger (can0_tx logger) (can1_tx logger) (can1_rx logger)
          (status_4ff_count logger) (status_4ff_data logger)
          ({[arbitration_id msg]} ∪ other_messages logger),
        [OutOther (arbitration_id msg) (data msg)]).

(** The notifier calls the listener once per frame, in arrival order. *)
Fixpoint receive_all (frames : list Message) (logger : MessageLogger)
    : MessageLogger * list Output :=
  match frames with
  | [] => (logger, [])
  | msg :: rest =>
      let '(logger1, out1) := on_message_received msg logger in
      let '(logger2, out2) := receive_all rest logger1 in
      (logger2, out1 ++ out2)
  end.

Inductive Byte0State := Standby | Off | HighBitSet | UnknownState.

Inductive Byte3State := WaitingForActivation | Inactive | UnknownByte3.

(** The branch taken on [byte0 = data[0]]. *)
Definition byte0_state (b : byte) : Byte0State :=
  let byte0 := Z.of_N (Byte.to_N b) in
  if byte0 =? 0x3F then Standby
  else if byte0 =? 0x00 then Off
  else if negb (Z.land byte0 0x80 =? 0) then HighBitSet
  else UnknownState.

(** The branch taken on [data[3]]. *)
Definition byte3_state (b : byte) : Byte3State :=
  let byte3 := Z.of_N (Byte.to_N b) in
  if byte3 =? 0x02 then WaitingForActivation
  else if byte3 =? 0x00 then Inactive
  else UnknownByte3.

(** How a call of [decode_4ff_status] ends. *)
Inductive Decoded :=
| DecodeValueError
| DecodeIndexError0
| DecodeIndexError3 (b0 : Byte0State)
| DecodeDone (b0 : Byte0State) (b3 : Byte3State).

(** [decode_4ff_status(data_hex)]: [bytes.fromhex] may raise [ValueError];
    [data[0]] raises [IndexError] after the header line, [data[3]] after the
    line for byte 0. *)
Definition decode_4ff_status (data_hex : string) : Decoded :=
  match fromhex data_hex with
  | None => DecodeValueError
  | Some data =>
      match data !! 0%nat with
      | None => DecodeIndexError0
      | Some b0 =>
          match data !! 3%nat with
          | None => DecodeIndexError3 (byte0_state b0)
          | Some b3 => DecodeDone (byte0_state b0) (byte3_state b3)
          end
      end
  end.

(** The condition under [CONCLUSION:]:
    [logger.can1_rx > 0 and not any(0x210 <= x <= 0x21F for x in logger.other_messages)] *)
Definition concludes_not_tracking (logger : MessageLogger) : bool :=
  (0 <? can1_rx logger)
  && negb (existsb Y2019.in_track_window (elements (other_messages logger))).

(** How the [finally] block of the main block ends: an exception of
    [decode_4ff_status] leaves it before the conclusion and the cleanup;
    otherwise the analysis (if the stored status string is non-empty), the
    ids listed by [sorted(logger.other_messages)] and whether the
    not-tracking conclusion is printed. *)
Inductive FinalBlock :=
| FinalRaised (d : Decoded)
| FinalCompleted (analysis : option (Byte0State * Byte3State)) (ids : list Z)
    (not_tracking : bool).

Definition final_block (logger : MessageLogger) : FinalBlock :=
  let completed analysis :=
    FinalCompleted analysis (merge_sort Z.le (elements (other_messages logger)))
      (concludes_not_tracking logger) in
  match status_4ff_data logger with
  | None => completed None
  | Some data_hex =>
      if str_is_empty data_hex then completed None
      else
        match decode_4ff_status data_hex with
        | DecodeDone b0 b3 => completed (Some (b0, b3))
        | d => FinalRaised d
        end
  end.

End Experimental.

(** ** smartdsu_emulation.py: the listener and the final verdict *)

Module SmartDsu.

(** The dict [radar_msgs], which has the two keys ['4FF'] and ['tracks']
    throughout. *)
Record RadarMsgs := mkRadarMsgs {
  count_4FF : Z;
  count_tracks : Z
}.

Definition radar_msgs0 : RadarMsgs := mkRadarMsgs 0 0.

(** [RadarListener.on_message_received] *)
Definition on_message_received (msg : Message) (radar_msgs : RadarMsgs)
    : RadarMsgs * list Output :=
  if arbitration_id msg =? 0x4FF then
    (mkRadarMsgs (count_4FF radar_msgs + 1) (count_tracks radar_msgs), [])
  else if Y2019.in_track_window (arbitration_id msg) then
    (mkRadarMsgs (count_4FF radar_msgs) (count_tracks radar_msgs + 1),
     [OutTrack (arbitration_id msg) (data msg)])
  else (radar_msgs, []).

Fixpoint receive_all (frames : list Message) (radar_msgs : RadarMsgs)
    : RadarMsgs * list Output :=
  match frames with
  | [] => (radar_msgs, [])
  | msg :: rest =>
      let '(radar_msgs1, out1) := on_message_received msg radar_msgs in
      let '(radar_msgs2, out2) := receive_all rest radar_msgs1 in
      (radar_msgs2, out1 ++ out2)
  end.

(** The final verdict: [radar_msgs['tracks'] > 0] prints SUCCESS, else
    FAILED. *)
Definition reports_success (radar_msgs : RadarMsgs) : bool :=
  0 <? count_tracks radar_msgs.

End SmartDsu.

(** The ids announced as new by the experimental listener, in order. *)
Fixpoint new_ids (out : list Output) : list Z :=
  match out with
  | [] => []
  | OutOther id _ :: rest => id :: new_ids rest
  | _ :: rest => new_ids rest
  end.

(** The 0x4FF frames and the track frames of a reception. *)
Definition status_frames (frames : list Message) : list Message :=
  filter (fun msg => arbitration_id msg = 0x4FF) frames.

Definition track_frames (frames : list Message) : list Message :=
  filter (fun msg => Y2019.in_track_window (arbitration_id msg) = true) frames.


(** A status frame cut short to three bytes, between two track frames. *)
Definition sample_short_status_frames : list Message :=
  [mkMessage 0x210 [x00; x01; x02; x03; x04; x05; x06; x07];
   mkMessage 0x4FF [x3f; x00; x00];
   mkMessage 0x21F [x00; x00; x00; x00; x00; x00; x00; x00]].


(** * Reception *)

Section Reception.

Local Open Scope Z_scope.

Lemma y2019_can1_rx_step (db : option Database) (msg : Message)
    (logger : Y2019.MessageLogger) :
  Y2019.can1_rx (fst (Y2019.on_message_received db msg logger))
  = Y2019.can1_rx logger + 1.
Proof.
  unfold Y2019.on_message_received.
  repeat case_match; reflexivity.
Qed.

Lemma y2019_can1_rx_run (db : option Database) (frames : list Message) :
  forall logger,
    Y2019.can1_rx (fst (Y2019.receive_all db frames logger))
    = Y2019.can1_rx logger + Z.of_nat (length frames).
Proof.
  induction frames as [|msg rest IH]; intros logger; simpl.
  - lia.
  - pose proof (y2019_can1_rx_step db msg logger) as Hstep.
    destruct (Y2019.on_message_received db msg logger) as [logger1 out1].
    specialize (IH logger1).
    destruct (Y2019.receive_all db rest logger1) as [logger2 out2].
    simpl in *. lia.
Qed.

Lemma debug_msg_count_step (self : Debug.OnCan) (msg : Message) :
  Debug.msg_count (fst (Debug.on_message_received self msg))
  = Debug.msg_count self + 1.
Proof.
  unfold Debug.on_message_received.
  repeat case_match; reflexivity.
Qed.

Lemma debug_msg_count_run (frames : list Message) :
  forall self,
    Debug.msg_count (fst (Debug.receive_all self frames))
    = Debug.msg_count self + Z.of_nat (length frames).
Proof.
  induction frames as [|msg rest IH]; intros self; simpl.
  - lia.
  - pose proof (debug_msg_count_step self msg) as Hstep.
    destruct (Debug.on_message_received self msg) as [self1 out1].
    specialize (IH self1).
    destruct (Debug.receive_all self1 rest) as [self2 out2].
    simpl in *. lia.
Qed.

(** C3.  The received-message counter ([logger.can1_rx] in
    toyota_radar_2019.py, [self.msg_count] in toyota_radar_debug.py) goes up
    by exactly one for every frame handed to the listener, whatever the
    frame is: status frame, valid or invalid track, undecodable payload, id
    outside the window, with or without a loaded DBC.  After any run of
    frames it equals its initial value plus the number of frames, and it
    never decreases when more frames arrive. *)
Theorem message_count_counts_every_frame :
  (forall db msg logger,
      Y2019.can1_rx (fst (Y2019.on_message_received db msg logger))
      = Y2019.can1_rx logger + 1) /\
  (forall db frames logger,
      Y2019.can1_rx (fst (Y2019.receive_all db frames logger))
      = Y2019.can1_rx logger + Z.of_nat (length frames)) /\
  (forall db frames more logger,
      Y2019.can1_rx (fst (Y2019.receive_all db frames logger))
      <= Y2019.can1_rx (fst (Y2019.receive_all db (frames ++ more) logger))) /\
  (forall self msg,
      Debug.msg_count (fst (Debug.on_message_received self msg))
      = Debug.msg_count self + 1) /\
  (forall self frames,
      Debug.msg_count (fst (Debug.receive_all self frames))
      = Debug.msg_count self + Z.of_nat (length frames)) /\
  (forall self frames more,
      Debug.msg_count (fst (Debug.receive_all self frames))
      <= Debug.msg_count (fst (Debug.receive_all self (frames ++ more)))).
Proof.
  repeat split.
  - apply y2019_can1_rx_step.
  - intros. apply y2019_can1_rx_run.
  - intros db frames more logger.
    rewrite !y2019_can1_rx_run, length_app. lia.
  - apply debug_msg_count_step.
  - intros. apply debug_msg_count_run.
  - intros self frames more.
    rewrite !debug_msg_count_run, length_app. lia.
Qed.

(** C9.  The listeners do not share one window.  toyota_radar_2019.py and
    toyota_radar_debug.py test [0x210 <= id <= 0x21F]; toyota_radar_rpi.py
    tests [0x210 <= id < 0x21F].  The two tests agree on every id except
    0x21F, which the rpi listener rejects and the others accept. *)
Theorem track_window_rpi_differs_at_0x21F :
  (forall id, Debug.in_track_window id = Y2019.in_track_window id) /\
  (forall id, Rpi.in_track_window id = Y2019.in_track_window id <-> id <> 0x21F) /\
  Rpi.in_track_window 0x21F = false /\
  Y2019.in_track_window 0x21F = true /\
  Debug.in_track_window 0x21F = true.
Proof.
  repeat split; try reflexivity.
  - intros Heq ->. discriminate Heq.
  - intros Hne. unfold Rpi.in_track_window, Y2019.in_track_window.
    destruct (0x210 <=? id) eqn:Hlo; simpl; [|reflexivity].
    destruct (id <? 0x21F) eqn:Hlt, (id <=? 0x21F) eqn:Hle; try reflexivity; lia.
Qed.

(** C1.  A frame is a valid track when its id lies in the track window
    0x210..0x21F, a DBC is loaded, the payload decodes and the decoded VALID
    signal equals 1.  toyota_radar_2019.py does what the claim says: a valid
    track adds exactly one to [logger.valid_tracks] and prints exactly one
    track distance (the decoded LONG_DIST, or N/A when the signal is
    missing); every other frame leaves [valid_tracks] unchanged and prints no
    track distance.  toyota_radar_rpi.py, which keeps no counter, reports
    nothing for every frame that is not a valid track, but it does not
    report every valid track: it prints the decoded LONG_DIST once for a
    valid track with an id in 0x210..0x21E that carries the signal, and
    nothing for a valid track in the slot 0x21F, which its window test
    [id < 0x21F] leaves out, nor for one without LONG_DIST, where
    [msg["LONG_DIST"]] raises inside the [try]. *)
Theorem valid_track_report_rpi_misses_0x21F
    (db : option Database) (msg : Message) (logger : Y2019.MessageLogger) :
  let id := arbitration_id msg in
  let r := Y2019.on_message_received db msg logger in
  (forall decode decoded,
      Y2019.in_track_window id = true ->
      db = Some decode ->
      decode id (data msg) = Some decoded ->
      get_VALID_is_1 decoded = true ->
      Y2019.valid_tracks (fst r) = Y2019.valid_tracks logger + 1 /\
      valid_reports (snd r) = [dict_get decoded "LONG_DIST" (PyStr "N/A")]) /\
  (Y2019.in_track_window id = false \/
   db = None \/
   (exists decode, db = Some decode /\
      (decode id (data msg) = None \/
       exists decoded, decode id (data msg) = Some decoded /\
                       get_VALID_is_1 decoded = false)) ->
   Y2019.valid_tracks (fst r) = Y2019.valid_tracks logger /\
   valid_reports (snd r) = []) /\
  (forall decode decoded,
      Y2019.in_track_window id = true ->
      db = Some decode ->
      decode id (data msg) = Some decoded ->
      get_VALID_is_1 decoded = true ->
      valid_reports (Rpi.on_message_received db msg)
      = if id =? 0x21F then []
        else match decoded !! "LONG_DIST"%string with
             | Some dist => [dist]
             | None => []
             end) /\
  (Y2019.in_track_window id = false \/
   db = None \/
   (exists decode, db = Some decode /\
      (decode id (data msg) = None \/
       exists decoded, decode id (data msg) = Some decoded /\
                       get_VALID_is_1 decoded = false)) ->
   valid_reports (Rpi.on_message_received db msg) = []).
Proof.
  intros id r. subst id r.
  split; [|split; [|split]].
  - intros decode decoded Hwin -> Hdec Hvalid.
    unfold Y2019.on_message_received.
    assert ((arbitration_id msg =? 0x4FF) = false) as ->.
    { unfold Y2019.in_track_window in Hwin. lia. }
    rewrite Hwin, Hdec, Hvalid. simpl. split; reflexivity.
  - intros Hcase. unfold Y2019.on_message_received.
    destruct (arbitration_id msg =? 0x4FF) eqn:H4ff.
    { destruct (Y2019.same_payload _ _); simpl; split; reflexivity. }
    destruct Hcase as [Hwin | [-> | (decode & -> & [Hdec | (decoded & Hdec & Hvalid)])]].
    + rewrite Hwin. split; reflexivity.
    + destruct (Y2019.in_track_window _); split; reflexivity.
    + rewrite Hdec. destruct (Y2019.in_track_window _); split; reflexivity.
    + rewrite Hdec, Hvalid. destruct (Y2019.in_track_window _); split; reflexivity.
  - intros decode decoded Hwin -> Hdec Hvalid.
    unfold Rpi.on_message_received.
    destruct (arbitration_id msg =? 0x21F) eqn:Hlast.
    + assert (Rpi.in_track_window (arbitration_id msg) = false) as ->
        by (unfold Rpi.in_track_window; lia).
      reflexivity.
    + assert (Rpi.in_track_window (arbitration_id msg) = true) as ->
        by (unfold Rpi.in_track_window, Y2019.in_track_window in *; lia).
      rewrite Hdec. unfold get_VALID_is_1 in Hvalid.
      destruct (decoded !! "VALID"%string) as [v|]; [|discriminate].
      rewrite Hvalid. destruct (decoded !! "LONG_DIST"%string); reflexivity.
  - intros Hcase. unfold Rpi.on_message_received.
    destruct Hcase as [Hwin | [-> | (decode & -> & [Hdec | (decoded & Hdec & Hvalid)])]].
    + assert (Rpi.in_track_window (arbitration_id msg) = false) as ->
        by (unfold Rpi.in_track_window, Y2019.in_track_window in *; lia).
      reflexivity.
    + destruct (Rpi.in_track_window _); reflexivity.
    + rewrite Hdec. destruct (Rpi.in_track_window _); reflexivity.
    + rewrite Hdec. unfold get_VALID_is_1 in Hvalid.
      destruct (Rpi.in_track_window _); [|reflexivity].
      destruct (decoded !! "VALID"%string) as [v|]; [|reflexivity].
      rewrite Hvalid. reflexivity.
Qed.

(** The same valid track in the first slot and in the last: both listeners
    report it in slot 0x210; in slot 0x21F toyota_radar_2019.py counts and
    reports it and toyota_radar_rpi.py reports nothing. *)
Lemma valid_track_report_rpi_misses_0x21F_witness :
  let payload := [x00; x00; x00; x00; x00; x00; x00; x00] in
  let first := mkMessage 0x210 payload in
  let last := mkMessage 0x21F payload in
  (valid_reports
     (snd (Y2019.on_message_received (Some decode_valid_track) first Y2019.logger0))
   = [PyFloat (25 # 2)] /\
   valid_reports (Rpi.on_message_received (Some decode_valid_track) first)
   = [PyFloat (25 # 2)]) /\
  (Y2019.valid_tracks
     (fst (Y2019.on_message_received (Some decode_valid_track) last Y2019.logger0)) = 1 /\
   valid_reports
     (snd (Y2019.on_message_received (Some decode_valid_track) last Y2019.logger0))
   = [PyFloat (25 # 2)] /\
   valid_reports (Rpi.on_message_received (Some decode_valid_track) last) = []).
Proof.
  intros payload first last.
  pose proof (valid_track_report_rpi_misses_0x21F
                (Some decode_valid_track) first Y2019.logger0) as (Hf19 & _ & Hfrpi & _).
  pose proof (valid_track_report_rpi_misses_0x21F
                (Some decode_valid_track) last Y2019.logger0) as (Hl19 & _ & Hlrpi & _).
  split; [split|split; [|split]].
  - apply (Hf19 decode_valid_track _ eq_refl eq_refl eq_refl eq_refl).
  - apply (Hfrpi decode_valid_track _ eq_refl eq_refl eq_refl eq_refl).
  - apply (Hl19 decode_valid_track _ eq_refl eq_refl eq_refl eq_refl).
  - apply (Hl19 decode_valid_track _ eq_refl eq_refl eq_refl eq_refl).
  - apply (Hlrpi decode_valid_track _ eq_refl eq_refl eq_refl eq_refl).
Defined.

End Reception.

(** * Reasoning about computations *)

Lemma sat_bind2 {V A B} (G1 G2 G : V -> list Event -> option exn -> V -> Prop)
    (c : M V A) (k : A -> M V B) :
  (forall v tr e v', G1 v tr (Some e) v' -> G v tr (Some e) v') ->
  (forall v tr1 v1 tr2 st v',
      G1 v tr1 None v1 -> G2 v1 tr2 st v' -> G v (tr1 ++ tr2) st v') ->
  sat G1 c -> (forall a, sat G2 (k a)) -> sat G (bind c k).
Proof.
  intros Hraise Happ Hc Hk s. unfold bind.
  destruct (Hc s) as (tr1 & Htr1 & HG1).
  destruct (c s) as [[a|e] s1]; simpl in *.
  - destruct (Hk a s1) as (tr2 & Htr2 & HG2).
    exists (tr1 ++ tr2). split.
    + rewrite Htr2, Htr1. apply eq_sym, app_assoc.
    + eapply Happ; eassumption.
  - exists tr1. split; [assumption|]. apply Hraise. assumption.
Qed.

Lemma sat_weaken {V A} (G G' : V -> list Event -> option exn -> V -> Prop)
    (c : M V A) :
  (forall v tr st v', G v tr st v' -> G' v tr st v') -> sat G c -> sat G' c.
Proof.
  intros Himp Hc s. destruct (Hc s) as (tr & Htr & HG).
  exists tr. split; [assumption|]. apply Himp. assumption.
Qed.

Section Sat.

Context {V : Type}.
Variable G : V -> list Event -> option exn -> V -> Prop.
Hypothesis G_nil : forall v st, G v [] st v.
Hypothesis G_app : forall v tr1 v1 tr2 st v',
    G v tr1 None v1 -> G v1 tr2 st v' -> G v (tr1 ++ tr2) st v'.

Lemma sat_unchanged {A} (c : M V A) :
  (forall s, snd (c s) = s) -> sat G c.
Proof.
  intros Hc s. exists []. rewrite Hc, app_nil_r. split; [reflexivity|]. apply G_nil.
Qed.

Lemma sat_ret {A} (a : A) : sat G (ret a).
Proof. apply sat_unchanged. reflexivity. Qed.

Lemma sat_raise {A} (e : exn) : sat G (raise (A := A) e).
Proof. apply sat_unchanged. reflexivity. Qed.

Lemma sat_get : sat G get.
Proof. apply sat_unchanged. reflexivity. Qed.

Lemma sat_py_mod (a b : Z) : sat G (py_mod a b).
Proof. unfold py_mod. destruct (b =? 0)%Z; [apply sat_raise | apply sat_ret]. Qed.

Lemma sat_bytearray_append (tosend : list byte) (cnt : Z) :
  sat G (bytearray_append tosend cnt).
Proof.
  unfold bytearray_append.
  destruct ((0 <=? cnt)%Z && (cnt <? 256)%Z); [|apply sat_raise].
  destruct (Byte.of_N (Z.to_N cnt)); [apply sat_ret | apply sat_raise].
Qed.

Lemma sat_bind {A B} (c : M V A) (k : A -> M V B) :
  sat G c -> (forall a, sat G (k a)) -> sat G (bind c k).
Proof. apply sat_bind2; [tauto | apply G_app]. Qed.

Lemma sat_for_each {A} (l : list A) (body : A -> M V unit) :
  (forall x, sat G (body x)) -> sat G (for_each l body).
Proof.
  intros Hbody. induction l as [|x rest IH]; simpl.
  - apply sat_ret.
  - apply sat_bind; [apply Hbody | intros _; exact IH].
Qed.

Lemma sat_while_true (n : nat) (body : M V unit) :
  sat G body -> sat G (while_true n body).
Proof.
  intros Hbody. induction n as [|n IH]; simpl.
  - apply sat_ret.
  - apply sat_bind; [exact Hbody | intros _; exact IH].
Qed.

Lemma sat_put (v' : V) :
  (forall v, G v [] None v') -> sat G (put v').
Proof.
  intros HG s. exists []. simpl. rewrite app_nil_r. split; [reflexivity | apply HG].
Qed.

Lemma sat_emit (ev : Event) :
  (forall v, G v [ev] None v) -> sat G (emit ev).
Proof. intros HG s. exists [ev]. simpl. split; [reflexivity | apply HG]. Qed.

Lemma sat_send (env : CanEnv) (b : Bus) (m : Message) :
  (forall v, G v [EvSend b m] None v) ->
  (forall v e, G v [EvSendFailed b m e] (Some e) v) ->
  sat G (send env b m).
Proof.
  intros Hok Hfail s. unfold send.
  destruct (send_raises env (attempts (trace s)) b m) as [e|]; simpl.
  - exists [EvSendFailed b m e]. split; [reflexivity | apply Hfail].
  - exists [EvSend b m]. split; [reflexivity | apply Hok].
Qed.

Lemma sat_encode_message (m : DbcMessage) (signals : gmap string pyval) :
  (forall v, G v [EvEncode (name m) signals] None v) ->
  (forall v e, G v [EvEncodeFailed (name m) signals e] (Some e) v) ->
  sat G (encode_message m signals).
Proof.
  intros Hok Hfail s. unfold encode_message.
  destruct (encode m signals) as [payload|e]; simpl.
  - exists [EvEncode (name m) signals]. split; [reflexivity | apply Hok].
  - exists [EvEncodeFailed (name m) signals e]. split; [reflexivity | apply Hfail].
Qed.

End Sat.

Lemma sat_modify {V} (G : V -> list Event -> option exn -> V -> Prop) (f : V -> V) :
  (forall v, G v [] None (f v)) -> sat G (modify f).
Proof.
  intros HG s. exists []. simpl. rewrite app_nil_r. split; [reflexivity | apply HG].
Qed.

Lemma sat_send_then_modify {V} (G : V -> list Event -> option exn -> V -> Prop)
    (env : CanEnv) (b : Bus) (m : Message) (f : V -> V) :
  (forall v, G v [EvSend b m] None (f v)) ->
  (forall v e, G v [EvSendFailed b m e] (Some e) v) ->
  sat G (send env b m ;; modify f).
Proof.
  intros Hok Hfail s. unfold bind, send.
  destruct (send_raises env (attempts (trace s)) b m) as [e|]; simpl.
  - exists [EvSendFailed b m e]. split; [reflexivity | apply Hfail].
  - exists [EvSend b m]. split; [reflexivity | apply Hok].
Qed.

(** * The main loops: what every run keeps *)

Lemma stops_at_failure_app (tr1 tr2 : list Event) (st : option exn) :
  stops_at_failure tr1 None -> stops_at_failure tr2 st ->
  stops_at_failure (tr1 ++ tr2) st.
Proof.
  induction tr1 as [|ev rest IH]; simpl; intros H1 H2.
  - exact H2.
  - destruct (failure_of ev).
    + destruct H1 as [_ Habs]. discriminate Habs.
    + apply IH; assumption.
Qed.

Lemma sent_on_app (b : Bus) (tr1 tr2 : list Event) :
  sent_on b (tr1 ++ tr2) = (sent_on b tr1 + sent_on b tr2)%Z.
Proof.
  induction tr1 as [|ev rest IH]; simpl; [reflexivity|].
  destruct ev; rewrite ?IH; lia.
Qed.

Lemma sent_app (tr1 tr2 : list Event) :
  sent (tr1 ++ tr2) = (sent tr1 + sent tr2)%Z.
Proof. unfold sent. rewrite !sent_on_app. lia. Qed.

Lemma count_sent_app (b : Bus) (m : Message) (tr1 tr2 : list Event) :
  count_sent b m (tr1 ++ tr2) = (count_sent b m tr1 + count_sent b m tr2)%Z.
Proof.
  induction tr1 as [|ev rest IH]; simpl; [reflexivity|].
  destruct ev; rewrite ?IH; lia.
Qed.

Lemma rpi_keeps_nil (v : Z) (st : option exn) : rpi_keeps v [] st v.
Proof. split; [exact I | constructor]. Qed.

Lemma rpi_keeps_app (v : Z) tr1 (v1 : Z) tr2 st (v' : Z) :
  rpi_keeps v tr1 None v1 -> rpi_keeps v1 tr2 st v' -> rpi_keeps v (tr1 ++ tr2) st v'.
Proof.
  intros [Hs1 Hb1] [Hs2 Hb2]. split.
  - apply stops_at_failure_app; assumption.
  - apply Forall_app; split; assumption.
Qed.

Lemma y2019_keeps_nil (v : Y2019.Vars) (st : option exn) : y2019_keeps v [] st v.
Proof. split; [exact I | split; [constructor | simpl; lia]]. Qed.

Lemma y2019_keeps_app (v : Y2019.Vars) tr1 (v1 : Y2019.Vars) tr2 st (v' : Y2019.Vars) :
  y2019_keeps v tr1 None v1 -> y2019_keeps v1 tr2 st v' ->
  y2019_keeps v (tr1 ++ tr2) st v'.
Proof.
  intros (Hs1 & Hb1 & Hc1) (Hs2 & Hb2 & Hc2). split; [|split].
  - apply stops_at_failure_app; assumption.
  - apply Forall_app; split; assumption.
  - rewrite sent_on_app. lia.
Qed.

Lemma debug_keeps_nil (v : Debug.Vars) (st : option exn) : debug_keeps v [] st v.
Proof. split; [exact I | split; [constructor | unfold sent; simpl; lia]]. Qed.

Lemma debug_keeps_app (v : Debug.Vars) tr1 (v1 : Debug.Vars) tr2 st (v' : Debug.Vars) :
  debug_keeps v tr1 None v1 -> debug_keeps v1 tr2 st v' ->
  debug_keeps v (tr1 ++ tr2) st v'.
Proof.
  intros (Hs1 & Hb1 & Hc1) (Hs2 & Hb2 & Hc2). split; [|split].
  - apply stops_at_failure_app; assumption.
  - apply Forall_app; split; assumption.
  - rewrite sent_app. lia.
Qed.

Lemma rpi_signals_benign : benign_signals Rpi.acc_control_signals.
Proof. repeat split. Qed.

Lemma y2019_signals_benign : benign_signals Y2019.acc_control_signals.
Proof. repeat split. Qed.

Lemma debug_signals_benign : benign_signals Debug.acc_control_signals.
Proof. repeat split. Qed.

(** One step of a proof that a script keeps its relation: split a [bind],
    or close a primitive. *)
Ltac keeps_step G Gnil Gapp :=
  first
    [ apply (sat_bind G Gapp); [|intros ?]
    | apply (sat_ret G Gnil)
    | apply (sat_get G Gnil)
    | apply (sat_raise G Gnil)
    | apply (sat_py_mod G Gnil)
    | apply (sat_bytearray_append G Gnil)
    | apply (sat_for_each G Gnil Gapp); intros ?
    | apply (sat_send G); [intros ?|intros ? ?]
    | apply (sat_encode_message G); [intros ?|intros ? ?]
    | apply (sat_put G); intros ?
    | apply (sat_modify G); intros ?
    | apply (sat_emit G); intros ?
    | match goal with |- sat _ (if ?c then _ else _) => destruct c end
    | match goal with |- sat _ (match ?c with _ => _ end) => destruct c end ].

Lemma rpi_tick_keeps (env : CanEnv) (acc_message : DbcMessage) :
  sat rpi_keeps (Rpi.tick env acc_message).
Proof.
  unfold Rpi.tick, Rpi.send_static, Rpi.tosend, sleep.
  repeat keeps_step (@rpi_keeps) rpi_keeps_nil rpi_keeps_app;
    try (split; simpl; repeat constructor; auto using rpi_signals_benign).
Qed.

Lemma y2019_send_incr_keeps (env : CanEnv) (m : Message) :
  sat y2019_keeps (send env Can0 m ;; Y2019.incr_can0_tx).
Proof.
  unfold Y2019.incr_can0_tx. apply sat_send_then_modify.
  - intros v. split; [exact I | split; [repeat constructor | simpl; lia]].
  - intros v e. split; [simpl; auto | split; [repeat constructor | simpl; lia]].
Qed.

Lemma y2019_send_static_keeps (env : CanEnv) (t : Z) (e : Y2019.StaticMsg2019) :
  sat y2019_keeps (Y2019.send_static env t e).
Proof.
  unfold Y2019.send_static.
  apply (sat_bind _ y2019_keeps_app); [apply (sat_py_mod _ y2019_keeps_nil)|].
  intros r. destruct (r =? 0)%Z; [|apply (sat_ret _ y2019_keeps_nil)].
  cbv zeta. destruct (Y2019.bus e =? 0)%Z.
  - apply y2019_send_incr_keeps.
  - apply (sat_bind _ y2019_keeps_app); [|intros _; apply (sat_ret _ y2019_keeps_nil)].
    apply sat_send.
    + intros v. split; [exact I | split; [repeat constructor | simpl; lia]].
    + intros v x. split; [simpl; auto | split; [repeat constructor | simpl; lia]].
Qed.

Lemma y2019_tick_keeps (env : CanEnv) (acc_message : option DbcMessage) :
  sat y2019_keeps (Y2019.tick env acc_message).
Proof.
  unfold Y2019.tick, sleep.
  apply (sat_bind _ y2019_keeps_app); [apply (sat_get _ y2019_keeps_nil)|]. intros v.
  apply (sat_bind _ y2019_keeps_app); [apply (sat_py_mod _ y2019_keeps_nil)|]. intros r.
  apply (sat_bind _ y2019_keeps_app).
  { destruct acc_message as [acc|]; [|apply (sat_ret _ y2019_keeps_nil)].
    destruct (r =? 0)%Z; [|apply (sat_ret _ y2019_keeps_nil)].
    apply (sat_bind _ y2019_keeps_app); [|intros payload; apply y2019_send_incr_keeps].
    apply sat_encode_message.
    - intros v0. split; [exact I | split; [|simpl; lia]].
      repeat constructor; apply y2019_signals_benign.
    - intros v0 x. split; [simpl; auto | split; [|simpl; lia]].
      repeat constructor; apply y2019_signals_benign. }
  intros _.
  apply (sat_bind _ y2019_keeps_app).
  { apply (sat_for_each _ y2019_keeps_nil y2019_keeps_app).
    intros e. apply y2019_send_static_keeps. }
  intros _.
  apply (sat_bind _ y2019_keeps_app).
  - apply sat_modify. intros v0.
    split; [exact I | split; [constructor | simpl; lia]].
  - intros _. apply sat_emit. intros v0.
    split; [exact I | split; [repeat constructor | simpl; lia]].
Qed.

Lemma debug_send_incr_keeps (env : CanEnv) (b : Bus) (m : Message) :
  sat debug_keeps (send env b m ;; Debug.incr_tx_count).
Proof.
  unfold Debug.incr_tx_count. apply sat_send_then_modify.
  - intros v. split; [exact I | split; [repeat constructor|]].
    unfold sent. destruct b; simpl; lia.
  - intros v e. split; [simpl; auto | split; [repeat constructor|]].
    unfold sent. simpl. lia.
Qed.

Lemma debug_tosend_keeps (t : Z) (e : StaticMsg) : sat debug_keeps (Debug.tosend t e).
Proof.
  unfold Debug.tosend.
  destruct (((addr e =? 1161)%Z || (addr e =? 1162)%Z) && (bus e =? 0)%Z).
  - apply (sat_bytearray_append _ debug_keeps_nil).
  - apply (sat_ret _ debug_keeps_nil).
Qed.

Lemma debug_send_static_keeps (env : CanEnv) (t : Z) (e : StaticMsg) :
  sat debug_keeps (Debug.send_static env t e).
Proof.
  unfold Debug.send_static.
  apply (sat_bind _ debug_keeps_app); [apply (sat_py_mod _ debug_keeps_nil)|].
  intros r. destruct (r =? 0)%Z; [|apply (sat_ret _ debug_keeps_nil)].
  apply (sat_bind _ debug_keeps_app); [apply debug_tosend_keeps|].
  intros payload. cbv zeta. apply debug_send_incr_keeps.
Qed.

Lemma debug_tick_keeps (env : CanEnv) (acc_message : DbcMessage) :
  sat debug_keeps (Debug.tick env acc_message).
Proof.
  unfold Debug.tick, sleep.
  apply (sat_bind _ debug_keeps_app); [apply (sat_get _ debug_keeps_nil)|]. intros v.
  apply (sat_bind _ debug_keeps_app); [apply (sat_py_mod _ debug_keeps_nil)|]. intros r.
  apply (sat_bind _ debug_keeps_app).
  { destruct (r =? 0)%Z; [|apply (sat_ret _ debug_keeps_nil)].
    apply (sat_bind _ debug_keeps_app); [|intros payload; apply debug_send_incr_keeps].
    apply sat_encode_message.
    - intros v0. split; [exact I | split; [|unfold sent; simpl; lia]].
      repeat constructor; apply debug_signals_benign.
    - intros v0 x. split; [simpl; auto | split; [|unfold sent; simpl; lia]].
      repeat constructor; apply debug_signals_benign. }
  intros _.
  apply (sat_bind _ debug_keeps_app).
  { apply (sat_for_each _ debug_keeps_nil debug_keeps_app).
    intros e. apply debug_send_static_keeps. }
  intros _.
  apply (sat_bind _ debug_keeps_app).
  - apply sat_modify. intros v0.
    split; [exact I | split; [constructor | unfold sent; simpl; lia]].
  - intros _. apply sat_emit. intros v0.
    split; [exact I | split; [repeat constructor | unfold sent; simpl; lia]].
Qed.

Lemma rpi_main_loop_keeps (env : CanEnv) (acc_message : DbcMessage) (n : nat) :
  sat rpi_keeps (Rpi.main_loop env acc_message n).
Proof.
  apply (sat_while_true _ rpi_keeps_nil rpi_keeps_app), rpi_tick_keeps.
Qed.

Lemma y2019_main_loop_keeps (env : CanEnv) (acc_message : option DbcMessage) (n : nat) :
  sat y2019_keeps (Y2019.main_loop env acc_message n).
Proof.
  apply (sat_while_true _ y2019_keeps_nil y2019_keeps_app), y2019_tick_keeps.
Qed.

Lemma debug_main_loop_keeps (env : CanEnv) (acc_message : DbcMessage) (n : nat) :
  sat debug_keeps (Debug.main_loop env acc_message n).
Proof.
  apply (sat_while_true _ debug_keeps_nil debug_keeps_app), debug_tick_keeps.
Qed.

Lemma rpi_cleanup_returns {Sys} (call : CleanupCall -> M Sys unit) (s : Loop Sys) :
  Rpi.cleanup call s
  = (Ok tt, snd (call (BusShutdown Can1)
                   (snd (call (BusShutdown Can0) (snd (call NotifierStop s)))))).
Proof. reflexivity. Qed.

Lemma y2019_cleanup_returns {Sys} (call : CleanupCall -> M Sys unit) (s : Loop Sys) :
  fst (Y2019.cleanup call s) = Ok tt.
Proof. reflexivity. Qed.

Lemma debug_cleanup_returns {Sys} (call : CleanupCall -> M Sys unit) (s : Loop Sys) :
  Debug.cleanup call s
  = (Ok tt, snd (call (BusShutdown Can1)
                   (snd (call (BusShutdown Can0) (snd (call NotifierStop s)))))).
Proof. reflexivity. Qed.

(** C4, as the scripts have it.  No send or encode failure is caught inside
    the loop body: in every run of the main loop of toyota_radar_rpi.py,
    toyota_radar_2019.py and toyota_radar_debug.py, from any state and with
    any transport, a failed call is the last event of the run and its
    exception leaves the loop, so neither the next static message of the tick
    nor any later tick is sent.  The transmit counters count successful sends
    only: [logger.can0_tx] grows by the number of successful sends on can0,
    [tx_count] of the debug script by the number of successful sends, and
    [send_message] adds one exactly when its send succeeds.  The exception
    that leaves the main block is met by the [try] around it: in
    toyota_radar_rpi.py and toyota_radar_debug.py either handler takes it,
    the cleanup runs and the script ends; in toyota_radar_2019.py the cleanup
    runs, and the script ends normally for [KeyboardInterrupt] only, every
    other exception going on to the interpreter. *)
Theorem send_failure_leaves_the_loop :
  (forall env acc n s,
      let r := Rpi.main_loop env acc n s in
      exists tr, trace (snd r) = trace s ++ tr /\
                 stops_at_failure tr (status (fst r))) /\
  (forall env acc n s,
      let r := Y2019.main_loop env acc n s in
      exists tr, trace (snd r) = trace s ++ tr /\
                 stops_at_failure tr (status (fst r)) /\
                 Y2019.can0_tx (Y2019.logger (vars (snd r)))
                 = (Y2019.can0_tx (Y2019.logger (vars s)) + sent_on Can0 tr)%Z) /\
  (forall env acc n s,
      let r := Debug.main_loop env acc n s in
      exists tr, trace (snd r) = trace s ++ tr /\
                 stops_at_failure tr (status (fst r)) /\
                 Debug.tx_count (vars (snd r))
                 = (Debug.tx_count (vars s) + sent tr)%Z) /\
  (forall env bus msg_id payload s,
      let r := Y2019.send_message env bus msg_id payload s in
      match fst r with
      | Ok _ =>
          trace (snd r) = trace s ++ [EvSend bus (mkMessage msg_id payload)] /\
          Y2019.can0_tx (Y2019.logger (vars (snd r)))
          = (Y2019.can0_tx (Y2019.logger (vars s)) + 1)%Z
      | Raise e =>
          trace (snd r) = trace s ++ [EvSendFailed bus (mkMessage msg_id payload) e] /\
          Y2019.can0_tx (Y2019.logger (vars (snd r)))
          = Y2019.can0_tx (Y2019.logger (vars s))
      end) /\
  (forall env db call n s e,
      fst (RpiScript.main_block env db n s) = Raise e ->
      RpiScript.script env db call n s
      = (Exited, snd (Rpi.cleanup call (snd (RpiScript.main_block env db n s))))) /\
  (forall env db call n s e,
      fst (DebugScript.main_block env db n s) = Raise e ->
      DebugScript.script env db call n s
      = (Exited, snd (Debug.cleanup call (snd (DebugScript.main_block env db n s))))) /\
  (forall env db call n s e,
      fst (Y2019Script.main_block env db n s) = Raise e ->
      Y2019Script.script env db call n s
      = (if is_KeyboardInterrupt e then Exited else Propagated e,
         snd (Y2019.cleanup call (snd (Y2019Script.main_block env db n s))))).
Proof.
  split; [|split; [|split; [|split; [|split; [|split]]]]].
  - intros env acc n s r.
    destruct (rpi_main_loop_keeps env acc n s) as (tr & Htr & Hstop & _).
    exists tr. split; assumption.
  - intros env acc n s r.
    destruct (y2019_main_loop_keeps env acc n s) as (tr & Htr & Hstop & _ & Hcount).
    exists tr. repeat split; assumption.
  - intros env acc n s r.
    destruct (debug_main_loop_keeps env acc n s) as (tr & Htr & Hstop & _ & Hcount).
    exists tr. repeat split; assumption.
  - intros env bus msg_id payload s r. subst r.
    unfold Y2019.send_message, Y2019.incr_can0_tx, bind, send, modify.
    destruct (send_raises env (attempts (trace s)) bus (mkMessage msg_id payload));
      simpl; split; reflexivity.
  - intros env db call n s e Hraise. unfold RpiScript.script.
    destruct (RpiScript.main_block env db n s) as [[[]|e'] s1]; [discriminate Hraise|].
    rewrite rpi_cleanup_returns. reflexivity.
  - intros env db call n s e Hraise. unfold DebugScript.script.
    destruct (DebugScript.main_block env db n s) as [[[]|e'] s1]; [discriminate Hraise|].
    rewrite debug_cleanup_returns. reflexivity.
  - intros env db call n s e Hraise. unfold Y2019Script.script.
    destruct (Y2019Script.main_block env db n s) as [[[]|e'] s1]; [discriminate Hraise|].
    cbn [fst snd] in *. injection Hraise as ->.
    pose proof (y2019_cleanup_returns call s1) as Hok.
    destruct (Y2019.cleanup call s1) as [[[]|e''] s2]; [reflexivity | discriminate Hok].
Qed.

(** A failed send on tick 0, seen from the scripts: toyota_radar_rpi.py and
    toyota_radar_debug.py end after the cleanup, toyota_radar_2019.py lets
    the error through. *)
Lemma send_failure_leaves_the_loop_witness :
  fst (RpiScript.script env_down sample_db sample_call_z 5 (mkLoop 0%Z [])) = Exited /\
  fst (DebugScript.script env_down sample_db sample_call_debug 5
         (mkLoop (Debug.mkVars 0 0) [])) = Exited /\
  fst (Y2019Script.script env_down sample_db sample_call_2019 5
         (mkLoop (Y2019.mkVars 0 Y2019.logger0) []))
  = Propagated CanError.
Proof.
  destruct send_failure_leaves_the_loop as (_ & _ & _ & _ & Hrpi & Hdebug & H2019).
  split; [|split].
  - rewrite (Hrpi env_down sample_db sample_call_z 5%nat (mkLoop 0%Z []) CanError);
      reflexivity.
  - rewrite (Hdebug env_down sample_db sample_call_debug 5%nat
               (mkLoop (Debug.mkVars 0 0) []) CanError); reflexivity.
  - rewrite (H2019 env_down sample_db sample_call_2019 5%nat
               (mkLoop (Y2019.mkVars 0 Y2019.logger0) []) CanError); reflexivity.
Defined.

(** C4 fails as the spec words it: when the send of the first static message
    (0x141) of tick 0 fails, the loop of toyota_radar_rpi.py is left with
    that error; the next static message (0x128) is never sent and [frame]
    stays 0, although three passes were due. *)
Lemma send_failure_not_caught_in_loop :
  let r := Rpi.main_loop env_second_send_fails sample_acc_message 3 (mkLoop 0 []) in
  fst r = Raise CanError /\
  vars (snd r) = 0%Z /\
  trace (snd r)
  = [EvEncode "ACC_CONTROL" Rpi.acc_control_signals;
     EvSend Can0 (mkMessage 0x343 sample_acc_payload);
     EvSendFailed Can1 (mkMessage 0x141 [x00; x00; x00; x46]) CanError] /\
  count_sent Can1 (mkMessage 0x128 [xf4; x01; x90; x83; x00; x37]) (trace (snd r)) = 0%Z.
Proof. vm_compute. repeat split; reflexivity. Qed.

Lemma encode_calls_app (a b : list Event) :
  encode_calls (a ++ b) = encode_calls a ++ encode_calls b.
Proof.
  induction a as [|ev a IH]; [reflexivity|].
  destruct ev; cbn [encode_calls app]; rewrite IH; reflexivity.
Qed.

Lemma encodes_nothing_nil {V} (v : V) (st : option exn) : encodes_nothing v [] st v.
Proof. reflexivity. Qed.

Lemma encodes_nothing_app {V} (v : V) tr1 (v1 : V) tr2 st (v' : V) :
  encodes_nothing v tr1 None v1 -> encodes_nothing v1 tr2 st v' ->
  encodes_nothing v (tr1 ++ tr2) st v'.
Proof.
  unfold encodes_nothing. intros H1 H2. rewrite encode_calls_app, H1, H2. reflexivity.
Qed.

(** Closes the goals of a script without encode calls. *)
Ltac encodes_nothing_auto V :=
  repeat keeps_step (@encodes_nothing V) (@encodes_nothing_nil V)
                    (@encodes_nothing_app V);
  reflexivity.

Lemma rpi_after_encode (env : CanEnv) (acc : DbcMessage) (t : Z) (payload : list byte) :
  sat encodes_nothing
    (send env Can0 (mkMessage (frame_id acc) payload) ;;
     for_each Rpi.STATIC_MSGS (Rpi.send_static env t) ;;
     modify (fun frame => frame + 1)%Z ;;
     sleep (1 # 100)).
Proof.
  unfold Rpi.send_static, Rpi.tosend, sleep. encodes_nothing_auto Z.
Qed.

Lemma debug_after_encode (env : CanEnv) (acc : DbcMessage) (t : Z) (payload : list byte) :
  sat encodes_nothing
    ((send env Can0 (mkMessage (frame_id acc) payload) ;;
      Debug.incr_tx_count) ;;
     for_each Debug.STATIC_MSGS (Debug.send_static env t) ;;
     modify (fun v => Debug.mkVars (Debug.frame v + 1) (Debug.tx_count v)) ;;
     sleep (1 # 100)).
Proof.
  unfold Debug.send_static, Debug.tosend, Debug.incr_tx_count, sleep.
  encodes_nothing_auto Debug.Vars.
Qed.

Lemma y2019_after_encode (env : CanEnv) (acc : DbcMessage) (t : Z) (payload : list byte) :
  sat encodes_nothing
    ((send env Can0 (mkMessage (frame_id acc) payload) ;;
      Y2019.incr_can0_tx) ;;
     for_each Y2019.STATIC_MSGS_2019 (Y2019.send_static env t) ;;
     modify (fun v => Y2019.mkVars (Y2019.frame v + 1) (Y2019.logger v)) ;;
     sleep (1 # 100)).
Proof.
  unfold Y2019.send_static, Y2019.incr_can0_tx, sleep.
  encodes_nothing_auto Y2019.Vars.
Qed.

Lemma y2019_tick_without_control (env : CanEnv) :
  sat encodes_nothing (Y2019.tick env None).
Proof.
  unfold Y2019.tick, Y2019.send_static, Y2019.incr_can0_tx, sleep.
  encodes_nothing_auto Y2019.Vars.
Qed.

Lemma rpi_tick_starts_with_encode (env : CanEnv) (acc : DbcMessage) :
  starts_with_encode (Rpi.tick env acc) (name acc) Rpi.acc_control_signals.
Proof.
  intros s. unfold Rpi.tick.
  unfold bind at 1. unfold get at 1. cbv iota beta.
  unfold bind at 1. unfold py_mod at 1. simpl (1 =? 0)%Z. cbv iota.
  unfold ret at 1. cbv iota beta.
  rewrite Z.mod_1_r. simpl (0 =? 0)%Z. cbv iota.
  unfold bind at 1. unfold bind at 1. unfold encode_message at 1.
  destruct (encode acc Rpi.acc_control_signals) as [payload|e].
  - destruct (rpi_after_encode env acc (vars s) payload
                (mkLoop (vars s)
                   (trace s ++ [EvEncode (name acc) Rpi.acc_control_signals])))
      as (tr & Htr & Hnone).
    exists (EvEncode (name acc) Rpi.acc_control_signals), tr.
    split; [|split; [left; reflexivity | exact Hnone]].
    simpl in Htr. rewrite <- app_assoc in Htr. simpl in Htr.
    etransitivity; [|exact Htr]. reflexivity.
  - exists (EvEncodeFailed (name acc) Rpi.acc_control_signals e), [].
    split; [reflexivity | split; [right; exists e; reflexivity | reflexivity]].
Qed.

Lemma debug_tick_starts_with_encode (env : CanEnv) (acc : DbcMessage) :
  starts_with_encode (Debug.tick env acc) (name acc) Debug.acc_control_signals.
Proof.
  intros s. unfold Debug.tick.
  unfold bind at 1. unfold get at 1. cbv iota beta.
  unfold bind at 1. unfold py_mod at 1. simpl (1 =? 0)%Z. cbv iota.
  unfold ret at 1. cbv iota beta.
  rewrite Z.mod_1_r. simpl (0 =? 0)%Z. cbv iota.
  unfold bind at 1. unfold bind at 1. unfold encode_message at 1.
  destruct (encode acc Debug.acc_control_signals) as [payload|e].
  - destruct (debug_after_encode env acc (Debug.frame (vars s)) payload
                (mkLoop (vars s)
                   (trace s ++ [EvEncode (name acc) Debug.acc_control_signals])))
      as (tr & Htr & Hnone).
    exists (EvEncode (name acc) Debug.acc_control_signals), tr.
    split; [|split; [left; reflexivity | exact Hnone]].
    simpl in Htr. rewrite <- app_assoc in Htr. simpl in Htr.
    etransitivity; [|exact Htr]. reflexivity.
  - exists (EvEncodeFailed (name acc) Debug.acc_control_signals e), [].
    split; [reflexivity | split; [right; exists e; reflexivity | reflexivity]].
Qed.

Lemma y2019_tick_starts_with_encode (env : CanEnv) (acc : DbcMessage) :
  starts_with_encode (Y2019.tick env (Some acc)) (name acc) Y2019.acc_control_signals.
Proof.
  intros s. unfold Y2019.tick.
  unfold bind at 1. unfold get at 1. cbv iota beta.
  unfold bind at 1. unfold py_mod at 1. simpl (1 =? 0)%Z. cbv iota.
  unfold ret at 1. cbv iota beta.
  rewrite Z.mod_1_r. simpl (0 =? 0)%Z. cbv iota.
  unfold bind at 1. unfold bind at 1. unfold encode_message at 1.
  destruct (encode acc Y2019.acc_control_signals) as [payload|e].
  - destruct (y2019_after_encode env acc (Y2019.frame (vars s)) payload
                (mkLoop (vars s)
                   (trace s ++ [EvEncode (name acc) Y2019.acc_control_signals])))
      as (tr & Htr & Hnone).
    exists (EvEncode (name acc) Y2019.acc_control_signals), tr.
    split; [|split; [left; reflexivity | exact Hnone]].
    simpl in Htr. rewrite <- app_assoc in Htr. simpl in Htr.
    etransitivity; [|exact Htr]. reflexivity.
  - exists (EvEncodeFailed (name acc) Y2019.acc_control_signals e), [].
    split; [reflexivity | split; [right; exists e; reflexivity | reflexivity]].
Qed.

Lemma while_true_one_encode_per_pass {V} (body : M V unit) (message : string)
    (signals : gmap string pyval) :
  starts_with_encode body message signals ->
  one_encode_per_pass (fun n => while_true n body) message signals.
Proof.
  intros Hbody n. induction n as [|n IH]; intros s.
  - exists [], O. cbn. rewrite app_nil_r. repeat split; try lia; congruence.
  - cbn [while_true]. unfold bind.
    destruct (Hbody s) as (ev & tr1 & Htr1 & Hev & Hnone).
    assert (encode_calls (ev :: tr1) = [(message, signals)]) as Hone.
    { destruct Hev as [-> | (e & ->)]; cbn [encode_calls]; rewrite Hnone; reflexivity. }
    destruct (body s) as [[[]|e] s1]; cbn [fst snd] in *.
    + destruct (IH s1) as (tr2 & k & Htr2 & Hcalls & Hle & Hok & _).
      exists ((ev :: tr1) ++ tr2), (S k).
      split; [rewrite Htr2, Htr1, <- app_assoc; reflexivity|].
      split; [rewrite encode_calls_app, Hone, Hcalls; reflexivity|].
      split; [lia|]. split; [|lia].
      intros Hst. rewrite (Hok Hst). reflexivity.
    + exists (ev :: tr1), 1%nat.
      split; [exact Htr1|]. split; [exact Hone|].
      split; [lia|]. split; [discriminate | lia].
Qed.

(** C6, as the scripts have it.  The signal dict of the control frame has
    ACCEL_CMD = 0.0, RELEASE_STANDSTILL = 1 and CANCEL_REQ = 0 in each of
    toyota_radar_rpi.py, toyota_radar_2019.py and toyota_radar_debug.py.
    Every pass of the loops of toyota_radar_rpi.py and toyota_radar_debug.py,
    and of toyota_radar_2019.py when [acc_message] is set, starts with an
    encode call of the control message with that dict and makes no other
    encode call: a run of n passes holds one such call per pass started (n
    when no exception left the loop, between 1 and n otherwise) and no other
    encode call.  When [acc_message] is [None], the loop of
    toyota_radar_2019.py makes no encode call at all.  So no encode call of
    any run carries another acceleration command or a cancel request. *)
Theorem control_frame_always_benign :
  benign_signals Rpi.acc_control_signals /\
  benign_signals Y2019.acc_control_signals /\
  benign_signals Debug.acc_control_signals /\
  (forall env acc,
      starts_with_encode (Rpi.tick env acc) (name acc) Rpi.acc_control_signals /\
      one_encode_per_pass (Rpi.main_loop env acc) (name acc) Rpi.acc_control_signals) /\
  (forall env acc,
      starts_with_encode (Debug.tick env acc) (name acc) Debug.acc_control_signals /\
      one_encode_per_pass (Debug.main_loop env acc) (name acc)
        Debug.acc_control_signals) /\
  (forall env acc,
      starts_with_encode (Y2019.tick env (Some acc)) (name acc)
        Y2019.acc_control_signals /\
      one_encode_per_pass (Y2019.main_loop env (Some acc)) (name acc)
        Y2019.acc_control_signals) /\
  (forall env n s,
      exists tr, trace (snd (Y2019.main_loop env None n s)) = trace s ++ tr /\
                 encode_calls tr = []) /\
  (forall env acc n s,
      exists tr, trace (snd (Rpi.main_loop env acc n s)) = trace s ++ tr /\
                 Forall benign tr) /\
  (forall env acc n s,
      exists tr, trace (snd (Y2019.main_loop env acc n s)) = trace s ++ tr /\
                 Forall benign tr) /\
  (forall env acc n s,
      exists tr, trace (snd (Debug.main_loop env acc n s)) = trace s ++ tr /\
                 Forall benign tr).
Proof.
  split; [apply rpi_signals_benign|].
  split; [apply y2019_signals_benign|].
  split; [apply debug_signals_benign|].
  split; [|split; [|split; [|split; [|split; [|split]]]]].
  - intros env acc. split; [apply rpi_tick_starts_with_encode|].
    apply while_true_one_encode_per_pass, rpi_tick_starts_with_encode.
  - intros env acc. split; [apply debug_tick_starts_with_encode|].
    apply while_true_one_encode_per_pass, debug_tick_starts_with_encode.
  - intros env acc. split; [apply y2019_tick_starts_with_encode|].
    apply while_true_one_encode_per_pass, y2019_tick_starts_with_encode.
  - intros env n s.
    destruct (sat_while_true _ encodes_nothing_nil encodes_nothing_app n
                (Y2019.tick env None) (y2019_tick_without_control env) s)
      as (tr & Htr & Hnone).
    exists tr. split; assumption.
  - intros env acc n s.
    destruct (rpi_main_loop_keeps env acc n s) as (tr & Htr & _ & Hb).
    exists tr. split; assumption.
  - intros env acc n s.
    destruct (y2019_main_loop_keeps env acc n s) as (tr & Htr & _ & Hb & _).
    exists tr. split; assumption.
  - intros env acc n s.
    destruct (debug_main_loop_keeps env acc n s) as (tr & Htr & _ & Hb & _).
    exists tr. split; assumption.
Qed.

(** C6 fails as the spec words it for toyota_radar_2019.py: with a control
    DBC that lacks PCM_CRUISE_SM the script sets [acc_message = None] and
    runs its loop all the same; three passes send twelve static frames and
    encode no control frame. *)
Lemma control_frame_absent_without_dbc_message :
  let r := Y2019Script.main_block env_ok sample_db_incomplete 3
             (mkLoop (Y2019.mkVars 0 Y2019.logger0) []) in
  Y2019Script.lookup_messages sample_db_incomplete = None /\
  fst r = Ok tt /\
  Y2019.frame (vars (snd r)) = 3%Z /\
  encode_calls (trace (snd r)) = [] /\
  sent (trace (snd r)) = 12%Z.
Proof. vm_compute. repeat split; reflexivity. Qed.

(** * The static tables *)

(** Splits a statement about every entry of a table into one goal per
    entry. *)
Ltac each_entry :=
  repeat (apply Forall_cons; split); [..|constructor].

(** C10.  No entry of [STATIC_MSGS] (toyota_radar_rpi.py and
    toyota_radar_debug.py) has the id 0x489 or 0x48a, so the branch that
    appends a rolling counter byte is never taken: for every entry and every
    frame number the payload built is the table's [vl], unchanged, and the
    one send attempted by the loop body on a tick where the entry fires
    carries the id [addr] and the payload [vl] on the entry's bus. *)
Theorem static_payload_sent_unchanged :
  Forall (fun e => addr e <> 0x489 /\ addr e <> 0x48a)%Z Rpi.STATIC_MSGS /\
  Forall (fun e => addr e <> 0x489 /\ addr e <> 0x48a)%Z Debug.STATIC_MSGS /\
  Forall (fun e => forall t s, Rpi.tosend t e s = (Ok (vl e), s)) Rpi.STATIC_MSGS /\
  Forall (fun e => forall t s, Debug.tosend t e s = (Ok (vl e), s)) Debug.STATIC_MSGS /\
  Forall (fun e => forall env t s,
            let r := Rpi.send_static env t e s in
            let target := if (bus e =? 0)%Z then Can0 else Can1 in
            let m := mkMessage (addr e) (vl e) in
            if (t mod fr_step e =? 0)%Z
            then trace (snd r) = trace s ++ [EvSend target m] \/
                 exists x, trace (snd r) = trace s ++ [EvSendFailed target m x]
            else trace (snd r) = trace s)
    Rpi.STATIC_MSGS /\
  Forall (fun e => forall env t s,
            let r := Debug.send_static env t e s in
            let target := if (bus e =? 0)%Z then Can0 else Can1 in
            let m := mkMessage (addr e) (vl e) in
            if (t mod fr_step e =? 0)%Z
            then trace (snd r) = trace s ++ [EvSend target m] \/
                 exists x, trace (snd r) = trace s ++ [EvSendFailed target m x]
            else trace (snd r) = trace s)
    Debug.STATIC_MSGS.
Proof.
  split; [|split; [|split; [|split; [|split]]]].
  - each_entry; split; discriminate.
  - each_entry; split; discriminate.
  - each_entry; intros t s; reflexivity.
  - each_entry; intros t s; reflexivity.
  - each_entry; intros env t s;
      unfold Rpi.send_static, Rpi.tosend, py_mod, bind, ret, send; simpl;
      match goal with |- context [(t mod ?p =? 0)%Z] => destruct (t mod p =? 0)%Z end;
      simpl; try reflexivity;
      match goal with |- context [send_raises ?a ?b ?c ?d] =>
        destruct (send_raises a b c d) end;
      simpl; eauto.
  - each_entry; intros env t s;
      unfold Debug.send_static, Debug.tosend, Debug.incr_tx_count, modify,
        py_mod, bind, ret, send; simpl;
      match goal with |- context [(t mod ?p =? 0)%Z] => destruct (t mod p =? 0)%Z end;
      simpl; try reflexivity;
      match goal with |- context [send_raises ?a ?b ?c ?d] =>
        destruct (send_raises a b c d) end;
      simpl; eauto.
Qed.

(** * Runs on which no call fails *)

Lemma for_each_events {V A} (keep : V -> V -> Prop) (f : A -> list Event)
    (body : A -> M V unit) (l : list A) :
  (forall v, keep v v) ->
  (forall a b c, keep a b -> keep b c -> keep a c) ->
  Forall (fun x => forall v tr, exists v',
              body x (mkLoop v tr) = (Ok tt, mkLoop v' (tr ++ f x)) /\ keep v v') l ->
  forall v tr, exists v',
    for_each l body (mkLoop v tr) = (Ok tt, mkLoop v' (tr ++ flat_map f l)) /\
    keep v v'.
Proof.
  intros Hrefl Htrans Hall.
  induction Hall as [|x rest Hx _ IH]; intros v tr; simpl.
  - exists v. rewrite app_nil_r. split; [reflexivity | apply Hrefl].
  - destruct (Hx v tr) as (v1 & Hbody & Hk1).
    destruct (IH v1 (tr ++ f x)) as (v2 & Hrest & Hk2).
    exists v2. split; [|eapply Htrans; eassumption].
    unfold bind. rewrite Hbody, Hrest, <- app_assoc. reflexivity.
Qed.

Section NoFailure.

Variable env : CanEnv.
Variable acc : DbcMessage.
Variable payload : list byte.
Hypothesis send_ok : forall n b m, send_raises env n b m = None.

Lemma send_succeeds {V} (b : Bus) (m : Message) (v : V) (tr : list Event) :
  send env b m (mkLoop v tr) = (Ok tt, mkLoop v (tr ++ [EvSend b m])).
Proof. unfold send. simpl. rewrite send_ok. reflexivity. Qed.

Lemma rpi_send_static_events (t : Z) :
  Forall (fun e => forall v tr, exists v',
              Rpi.send_static env t e (mkLoop v tr)
              = (Ok tt, mkLoop v' (tr ++ rpi_static_events t e)) /\ v = v')
    Rpi.STATIC_MSGS.
Proof.
  each_entry; intros v tr; exists v; (split; [|reflexivity]);
    unfold Rpi.send_static, Rpi.tosend, rpi_static_events, py_mod, bind, ret; simpl;
    match goal with |- context [(t mod ?p =? 0)%Z] => destruct (t mod p =? 0)%Z end;
    rewrite ?send_succeeds, ?app_nil_r; reflexivity.
Qed.

Lemma rpi_tick_ok (t : Z) (tr : list Event) :
  encode acc Rpi.acc_control_signals = Ok payload ->
  Rpi.tick env acc (mkLoop t tr)
  = (Ok tt, mkLoop (t + 1)%Z (tr ++ rpi_tick_events acc payload t)).
Proof.
  intros Henc.
  destruct (for_each_events eq (rpi_static_events t) (Rpi.send_static env t)
              Rpi.STATIC_MSGS (fun v => eq_refl) (fun a b c => @eq_trans _ a b c)
              (rpi_send_static_events t) t
              (tr ++ [EvEncode (name acc) Rpi.acc_control_signals;
                      EvSend Can0 (mkMessage (frame_id acc) payload)]))
    as (v' & Hloop & <-).
  unfold Rpi.tick, rpi_tick_events.
  unfold bind at 1. unfold get at 1. cbv iota beta.
  unfold bind at 1. unfold py_mod at 1. simpl (1 =? 0)%Z. cbv iota.
  unfold ret at 1. cbv iota beta. simpl vars.
  rewrite Z.mod_1_r. simpl (0 =? 0)%Z. cbv iota.
  unfold bind at 1. unfold bind at 1. unfold encode_message at 1.
  rewrite Henc. cbv iota beta. simpl vars. simpl trace.
  rewrite send_succeeds. cbv iota beta.
  rewrite <- app_assoc. simpl app.
  unfold bind at 1. rewrite Hloop. cbv iota beta.
  unfold bind, modify, sleep, emit. simpl.
  rewrite <- !app_assoc. reflexivity.
Qed.

Lemma rpi_main_loop_ok (n : nat) :
  encode acc Rpi.acc_control_signals = Ok payload ->
  forall t tr,
    Rpi.main_loop env acc n (mkLoop t tr)
    = (Ok tt, mkLoop (t + Z.of_nat n)%Z
                (tr ++ flat_map (rpi_tick_events acc payload) (ticks t n))).
Proof.
  intros Henc. unfold Rpi.main_loop.
  induction n as [|n IH]; intros t tr.
  - simpl. rewrite Z.add_0_r, app_nil_r. reflexivity.
  - cbn [while_true ticks flat_map]. unfold bind at 1.
    rewrite (rpi_tick_ok t tr Henc). cbv iota beta.
    rewrite IH, <- app_assoc.
    replace (t + Z.of_nat (S n))%Z with (t + 1 + Z.of_nat n)%Z by lia.
    reflexivity.
Qed.

Lemma y2019_send_static_events (t : Z) :
  Forall (fun e => forall v tr, exists v',
              Y2019.send_static env t e (mkLoop v tr)
              = (Ok tt, mkLoop v' (tr ++ y2019_static_events t e)) /\
              Y2019.frame v = Y2019.frame v')
    Y2019.STATIC_MSGS_2019.
Proof.
  each_entry; intros v tr;
    unfold Y2019.send_static, y2019_static_events, py_mod, bind, ret; simpl;
    match goal with |- context [(t mod ?p =? 0)%Z] => destruct (t mod p =? 0)%Z end;
    rewrite ?send_succeeds, ?app_nil_r; simpl;
    eexists; (split; [reflexivity|]); reflexivity.
Qed.

Lemma y2019_tick_ok (v : Y2019.Vars) (tr : list Event) :
  encode acc Y2019.acc_control_signals = Ok payload ->
  exists v',
    Y2019.tick env (Some acc) (mkLoop v tr)
    = (Ok tt, mkLoop v' (tr ++ y2019_tick_events acc payload (Y2019.frame v))) /\
    Y2019.frame v' = (Y2019.frame v + 1)%Z.
Proof.
  intros Henc.
  unfold Y2019.tick, y2019_tick_events.
  unfold bind at 1. unfold get at 1. cbv iota beta.
  unfold bind at 1. unfold py_mod at 1. simpl (1 =? 0)%Z. cbv iota.
  unfold ret at 1. cbv iota beta. simpl vars.
  rewrite Z.mod_1_r. simpl (0 =? 0)%Z. cbv iota.
  unfold bind at 1. unfold bind at 1. unfold encode_message at 1.
  rewrite Henc. cbv iota beta. simpl vars. simpl trace.
  unfold bind at 1. rewrite send_succeeds. cbv iota beta.
  unfold Y2019.incr_can0_tx at 1, modify at 1. cbv iota beta. simpl vars. simpl trace.
  unfold bind at 1.
  match goal with
  | |- context [for_each _ _ (mkLoop ?v1 ?tr1)] =>
      destruct (for_each_events (fun a b => Y2019.frame a = Y2019.frame b)
                  (y2019_static_events (Y2019.frame v))
                  (Y2019.send_static env (Y2019.frame v))
                  Y2019.STATIC_MSGS_2019 (fun a => eq_refl)
                  (fun a b c => @eq_trans _ _ _ _)
                  (y2019_send_static_events (Y2019.frame v)) v1 tr1)
        as (v2 & Hloop & Hframe)
  end.
  rewrite Hloop. cbv iota beta.
  unfold bind, modify, sleep, emit. cbn [vars trace fst snd].
  eexists. split.
  - rewrite <- !app_assoc. reflexivity.
  - simpl. simpl in Hframe. lia.
Qed.

Lemma y2019_main_loop_ok (n : nat) :
  encode acc Y2019.acc_control_signals = Ok payload ->
  forall v tr, exists v',
    Y2019.main_loop env (Some acc) n (mkLoop v tr)
    = (Ok tt, mkLoop v'
                (tr ++ flat_map (y2019_tick_events acc payload)
                         (ticks (Y2019.frame v) n))) /\
    Y2019.frame v' = (Y2019.frame v + Z.of_nat n)%Z.
Proof.
  intros Henc. unfold Y2019.main_loop.
  induction n as [|n IH]; intros v tr.
  - exists v. simpl. rewrite app_nil_r. split; [reflexivity | lia].
  - cbn [while_true ticks flat_map]. unfold bind at 1.
    destruct (y2019_tick_ok v tr Henc) as (v1 & Htick & Hf1).
    rewrite Htick. cbv iota beta.
    destruct (IH v1 (tr ++ y2019_tick_events acc payload (Y2019.frame v)))
      as (v2 & Hrest & Hf2).
    exists v2. rewrite Hrest, <- app_assoc, Hf1. split; [reflexivity | lia].
Qed.

Lemma y2019_tick_ok_no_control (v : Y2019.Vars) (tr : list Event) :
  exists v',
    Y2019.tick env None (mkLoop v tr)
    = (Ok tt, mkLoop v' (tr ++ y2019_tick_events_no_control (Y2019.frame v))) /\
    Y2019.frame v' = (Y2019.frame v + 1)%Z.
Proof.
  unfold Y2019.tick, y2019_tick_events_no_control.
  unfold bind at 1. unfold get at 1. cbv iota beta.
  unfold bind at 1. unfold py_mod at 1. simpl (1 =? 0)%Z. cbv iota.
  unfold ret at 1. cbv iota beta. simpl vars.
  unfold bind at 1. unfold ret at 1. cbv iota beta.
  unfold bind at 1.
  destruct (for_each_events (fun a b => Y2019.frame a = Y2019.frame b)
              (y2019_static_events (Y2019.frame v))
              (Y2019.send_static env (Y2019.frame v))
              Y2019.STATIC_MSGS_2019 (fun a => eq_refl)
              (fun a b c => @eq_trans _ _ _ _)
              (y2019_send_static_events (Y2019.frame v)) v tr)
    as (v2 & Hloop & Hframe).
  rewrite Hloop. cbv iota beta.
  unfold bind, modify, sleep, emit. cbn [vars trace fst snd].
  eexists. split.
  - rewrite <- !app_assoc. reflexivity.
  - simpl. lia.
Qed.

Lemma y2019_main_loop_ok_no_control (n : nat) :
  forall v tr, exists v',
    Y2019.main_loop env None n (mkLoop v tr)
    = (Ok tt, mkLoop v'
                (tr ++ flat_map y2019_tick_events_no_control
                         (ticks (Y2019.frame v) n))) /\
    Y2019.frame v' = (Y2019.frame v + Z.of_nat n)%Z.
Proof.
  unfold Y2019.main_loop.
  induction n as [|n IH]; intros v tr.
  - exists v. simpl. rewrite app_nil_r. split; [reflexivity | lia].
  - cbn [while_true ticks flat_map]. unfold bind at 1.
    destruct (y2019_tick_ok_no_control v tr) as (v1 & Htick & Hf1).
    rewrite Htick. cbv iota beta.
    destruct (IH v1 (tr ++ y2019_tick_events_no_control (Y2019.frame v)))
      as (v2 & Hrest & Hf2).
    exists v2. rewrite Hrest, <- app_assoc, Hf1. split; [reflexivity | lia].
Qed.

End NoFailure.

(** * Counting the sends of one static message *)

Lemma Bus_eqb_refl (b : Bus) : Bus_eqb b b = true.
Proof. destruct b; reflexivity. Qed.

Lemma Message_eqb_refl (m : Message) : Message_eqb m m = true.
Proof.
  unfold Message_eqb. rewrite Z.eqb_refl, bool_decide_eq_true_2; reflexivity.
Qed.

Lemma Message_eqb_id (m m' : Message) :
  arbitration_id m <> arbitration_id m' -> Message_eqb m m' = false.
Proof.
  intros Hne. unfold Message_eqb.
  destruct (Z.eqb_spec (arbitration_id m) (arbitration_id m')); [contradiction|].
  reflexivity.
Qed.

Lemma count_sent_flat_map_other {A} (key : A -> Z) (f : A -> list Event)
    (b : Bus) (m : Message) (k : Z) (l : list A) :
  (forall y, key y <> k -> count_sent b m (f y) = 0%Z) ->
  ~ In k (map key l) ->
  count_sent b m (flat_map f l) = 0%Z.
Proof.
  intros Hother. induction l as [|y rest IH]; simpl; intros Hnotin.
  - reflexivity.
  - rewrite count_sent_app, Hother, IH; [reflexivity| |]; intuition.
Qed.

Lemma count_sent_flat_map_unique {A} (key : A -> Z) (f : A -> list Event)
    (b : Bus) (m : Message) (l : list A) (x : A) :
  List.NoDup (map key l) ->
  In x l ->
  (forall y, key y <> key x -> count_sent b m (f y) = 0%Z) ->
  count_sent b m (flat_map f l) = count_sent b m (f x).
Proof.
  intros Hnodup Hin Hother.
  induction l as [|y rest IH]; simpl in *; [contradiction|].
  inversion Hnodup as [|? ? Hnotin Hrest]; subst.
  rewrite count_sent_app.
  destruct Hin as [-> | Hin].
  - rewrite (count_sent_flat_map_other key f b m (key x) rest Hother Hnotin). lia.
  - rewrite Hother, IH by
      (try assumption; intros Heq; apply Hnotin; rewrite Heq; apply in_map; assumption).
    reflexivity.
Qed.

Lemma div_step (t P : Z) :
  (0 < P)%Z ->
  ((t + P) / P = (t + P - 1) / P + (if t mod P =? 0 then 1 else 0))%Z.
Proof.
  intros HP.
  pose proof (Z.div_mod t P ltac:(lia)) as Hdm.
  pose proof (Z.mod_pos_bound t P HP) as Hbound.
  replace (t + P)%Z with (t + 1 * P)%Z by lia.
  rewrite Z.div_add by lia.
  destruct (Z.eqb_spec (t mod P) 0) as [Hz|Hnz].
  - rewrite <- (Z.div_unique (t + 1 * P - 1) P (t / P) (P - 1)); lia.
  - rewrite <- (Z.div_unique (t + 1 * P - 1) P (t / P + 1) (t mod P - 1)); lia.
Qed.

(** The sends of a message that goes out exactly on the multiples of [P],
    over the ticks [t0 .. t0+n-1]. *)
Lemma count_sent_ticks (g : Z -> list Event) (b : Bus) (m : Message) (P : Z) :
  (0 < P)%Z ->
  (forall t, count_sent b m (g t) = if (t mod P =? 0)%Z then 1%Z else 0%Z) ->
  forall n t0,
    count_sent b m (flat_map g (ticks t0 n))
    = ((t0 + Z.of_nat n + P - 1) / P - (t0 + P - 1) / P)%Z.
Proof.
  intros HP Hg. induction n as [|n IH]; intros t0.
  - simpl. rewrite Z.add_0_r. lia.
  - cbn [ticks flat_map]. rewrite count_sent_app, Hg, IH.
    pose proof (div_step t0 P HP) as Hstep.
    replace (t0 + 1 + Z.of_nat n + P - 1)%Z with (t0 + Z.of_nat (S n) + P - 1)%Z by lia.
    replace (t0 + 1 + P - 1)%Z with (t0 + P)%Z by lia.
    lia.
Qed.

Lemma count_sent_ticks_from_0 (g : Z -> list Event) (b : Bus) (m : Message) (P : Z)
    (N : nat) :
  (0 < P)%Z ->
  (forall t, count_sent b m (g t) = if (t mod P =? 0)%Z then 1%Z else 0%Z) ->
  count_sent b m (flat_map g (ticks 0 (S N))) = (Z.of_nat N / P + 1)%Z.
Proof.
  intros HP Hg. rewrite (count_sent_ticks g b m P HP Hg).
  replace (0 + Z.of_nat (S N) + P - 1)%Z with (Z.of_nat N + 1 * P)%Z by lia.
  rewrite Z.div_add by lia.
  replace (0 + P - 1)%Z with (P - 1)%Z by lia.
  rewrite (Z.div_small (P - 1) P) by lia. lia.
Qed.

Lemma rpi_addrs_nodup : List.NoDup (map addr Rpi.STATIC_MSGS).
Proof. apply NoDup_ListNoDup, (bool_decide_unpack _). vm_compute. exact I. Qed.

Lemma y2019_addrs_nodup : List.NoDup (map Y2019.addr Y2019.STATIC_MSGS_2019).
Proof. apply NoDup_ListNoDup, (bool_decide_unpack _). vm_compute. exact I. Qed.

Lemma rpi_count_tick (acc : DbcMessage) (payload : list byte) (e : StaticMsg) (t : Z) :
  In e Rpi.STATIC_MSGS ->
  addr e <> frame_id acc ->
  count_sent (if (bus e =? 0)%Z then Can0 else Can1) (mkMessage (addr e) (vl e))
    (rpi_tick_events acc payload t)
  = if (t mod fr_step e =? 0)%Z then 1%Z else 0%Z.
Proof.
  intros Hin Hid. unfold rpi_tick_events.
  rewrite !count_sent_app.
  rewrite (count_sent_flat_map_unique addr (rpi_static_events t) _ _
             Rpi.STATIC_MSGS e rpi_addrs_nodup Hin).
  - cbn [count_sent]. rewrite Message_eqb_id, andb_false_r by (simpl; exact Hid).
    unfold rpi_static_events. destruct (t mod fr_step e =? 0)%Z; cbn [count_sent].
    + rewrite Bus_eqb_refl, Message_eqb_refl. reflexivity.
    + reflexivity.
  - intros y Hy. unfold rpi_static_events.
    destruct (t mod fr_step y =? 0)%Z; cbn [count_sent]; [|reflexivity].
    rewrite Message_eqb_id, andb_false_r by (simpl; congruence). reflexivity.
Qed.

Lemma y2019_count_tick (acc : DbcMessage) (payload : list byte)
    (e : Y2019.StaticMsg2019) (t : Z) :
  In e Y2019.STATIC_MSGS_2019 ->
  Y2019.addr e <> frame_id acc ->
  count_sent (if (Y2019.bus e =? 0)%Z then Can0 else Can1)
    (mkMessage (Y2019.addr e) (Y2019.vl e))
    (y2019_tick_events acc payload t)
  = if (t mod Y2019.fr_step e =? 0)%Z then 1%Z else 0%Z.
Proof.
  intros Hin Hid. unfold y2019_tick_events.
  rewrite !count_sent_app.
  rewrite (count_sent_flat_map_unique Y2019.addr (y2019_static_events t) _ _
             Y2019.STATIC_MSGS_2019 e y2019_addrs_nodup Hin).
  - cbn [count_sent]. rewrite Message_eqb_id, andb_false_r by (simpl; exact Hid).
    unfold y2019_static_events.
    destruct (t mod Y2019.fr_step e =? 0)%Z; cbn [count_sent].
    + rewrite Bus_eqb_refl, Message_eqb_refl. reflexivity.
    + reflexivity.
  - intros y Hy. unfold y2019_static_events.
    destruct (t mod Y2019.fr_step y =? 0)%Z; cbn [count_sent]; [|reflexivity].
    rewrite Message_eqb_id, andb_false_r by (simpl; congruence). reflexivity.
Qed.

Lemma y2019_count_tick_no_control (e : Y2019.StaticMsg2019) (t : Z) :
  In e Y2019.STATIC_MSGS_2019 ->
  count_sent (if (Y2019.bus e =? 0)%Z then Can0 else Can1)
    (mkMessage (Y2019.addr e) (Y2019.vl e))
    (y2019_tick_events_no_control t)
  = if (t mod Y2019.fr_step e =? 0)%Z then 1%Z else 0%Z.
Proof.
  intros Hin. unfold y2019_tick_events_no_control.
  rewrite !count_sent_app.
  rewrite (count_sent_flat_map_unique Y2019.addr (y2019_static_events t) _ _
             Y2019.STATIC_MSGS_2019 e y2019_addrs_nodup Hin).
  - cbn [count_sent]. unfold y2019_static_events.
    destruct (t mod Y2019.fr_step e =? 0)%Z; cbn [count_sent].
    + rewrite Bus_eqb_refl, Message_eqb_refl. reflexivity.
    + reflexivity.
  - intros y Hy. unfold y2019_static_events.
    destruct (t mod Y2019.fr_step y =? 0)%Z; cbn [count_sent]; [|reflexivity].
    rewrite Message_eqb_id, andb_false_r by (simpl; congruence). reflexivity.
Qed.

Lemma rpi_fr_step_pos : Forall (fun e => 0 < fr_step e)%Z Rpi.STATIC_MSGS.
Proof. each_entry; reflexivity. Qed.

Lemma y2019_fr_step_pos :
  Forall (fun e => 0 < Y2019.fr_step e)%Z Y2019.STATIC_MSGS_2019.
Proof. each_entry; reflexivity. Qed.

(** C2, as the scripts have it.  On a run where no send and no encode
    raises, every entry of [STATIC_MSGS] (toyota_radar_rpi.py) and of
    [STATIC_MSGS_2019] (toyota_radar_2019.py, with or without the control
    message), with period [fr_step] = P, is sent on its target bus on the
    pass with frame number t exactly when t mod P = 0: the pass sends the
    entry's frame once if t mod P = 0 and not at all otherwise, and moves on
    to frame t + 1.  Over the passes 0..N, starting from frame 0, the
    entry's frame is sent floor(N / P) + 1 times.  (The control frame has an
    id of its own, so it is not counted as a static frame.) *)
Theorem static_frame_fires_every_period
    (env : CanEnv) (acc : DbcMessage) (payload : list byte)
    (Hsend : forall n b m, send_raises env n b m = None)
    (Hencode_rpi : encode acc Rpi.acc_control_signals = Ok payload)
    (Hencode_2019 : encode acc Y2019.acc_control_signals = Ok payload)
    (Hid_rpi : Forall (fun e => addr e <> frame_id acc) Rpi.STATIC_MSGS)
    (Hid_2019 : Forall (fun e => Y2019.addr e <> frame_id acc) Y2019.STATIC_MSGS_2019) :
  Forall (fun e =>
            let target := if (bus e =? 0)%Z then Can0 else Can1 in
            let m := mkMessage (addr e) (vl e) in
            (forall t tr,
                let r := Rpi.tick env acc (mkLoop t tr) in
                fst r = Ok tt /\ vars (snd r) = (t + 1)%Z /\
                exists new, trace (snd r) = tr ++ new /\
                            count_sent target m new
                            = if (t mod fr_step e =? 0)%Z then 1%Z else 0%Z) /\
            (forall N : nat,
                let r := Rpi.main_loop env acc (S N) (mkLoop 0%Z []) in
                fst r = Ok tt /\
                count_sent target m (trace (snd r))
                = (Z.of_nat N / fr_step e + 1)%Z))
    Rpi.STATIC_MSGS /\
  Forall (fun e =>
            let target := if (Y2019.bus e =? 0)%Z then Can0 else Can1 in
            let m := mkMessage (Y2019.addr e) (Y2019.vl e) in
            forall acc_message, acc_message = Some acc \/ acc_message = None ->
            (forall v tr,
                let r := Y2019.tick env acc_message (mkLoop v tr) in
                fst r = Ok tt /\
                Y2019.frame (vars (snd r)) = (Y2019.frame v + 1)%Z /\
                exists new, trace (snd r) = tr ++ new /\
                            count_sent target m new
                            = if (Y2019.frame v mod Y2019.fr_step e =? 0)%Z
                              then 1%Z else 0%Z) /\
            (forall (N : nat) (logger : Y2019.MessageLogger),
                let r := Y2019.main_loop env acc_message (S N)
                           (mkLoop (Y2019.mkVars 0 logger) []) in
                fst r = Ok tt /\
                count_sent target m (trace (snd r))
                = (Z.of_nat N / Y2019.fr_step e + 1)%Z))
    Y2019.STATIC_MSGS_2019.
Proof.
  split.
  - apply List.Forall_forall. intros e Hin.
    pose proof (proj1 (List.Forall_forall _ _) Hid_rpi e Hin) as Hid.
    pose proof (proj1 (List.Forall_forall _ _) rpi_fr_step_pos e Hin) as Hpos.
    cbv zeta. split.
    + intros t tr. rewrite (rpi_tick_ok env acc payload Hsend t tr Hencode_rpi).
      cbn [fst snd vars trace]. repeat split.
      exists (rpi_tick_events acc payload t). split; [reflexivity|].
      apply rpi_count_tick; assumption.
    + intros N.
      rewrite (rpi_main_loop_ok env acc payload Hsend (S N) Hencode_rpi).
      cbn [fst snd trace]. split; [reflexivity|].
      rewrite app_nil_l. apply count_sent_ticks_from_0; [assumption|].
      intros t. apply rpi_count_tick; assumption.
  - apply List.Forall_forall. intros e Hin.
    pose proof (proj1 (List.Forall_forall _ _) Hid_2019 e Hin) as Hid.
    pose proof (proj1 (List.Forall_forall _ _) y2019_fr_step_pos e Hin) as Hpos.
    cbv zeta. intros acc_message [-> | ->]; split.
    + intros v tr.
      destruct (y2019_tick_ok env acc payload Hsend v tr Hencode_2019)
        as (v' & Htick & Hframe).
      rewrite Htick. cbn [fst snd vars trace]. repeat split; [assumption|].
      exists (y2019_tick_events acc payload (Y2019.frame v)). split; [reflexivity|].
      apply y2019_count_tick; assumption.
    + intros N logger.
      destruct (y2019_main_loop_ok env acc payload Hsend (S N) Hencode_2019
                  (Y2019.mkVars 0 logger) []) as (v' & Hrun & _).
      rewrite Hrun. cbn [fst snd trace Y2019.frame]. split; [reflexivity|].
      rewrite app_nil_l. apply count_sent_ticks_from_0; [assumption|].
      intros t. apply y2019_count_tick; assumption.
    + intros v tr.
      destruct (y2019_tick_ok_no_control env Hsend v tr) as (v' & Htick & Hframe).
      rewrite Htick. cbn [fst snd vars trace]. repeat split; [assumption|].
      exists (y2019_tick_events_no_control (Y2019.frame v)). split; [reflexivity|].
      apply y2019_count_tick_no_control; assumption.
    + intros N logger.
      destruct (y2019_main_loop_ok_no_control env Hsend (S N)
                  (Y2019.mkVars 0 logger) []) as (v' & Hrun & _).
      rewrite Hrun. cbn [fst snd trace Y2019.frame]. split; [reflexivity|].
      rewrite app_nil_l. apply count_sent_ticks_from_0; [assumption|].
      intros t. apply y2019_count_tick_no_control; assumption.
Qed.

(** C2 fails as the spec words it, without the condition: the entry 0x128
    has period 3, so it is due on tick 0 and once over the ticks 0..2; when
    the send before it (0x141) fails on tick 0, the loop of
    toyota_radar_rpi.py is left and 0x128 is not sent at all, on tick 0 or
    later. *)
Lemma static_frame_due_but_not_sent :
  let e := mkStaticMsg 0x128 Rpi.ECU.DSU
             [Rpi.CAR.PRIUS; Rpi.CAR.RAV4H; Rpi.CAR.LEXUS_RXH; Rpi.CAR.RAV4;
              Rpi.CAR.COROLLA] 1 3 [xf4; x01; x90; x83; x00; x37] in
  let r := Rpi.main_loop env_second_send_fails sample_acc_message 3 (mkLoop 0 []) in
  In e Rpi.STATIC_MSGS /\
  (0 mod fr_step e =? 0)%Z = true /\
  (2 / fr_step e + 1 = 1)%Z /\
  count_sent Can1 (mkMessage (addr e) (vl e)) (trace (snd r)) = 0%Z /\
  fst r = Raise CanError.
Proof.
  cbv zeta. split; [simpl; tauto|]. vm_compute. repeat split; reflexivity.
Qed.

Lemma static_frame_fires_every_period_witness :
  count_sent Can0 (mkMessage 0x4CB [x0c; x00; x00; x00; x00; x00; x00; x00])
    (trace (snd (Rpi.main_loop env_ok sample_acc_message 251 (mkLoop 0%Z []))))
  = 3%Z.
Proof.
  assert (Forall (fun e => addr e <> frame_id sample_acc_message) Rpi.STATIC_MSGS)
    as Hid_rpi by (each_entry; discriminate).
  assert (Forall (fun e => Y2019.addr e <> frame_id sample_acc_message)
            Y2019.STATIC_MSGS_2019)
    as Hid_2019 by (each_entry; discriminate).
  pose proof (static_frame_fires_every_period env_ok sample_acc_message
                sample_acc_payload (fun _ _ _ => eq_refl) eq_refl eq_refl
                Hid_rpi Hid_2019) as [Hrpi _].
  pose proof (proj1 (List.Forall_forall _ _) Hrpi
                (mkStaticMsg 0x4CB Rpi.ECU.DSU
                   [Rpi.CAR.PRIUS; Rpi.CAR.RAV4H; Rpi.CAR.LEXUS_RXH; Rpi.CAR.RAV4;
                    Rpi.CAR.COROLLA] 0 100
                   [x0c; x00; x00; x00; x00; x00; x00; x00])) as Hentry.
  cbv zeta in Hentry.
  destruct Hentry as [_ Hcount].
  - simpl. tauto.
  - apply (Hcount 250%nat).
Defined.

(** * Pacing of the main loops *)

Lemma no_sleep_nil {V} (v : V) (st : option exn) : no_sleep v [] st v.
Proof. constructor. Qed.

Lemma no_sleep_app {V} (v : V) tr1 (v1 : V) tr2 st (v' : V) :
  no_sleep v tr1 None v1 -> no_sleep v1 tr2 st v' -> no_sleep v (tr1 ++ tr2) st v'.
Proof. intros H1 H2. apply Forall_app. split; assumption. Qed.

Lemma ends_bind {V A B} (c : M V A) (k : A -> M V B) :
  sat no_sleep c ->
  (forall a, sat ends_with_constant_sleep (k a)) ->
  sat ends_with_constant_sleep (bind c k).
Proof.
  apply sat_bind2.
  - intros v tr e v' H. exact H.
  - intros v tr1 v1 tr2 st v' H1 H2. unfold ends_with_constant_sleep in *.
    destruct st as [e|].
    + apply Forall_app. split; assumption.
    + destruct H2 as (work & -> & Hwork).
      exists (tr1 ++ work). split; [apply app_assoc|].
      apply Forall_app. split; assumption.
Qed.

Lemma ends_sleep {V} : sat (V := V) ends_with_constant_sleep (sleep (1 # 100)).
Proof.
  intros s. exists [EvSleep (1 # 100)]. split; [reflexivity|].
  exists []. split; [reflexivity | constructor].
Qed.

(** Closes a goal [sat no_sleep c] for a computation without [sleep]. *)
Ltac no_sleep_auto V :=
  repeat keeps_step (@no_sleep V) (@no_sleep_nil V) (@no_sleep_app V);
  try (unfold no_sleep; repeat constructor).

Lemma rpi_tick_pacing (env : CanEnv) (acc : DbcMessage) :
  sat ends_with_constant_sleep (Rpi.tick env acc).
Proof.
  unfold Rpi.tick, Rpi.send_static, Rpi.tosend.
  repeat (apply ends_bind; [no_sleep_auto Z | intros ?]).
  apply ends_sleep.
Qed.

Lemma y2019_tick_pacing (env : CanEnv) (acc : option DbcMessage) :
  sat ends_with_constant_sleep (Y2019.tick env acc).
Proof.
  unfold Y2019.tick, Y2019.send_static, Y2019.incr_can0_tx.
  repeat (apply ends_bind; [no_sleep_auto Y2019.Vars | intros ?]).
  apply ends_sleep.
Qed.

Lemma debug_tick_pacing (env : CanEnv) (acc : DbcMessage) :
  sat ends_with_constant_sleep (Debug.tick env acc).
Proof.
  unfold Debug.tick, Debug.send_static, Debug.tosend, Debug.incr_tx_count.
  repeat (apply ends_bind; [no_sleep_auto Debug.Vars | intros ?]).
  apply ends_sleep.
Qed.

Lemma elapsed_app (cost : Event -> Q) (tr1 tr2 : list Event) :
  (elapsed cost (tr1 ++ tr2) == elapsed cost tr1 + elapsed cost tr2)%Q.
Proof.
  induction tr1 as [|ev rest IH]; simpl.
  - rewrite Qplus_0_l. reflexivity.
  - rewrite IH. apply Qplus_assoc.
Qed.

Lemma elapsed_work_then_sleep (cost : Event -> Q) (work : list Event) (d : Q) :
  (elapsed cost (work ++ [EvSleep d]) == elapsed cost work + d)%Q.
Proof. rewrite elapsed_app. simpl. rewrite Qplus_0_r. reflexivity. Qed.

(** C5, as the scripts have it.  The main loops keep no deadline: every pass
    of the loop of toyota_radar_rpi.py, toyota_radar_2019.py and
    toyota_radar_debug.py that completes ends with [time.sleep(1/100)], a
    pause of the same 1/100 s whatever the work of the pass took, and holds
    no other pause; a pass that raises holds none.  Whatever the calls cost,
    a completed pass therefore takes the time of its work plus 1/100 s. *)
Theorem tick_sleeps_constant_period :
  (forall env acc s,
      let r := Rpi.tick env acc s in
      exists tr, trace (snd r) = trace s ++ tr /\
        match status (fst r) with
        | None => exists work,
            tr = work ++ [EvSleep (1 # 100)] /\
            Forall (fun ev => is_sleep ev = false) work /\
            forall cost, (elapsed cost tr == elapsed cost work + (1 # 100))%Q
        | Some _ => Forall (fun ev => is_sleep ev = false) tr
        end) /\
  (forall env acc s,
      let r := Y2019.tick env acc s in
      exists tr, trace (snd r) = trace s ++ tr /\
        match status (fst r) with
        | None => exists work,
            tr = work ++ [EvSleep (1 # 100)] /\
            Forall (fun ev => is_sleep ev = false) work /\
            forall cost, (elapsed cost tr == elapsed cost work + (1 # 100))%Q
        | Some _ => Forall (fun ev => is_sleep ev = false) tr
        end) /\
  (forall env acc s,
      let r := Debug.tick env acc s in
      exists tr, trace (snd r) = trace s ++ tr /\
        match status (fst r) with
        | None => exists work,
            tr = work ++ [EvSleep (1 # 100)] /\
            Forall (fun ev => is_sleep ev = false) work /\
            forall cost, (elapsed cost tr == elapsed cost work + (1 # 100))%Q
        | Some _ => Forall (fun ev => is_sleep ev = false) tr
        end).
Proof.
  split; [|split].
  - intros env acc s r. subst r.
    destruct (rpi_tick_pacing env acc s) as (tr & Htr & Hends).
    exists tr. split; [assumption|].
    unfold ends_with_constant_sleep in Hends.
    destruct (status (fst (Rpi.tick env acc s))); [assumption|].
    destruct Hends as (work & -> & Hwork). exists work.
    repeat split; [assumption|]. intros cost. apply elapsed_work_then_sleep.
  - intros env acc s r. subst r.
    destruct (y2019_tick_pacing env acc s) as (tr & Htr & Hends).
    exists tr. split; [assumption|].
    unfold ends_with_constant_sleep in Hends.
    destruct (status (fst (Y2019.tick env acc s))); [assumption|].
    destruct Hends as (work & -> & Hwork). exists work.
    repeat split; [assumption|]. intros cost. apply elapsed_work_then_sleep.
  - intros env acc s r. subst r.
    destruct (debug_tick_pacing env acc s) as (tr & Htr & Hends).
    exists tr. split; [assumption|].
    unfold ends_with_constant_sleep in Hends.
    destruct (status (fst (Debug.tick env acc s))); [assumption|].
    destruct Hends as (work & -> & Hwork). exists work.
    repeat split; [assumption|]. intros cost. apply elapsed_work_then_sleep.
Qed.

(** C5 fails as the spec words it.  With sends that take 0.5 ms each, the
    first pass of the loop of toyota_radar_rpi.py does 5 ms of work (ten
    sends) and then pauses for the constant 10 ms: the second pass starts at
    15 ms, not at the 10 ms deadline a fixed-rate schedule would keep, and
    after two passes (the second has one send) the clock reads 25.5 ms
    instead of 20 ms. *)
Lemma fixed_sleep_drifts :
  let pass1 := trace (snd (Rpi.main_loop env_ok sample_acc_message 1 (mkLoop 0%Z []))) in
  let pass2 := trace (snd (Rpi.main_loop env_ok sample_acc_message 2 (mkLoop 0%Z []))) in
  final_sleep pass1 = Some (1 # 100)%Q /\
  (elapsed (send_cost (1 # 2000)) pass1 == 15 # 1000)%Q /\
  ~ (elapsed (send_cost (1 # 2000)) pass1 == 1 # 100)%Q /\
  (elapsed (send_cost (1 # 2000)) pass2 == 255 # 10000)%Q /\
  ~ (elapsed (send_cost (1 # 2000)) pass2 == 2 # 100)%Q.
Proof.
  cbv zeta. split; [|split; [|split; [|split]]].
  - vm_compute. reflexivity.
  - vm_compute. reflexivity.
  - intros H. vm_compute in H. discriminate H.
  - vm_compute. reflexivity.
  - intros H. vm_compute in H. discriminate H.
Qed.

(** * Cleanup *)

Section Cleanup.

Context {Sys : Type}.
Variable call : CleanupCall -> M Sys unit.
Variable running : Sys -> bool.
Hypothesis stop_halts :
  forall s, running (vars (snd (call NotifierStop s))) = false.
Hypothesis shutdown_keeps_halted :
  forall b s, running (vars s) = false ->
              running (vars (snd (call (BusShutdown b) s))) = false.

Lemma rpi_cleanup_ok (s : Loop Sys) :
  fst (Rpi.cleanup call s) = Ok tt /\
  running (vars (snd (Rpi.cleanup call s))) = false.
Proof.
  unfold Rpi.cleanup, bind, try_except_pass. simpl. split; [reflexivity|].
  apply shutdown_keeps_halted, shutdown_keeps_halted, stop_halts.
Qed.

Lemma debug_cleanup_ok (s : Loop Sys) :
  fst (Debug.cleanup call s) = Ok tt /\
  running (vars (snd (Debug.cleanup call s))) = false.
Proof.
  unfold Debug.cleanup, bind, try_except_pass. simpl. split; [reflexivity|].
  apply shutdown_keeps_halted, shutdown_keeps_halted, stop_halts.
Qed.

Lemma y2019_cleanup_ok (s : Loop Sys) :
  fst (Y2019.cleanup call s) = Ok tt /\
  running (vars (snd (Y2019.cleanup call s))) = false.
Proof.
  unfold Y2019.cleanup, try_except_pass. simpl. split; [reflexivity|].
  unfold bind.
  pose proof (stop_halts s) as Hstop.
  destruct (call NotifierStop s) as [[[]|e] s1]; simpl in *; [|assumption].
  pose proof (shutdown_keeps_halted Can0 s1 Hstop) as H0.
  destruct (call (BusShutdown Can0) s1) as [[[]|e] s2]; simpl in *; [|assumption].
  apply shutdown_keeps_halted. assumption.
Qed.

End Cleanup.

(** C8.  The cleanup sequence of the [finally] block never raises: each of
    its calls sits in a [try ... except: pass] (one [try] per call in
    toyota_radar_rpi.py and toyota_radar_debug.py, one around all three in
    toyota_radar_2019.py).  For every behaviour of the notifier and the
    buses and every prior state, it returns normally, also when run a second
    time.  Given that [notifier.stop()] halts the reception thread (also when
    it raises) and that shutting a bus down does not restart it, no reception
    thread runs afterwards.  The scripts have no transmission thread: the
    transmission loop is the caller, and has been left when the [finally]
    block runs. *)
Theorem cleanup_never_raises {Sys : Type}
    (call : CleanupCall -> M Sys unit) (running : Sys -> bool)
    (stop_halts : forall s, running (vars (snd (call NotifierStop s))) = false)
    (shutdown_keeps_halted :
       forall b s, running (vars s) = false ->
                   running (vars (snd (call (BusShutdown b) s))) = false)
    (s : Loop Sys) :
  (fst (Rpi.cleanup call s) = Ok tt /\
   running (vars (snd (Rpi.cleanup call s))) = false /\
   fst (Rpi.cleanup call (snd (Rpi.cleanup call s))) = Ok tt /\
   running (vars (snd (Rpi.cleanup call (snd (Rpi.cleanup call s))))) = false) /\
  (fst (Y2019.cleanup call s) = Ok tt /\
   running (vars (snd (Y2019.cleanup call s))) = false /\
   fst (Y2019.cleanup call (snd (Y2019.cleanup call s))) = Ok tt /\
   running (vars (snd (Y2019.cleanup call (snd (Y2019.cleanup call s))))) = false) /\
  (fst (Debug.cleanup call s) = Ok tt /\
   running (vars (snd (Debug.cleanup call s))) = false /\
   fst (Debug.cleanup call (snd (Debug.cleanup call s))) = Ok tt /\
   running (vars (snd (Debug.cleanup call (snd (Debug.cleanup call s))))) = false).
Proof.
  pose proof (rpi_cleanup_ok call running stop_halts shutdown_keeps_halted) as Hrpi.
  pose proof (y2019_cleanup_ok call running stop_halts shutdown_keeps_halted) as H19.
  pose proof (debug_cleanup_ok call running stop_halts shutdown_keeps_halted) as Hdbg.
  split; [|split].
  - destruct (Hrpi s) as [H1 H2].
    destruct (Hrpi (snd (Rpi.cleanup call s))) as [H3 H4]. tauto.
  - destruct (H19 s) as [H1 H2].
    destruct (H19 (snd (Y2019.cleanup call s))) as [H3 H4]. tauto.
  - destruct (Hdbg s) as [H1 H2].
    destruct (Hdbg (snd (Debug.cleanup call s))) as [H3 H4]. tauto.
Qed.

Lemma cleanup_never_raises_witness :
  let s := mkLoop true [] in
  fst (Y2019.cleanup sample_call s) = Ok tt /\
  vars (snd (Y2019.cleanup sample_call s)) = false /\
  fst (Y2019.cleanup sample_call (snd (Y2019.cleanup sample_call s))) = Ok tt /\
  vars (snd (Y2019.cleanup sample_call (snd (Y2019.cleanup sample_call s)))) = false.
Proof.
  intros s.
  assert (forall s0, vars (snd (sample_call NotifierStop s0)) = false) as Hstop.
  { intros [[|] tr]; reflexivity. }
  assert (forall b s0, vars s0 = false ->
                       vars (snd (sample_call (BusShutdown b) s0)) = false) as Hshut.
  { intros b s0 H. simpl. exact H. }
  exact (proj1 (proj2 (cleanup_never_raises sample_call (fun b => b) Hstop Hshut s))).
Defined.

(** * The track cache *)

Lemma is_new_track_spec (tracks : gmap Z Driver.RadarTrack) (track_timeout now : Q)
    (id : Z) :
  Driver.is_new_track tracks track_timeout now id = true <->
  tracks !! id = None \/
  exists prev, tracks !! id = Some prev /\
               (track_timeout < now - Driver.timestamp prev)%Q.
Proof.
  unfold Driver.is_new_track.
  destruct (tracks !! id) as [prev|] eqn:Hlookup.
  - rewrite negb_true_iff. split.
    + intros Hle. right. exists prev. split; [reflexivity|].
      apply Qnot_le_lt. intros Habs. apply Qle_bool_iff in Habs. congruence.
    + intros [Habs | (prev' & Heq & Hlt)]; [discriminate|].
      injection Heq as <-.
      destruct (Qle_bool (now - Driver.timestamp prev) track_timeout) eqn:Hle;
        [|reflexivity].
      apply Qle_bool_iff in Hle. exfalso. exact (Qlt_not_le _ _ Hlt Hle).
  - split; [intros _; left; reflexivity | reflexivity].
Qed.

(** C7.  In the track cache as the spec describes it, the [new_track] flag
    of the track delivered by an update of id X at time [now] is true exactly
    when the cache held no entry for X or the entry's age [now - timestamp]
    exceeded [track_timeout]; the delivered track is the one stored, with
    timestamp [now].  With [track_timeout] = 0.5, updates of one id at times
    0, 0.1 and 0.7 into an empty cache deliver the flags true, false, true. *)
Theorem new_track_iff_absent_or_aged_out :
  (forall track_timeout now id long lat rel (tracks : gmap Z Driver.RadarTrack),
      let r := Driver.upsert track_timeout now id long lat rel tracks in
      (Driver.new_track (snd r) = true <->
       tracks !! id = None \/
       exists prev, tracks !! id = Some prev /\
                    (track_timeout < now - Driver.timestamp prev)%Q) /\
      fst r !! id = Some (snd r) /\
      Driver.timestamp (snd r) = now) /\
  (forall id : Z,
      Driver.new_track_flags (1 # 2) [(0%Q, id); ((1 # 10)%Q, id); ((7 # 10)%Q, id)] ∅
      = [true; false; true]).
Proof.
  split.
  - intros track_timeout now id long lat rel tracks r. subst r.
    unfold Driver.upsert. cbn [fst snd Driver.new_track Driver.timestamp].
    split; [apply is_new_track_spec|].
    split; [apply lookup_insert_eq | reflexivity].
  - intros id. cbn [Driver.new_track_flags Driver.upsert Driver.new_track].
    unfold Driver.is_new_track.
    rewrite lookup_empty, !lookup_insert_eq. reflexivity.
Qed.

(** * More on the listeners *)

Lemma y2019_listener_step (db : option Database) (msg : Message)
    (logger : Y2019.MessageLogger) :
  let l' := fst (Y2019.on_message_received db msg logger) in
  Y2019.radar_status_msgs l'
  = (Y2019.radar_status_msgs logger
     + if (arbitration_id msg =? 0x4FF)%Z then 1 else 0)%Z /\
  Y2019.radar_track_msgs l'
  = (Y2019.radar_track_msgs logger
     + if Y2019.in_track_window (arbitration_id msg) then 1 else 0)%Z /\
  (Y2019.valid_tracks logger <= Y2019.valid_tracks l'
   <= Y2019.valid_tracks logger
      + if Y2019.in_track_window (arbitration_id msg) then 1 else 0)%Z /\
  Y2019.can0_tx l' = Y2019.can0_tx logger.
Proof.
  unfold Y2019.on_message_received.
  destruct (Z.eqb_spec (arbitration_id msg) 0x4FF) as [Heq|Hne].
  - assert (Y2019.in_track_window (arbitration_id msg) = false) as ->
      by (rewrite Heq; reflexivity).
    destruct (Y2019.same_payload _ _); simpl; repeat split; lia.
  - destruct (Y2019.in_track_window (arbitration_id msg));
      repeat case_match; simpl; repeat split; lia.
Qed.

(** X1.  Over any run of frames the listener of toyota_radar_2019.py counts
    in [radar_status_msgs] exactly the frames with id 0x4FF and in
    [radar_track_msgs] exactly the frames with an id in 0x210..0x21F;
    [valid_tracks] never decreases and grows by at most the number of track
    frames; the transmit counter [can0_tx] is left alone. *)
Theorem y2019_listener_counters (db : option Database) (frames : list Message) :
  forall logger,
    let l' := fst (Y2019.receive_all db frames logger) in
    Y2019.radar_status_msgs l'
    = (Y2019.radar_status_msgs logger
       + Z.of_nat (length (List.filter (fun m => (arbitration_id m =? 0x4FF)%Z) frames)))%Z /\
    Y2019.radar_track_msgs l'
    = (Y2019.radar_track_msgs logger
       + Z.of_nat (length (List.filter
                             (fun m => Y2019.in_track_window (arbitration_id m)) frames)))%Z /\
    (Y2019.valid_tracks logger <= Y2019.valid_tracks l'
     <= Y2019.valid_tracks logger
        + (Y2019.radar_track_msgs l' - Y2019.radar_track_msgs logger))%Z /\
    Y2019.can0_tx l' = Y2019.can0_tx logger.
Proof.
  induction frames as [|msg rest IH]; intros logger; cbn [Y2019.receive_all].
  - simpl. repeat split; lia.
  - pose proof (y2019_listener_step db msg logger) as Hstep. cbv zeta in Hstep.
    destruct (Y2019.on_message_received db msg logger) as [logger1 out1].
    specialize (IH logger1). cbv zeta in IH.
    destruct (Y2019.receive_all db rest logger1) as [logger2 out2].
    cbn [fst snd] in *. cbn [List.filter].
    destruct (arbitration_id msg =? 0x4FF)%Z,
             (Y2019.in_track_window (arbitration_id msg));
      cbn [length]; repeat split; lia.
Qed.

(** X2.  A status frame (id 0x4FF) is printed by the listener of
    toyota_radar_2019.py exactly when its payload differs from the last
    status payload seen; afterwards the payload is the remembered one, so the
    same status arriving again prints nothing.  A status frame never counts
    as a track. *)
Theorem y2019_status_printed_on_change (db : option Database) (payload : list byte)
    (logger : Y2019.MessageLogger) :
  let msg := mkMessage 0x4FF payload in
  let r := Y2019.on_message_received db msg logger in
  snd r = (if decide (Y2019.last_4ff_data logger = Some payload)
           then [] else [OutStatusNew payload]) /\
  Y2019.last_4ff_data (fst r) = Some payload /\
  snd (Y2019.on_message_received db msg (fst r)) = [] /\
  Y2019.radar_track_msgs (fst r) = Y2019.radar_track_msgs logger /\
  Y2019.valid_tracks (fst r) = Y2019.valid_tracks logger.
Proof.
  intros msg r. subst msg r. unfold Y2019.on_message_received.
  cbn [arbitration_id data]. simpl (0x4FF =? 0x4FF)%Z. cbv iota zeta.
  cbn [Y2019.last_4ff_data Y2019.can0_tx Y2019.can1_rx Y2019.radar_status_msgs
       Y2019.radar_track_msgs Y2019.valid_tracks].
  unfold Y2019.same_payload.
  destruct (Y2019.last_4ff_data logger) as [old|].
  - destruct (decide (Some old = Some payload)) as [Heq|Hne].
    + injection Heq as ->. rewrite bool_decide_eq_true_2 by reflexivity.
      cbn [fst snd Y2019.last_4ff_data Y2019.radar_track_msgs Y2019.valid_tracks].
      rewrite bool_decide_eq_true_2 by reflexivity. repeat split.
    + rewrite bool_decide_eq_false_2 by congruence.
      cbn [fst snd Y2019.last_4ff_data Y2019.radar_track_msgs Y2019.valid_tracks].
      rewrite bool_decide_eq_true_2 by reflexivity. repeat split.
  - destruct (decide (None = Some payload)) as [Heq|_]; [discriminate|].
    cbn [fst snd Y2019.last_4ff_data Y2019.radar_track_msgs Y2019.valid_tracks].
    rewrite bool_decide_eq_true_2 by reflexivity. repeat split.
Qed.

Lemma valid_reports_app (a b : list Output) :
  valid_reports (a ++ b) = valid_reports a ++ valid_reports b.
Proof.
  induction a as [|o rest IH]; [reflexivity|].
  destruct o; simpl; rewrite IH; reflexivity.
Qed.

Lemma y2019_no_dbc_step (msg : Message) (logger : Y2019.MessageLogger) :
  Y2019.valid_tracks (fst (Y2019.on_message_received None msg logger))
  = Y2019.valid_tracks logger /\
  valid_reports (snd (Y2019.on_message_received None msg logger)) = [].
Proof.
  unfold Y2019.on_message_received.
  repeat case_match; simpl; split; reflexivity.
Qed.

Lemma debug_no_dbc_step (self : Debug.OnCan) (msg : Message) :
  Debug.db self = None ->
  Debug.db (fst (Debug.on_message_received self msg)) = None /\
  Debug.valid_tracks (fst (Debug.on_message_received self msg))
  = Debug.valid_tracks self /\
  valid_reports (snd (Debug.on_message_received self msg)) = [].
Proof.
  intros Hdb. unfold Debug.on_message_received. cbn [Debug.db]. rewrite Hdb.
  destruct (Debug.in_track_window (arbitration_id msg)); simpl; repeat split.
Qed.

(** X3.  A listener whose DBC failed to load never reports or counts a valid
    track, whatever frames arrive: in toyota_radar_2019.py and
    toyota_radar_debug.py [valid_tracks] stays as it was and no track
    distance is printed; in toyota_radar_rpi.py a frame inside the window is
    printed raw and a frame outside it is not printed at all. *)
Theorem no_dbc_no_valid_track (frames : list Message) :
  (forall logger,
      Y2019.valid_tracks (fst (Y2019.receive_all None frames logger))
      = Y2019.valid_tracks logger /\
      valid_reports (snd (Y2019.receive_all None frames logger)) = []) /\
  (forall msg_count valid_tracks,
      let self := Debug.mkOnCan msg_count valid_tracks None in
      Debug.valid_tracks (fst (Debug.receive_all self frames)) = valid_tracks /\
      valid_reports (snd (Debug.receive_all self frames)) = []) /\
  (forall boo,
      Rpi.on_message_received None boo
      = if Rpi.in_track_window (arbitration_id boo)
        then [OutRaw (arbitration_id boo) (data boo)] else []).
Proof.
  split; [|split].
  - induction frames as [|msg rest IH]; intros logger; cbn [Y2019.receive_all].
    + split; reflexivity.
    + pose proof (y2019_no_dbc_step msg logger) as [Hv Hr].
      destruct (Y2019.on_message_received None msg logger) as [logger1 out1].
      specialize (IH logger1).
      destruct (Y2019.receive_all None rest logger1) as [logger2 out2].
      cbn [fst snd] in *. destruct IH as [IHv IHr].
      rewrite valid_reports_app, Hr, IHr, IHv, Hv. split; reflexivity.
  - intros msg_count valid_tracks self.
    assert (forall s, Debug.db s = None ->
              Debug.valid_tracks (fst (Debug.receive_all s frames))
              = Debug.valid_tracks s /\
              valid_reports (snd (Debug.receive_all s frames)) = []) as Hrun.
    { induction frames as [|msg rest IH]; intros s Hdb; cbn [Debug.receive_all].
      - split; reflexivity.
      - pose proof (debug_no_dbc_step s msg Hdb) as (Hdb1 & Hv & Hr).
        destruct (Debug.on_message_received s msg) as [s1 out1].
        cbn [fst snd] in *. specialize (IH s1 Hdb1).
        destruct (Debug.receive_all s1 rest) as [s2 out2].
        cbn [fst snd] in *. destruct IH as [IHv IHr].
        rewrite valid_reports_app, Hr, IHr, IHv, Hv. split; reflexivity. }
    apply (Hrun self). reflexivity.
  - intros boo. unfold Rpi.on_message_received.
    destruct (Rpi.in_track_window (arbitration_id boo)); reflexivity.
Qed.

(** X4.  The listener of toyota_radar_debug.py prints one line per frame
    for the frame itself and, for a frame with an id in 0x210..0x21F, exactly
    one more line saying what became of it (valid track, invalid track,
    decode error, or no DBC); [valid_tracks] grows by one exactly when that
    line is the valid-track line, and the loaded DBC is never replaced. *)
Theorem debug_listener_one_verdict_per_track_frame (self : Debug.OnCan) (msg : Message) :
  let r := Debug.on_message_received self msg in
  let rx := OutRx (arbitration_id msg) (data msg) in
  Debug.db (fst r) = Debug.db self /\
  (if Debug.in_track_window (arbitration_id msg)
   then exists verdict,
       snd r = [rx; verdict] /\
       ((exists d, verdict = OutValidTrack d /\
                   Debug.valid_tracks (fst r) = (Debug.valid_tracks self + 1)%Z) \/
        ((exists v, verdict = OutInvalidTrack v) \/ verdict = OutDecodeError \/
         verdict = OutNoDbc) /\
        Debug.valid_tracks (fst r) = Debug.valid_tracks self)
   else snd r = [rx] /\ Debug.valid_tracks (fst r) = Debug.valid_tracks self).
Proof.
  intros r rx. subst r rx. unfold Debug.on_message_received. cbn [Debug.db].
  destruct (Debug.in_track_window (arbitration_id msg)).
  - destruct (Debug.db self) as [decode|].
    + destruct (decode (arbitration_id msg) (data msg)) as [decoded|].
      * destruct (get_VALID_is_1 decoded); cbn [fst snd Debug.db Debug.valid_tracks];
          (split; [reflexivity|]); eexists; (split; [reflexivity|]); eauto 8.
      * cbn [fst snd Debug.db Debug.valid_tracks].
        split; [reflexivity|]. eexists. split; [reflexivity|]. eauto 8.
    + cbn [fst snd Debug.db Debug.valid_tracks].
      split; [reflexivity|]. eexists. split; [reflexivity|]. eauto 8.
  - cbn [fst snd Debug.db Debug.valid_tracks]. repeat split.
Qed.

(** * More on the main loops *)

Lemma y2019_rx_fields_kept_nil (v : Y2019.Vars) (st : option exn) :
  y2019_rx_fields_kept v [] st v.
Proof. repeat split. Qed.

Lemma y2019_rx_fields_kept_app (v : Y2019.Vars) tr1 (v1 : Y2019.Vars) tr2 st
    (v' : Y2019.Vars) :
  y2019_rx_fields_kept v tr1 None v1 -> y2019_rx_fields_kept v1 tr2 st v' ->
  y2019_rx_fields_kept v (tr1 ++ tr2) st v'.
Proof.
  unfold y2019_rx_fields_kept.
  intros (A1 & A2 & A3 & A4 & A5) (B1 & B2 & B3 & B4 & B5).
  repeat split; congruence.
Qed.

(** X5.  The transmission side of toyota_radar_2019.py never writes the
    receive statistics of the shared [logger]: over any run of the main loop
    and over [send_message], with any transport and codec, [can1_rx],
    [radar_status_msgs], [radar_track_msgs], [valid_tracks] and
    [last_4ff_data] are as before.  (The listener in turn leaves [can0_tx]
    alone, so every field has one writer.) *)
Theorem y2019_transmission_leaves_rx_fields :
  (forall env acc n s,
      y2019_rx_fields_kept (vars s) [] None
        (vars (snd (Y2019.main_loop env acc n s)))) /\
  (forall env bus msg_id payload s,
      y2019_rx_fields_kept (vars s) [] None
        (vars (snd (Y2019.send_message env bus msg_id payload s)))).
Proof.
  split.
  - intros env acc n s.
    assert (sat y2019_rx_fields_kept (Y2019.main_loop env acc n)) as Hsat.
    { unfold Y2019.main_loop.
      apply (sat_while_true _ y2019_rx_fields_kept_nil y2019_rx_fields_kept_app).
      unfold Y2019.tick, Y2019.send_static, Y2019.incr_can0_tx, sleep.
      repeat keeps_step y2019_rx_fields_kept y2019_rx_fields_kept_nil
                        y2019_rx_fields_kept_app;
        repeat split. }
    destruct (Hsat s) as (tr & _ & Hkept). exact Hkept.
  - intros env bus msg_id payload s.
    assert (sat y2019_rx_fields_kept (Y2019.send_message env bus msg_id payload))
      as Hsat.
    { unfold Y2019.send_message, Y2019.incr_can0_tx.
      repeat keeps_step y2019_rx_fields_kept y2019_rx_fields_kept_nil
                        y2019_rx_fields_kept_app;
        repeat split. }
    destruct (Hsat s) as (tr & _ & Hkept). exact Hkept.
Qed.

Lemma byte_of_small (cnt : Z) :
  (0 <= cnt < 256)%Z ->
  exists b, Byte.of_N (Z.to_N cnt) = Some b /\ Byte.to_N b = Z.to_N cnt.
Proof.
  intros Hrange.
  destruct (Byte.of_N (Z.to_N cnt)) as [b|] eqn:Hof.
  - exists b. split; [reflexivity|]. apply Byte.to_of_N. exact Hof.
  - apply Byte.of_N_None_iff in Hof. lia.
Qed.

(** X6.  The payload builder of the static loop (toyota_radar_rpi.py and
    toyota_radar_debug.py) never raises, for any table entry and any frame
    number.  For an entry with id 0x489 or 0x48a on bus 0 it appends exactly
    one byte to [vl], the rolling counter [(frame / 100) mod 15 + 1], which
    lies in 1..15, with bit 7 added for 0x48a; the counter repeats every 1500
    frames.  For every other entry the payload is [vl] itself. *)
Theorem tosend_appends_rolling_counter (t : Z) (e : StaticMsg) (s : Loop Z) :
  let counted := (((addr e =? 0x489) || (addr e =? 0x48a)) && (bus e =? 0))%Z in
  let cnt := ((t / 100) mod 15 + 1 + if (addr e =? 0x48a)%Z then 128 else 0)%Z in
  (1 <= (t / 100) mod 15 + 1 <= 15)%Z /\
  (if counted
   then exists b, Rpi.tosend t e s = (Ok (vl e ++ [b]), s) /\
                  Byte.to_N b = Z.to_N cnt
   else Rpi.tosend t e s = (Ok (vl e), s)) /\
  Rpi.tosend (t + 1500) e s = Rpi.tosend t e s /\
  (forall s' : Loop Debug.Vars,
      fst (Debug.tosend t e s') = fst (Rpi.tosend t e s) /\
      snd (Debug.tosend t e s') = s').
Proof.
  intros counted cnt. subst counted cnt.
  pose proof (Z.mod_pos_bound (t / 100) 15 ltac:(lia)) as Hmod.
  assert (((t + 1500) / 100) mod 15 = (t / 100) mod 15)%Z as Hperiod.
  { replace (t + 1500)%Z with (t + 15 * 100)%Z by lia.
    rewrite Z.div_add by lia.
    replace (t / 100 + 15)%Z with (t / 100 + 1 * 15)%Z by lia.
    apply Z.mod_add. lia. }
  split; [lia|].
  unfold Rpi.tosend, Debug.tosend. rewrite Hperiod.
  change (Z.shiftl 1 7) with 128%Z.
  destruct ((((addr e =? 0x489) || (addr e =? 0x48a)) && (bus e =? 0))%Z).
  - destruct (addr e =? 0x48a)%Z.
    + destruct (byte_of_small ((t / 100) mod 15 + 1 + 128)%Z ltac:(lia))
        as (b & Hof & Hto).
      unfold bytearray_append.
      replace ((0 <=? (t / 100) mod 15 + 1 + 128)%Z
               && ((t / 100) mod 15 + 1 + 128 <? 256)%Z) with true
        by (symmetry; apply andb_true_iff; split; lia).
      rewrite Hof. repeat split. exists b. split; [reflexivity | exact Hto].
    + destruct (byte_of_small ((t / 100) mod 15 + 1)%Z ltac:(lia))
        as (b & Hof & Hto).
      unfold bytearray_append.
      replace ((0 <=? (t / 100) mod 15 + 1)%Z
               && ((t / 100) mod 15 + 1 <? 256)%Z) with true
        by (symmetry; apply andb_true_iff; split; lia).
      rewrite Hof. repeat split. exists b. split; [reflexivity|].
      rewrite Hto. f_equal. lia.
  - repeat split.
Qed.

(** * The main blocks *)

Lemma y2019_counts_can0_nil (v : Y2019.Vars) (st : option exn) :
  y2019_counts_can0 v [] st v.
Proof. unfold y2019_counts_can0. simpl. lia. Qed.

Lemma y2019_counts_can0_app (v : Y2019.Vars) tr1 (v1 : Y2019.Vars) tr2 st
    (v' : Y2019.Vars) :
  y2019_counts_can0 v tr1 None v1 -> y2019_counts_can0 v1 tr2 st v' ->
  y2019_counts_can0 v (tr1 ++ tr2) st v'.
Proof. unfold y2019_counts_can0. intros H1 H2. rewrite sent_on_app. lia. Qed.

Lemma y2019_send_encoded_counts (env : CanEnv) (m : DbcMessage)
    (signals : gmap string pyval) :
  sat y2019_counts_can0 (Y2019Script.send_encoded env m signals).
Proof.
  unfold Y2019Script.send_encoded, Y2019.send_message, Y2019.incr_can0_tx.
  apply (sat_bind _ y2019_counts_can0_app).
  - apply sat_encode_message; intros; unfold y2019_counts_can0; simpl; lia.
  - intros payload. apply sat_send_then_modify;
      intros; unfold y2019_counts_can0; simpl; lia.
Qed.

Lemma y2019_startup_counts (env : CanEnv) (ms : Y2019Script.Messages) :
  sat y2019_counts_can0 (Y2019Script.startup_sequence env ms).
Proof.
  unfold Y2019Script.startup_sequence, sleep.
  repeat first
    [ apply y2019_send_encoded_counts
    | apply (sat_ret _ y2019_counts_can0_nil)
    | apply (sat_bind _ y2019_counts_can0_app); [|intros ?]
    | apply (sat_for_each _ y2019_counts_can0_nil y2019_counts_can0_app); intros ?
    | apply sat_emit; intros ?; unfold y2019_counts_can0; simpl; lia ].
Qed.

(** X7.  In toyota_radar_2019.py, from the start of the main block on,
    through the startup sequence and any number of passes of the loop, with
    any transport and codec, [logger.can0_tx] has grown by exactly the number
    of frames successfully sent on can0. *)
Theorem y2019_can0_tx_counts_whole_block (env : CanEnv) (db : DbcFile) (n : nat)
    (s : Loop Y2019.Vars) :
  let r := Y2019Script.main_block env db n s in
  exists tr,
    trace (snd r) = trace s ++ tr /\
    Y2019.can0_tx (Y2019.logger (vars (snd r)))
    = (Y2019.can0_tx (Y2019.logger (vars s)) + sent_on Can0 tr)%Z.
Proof.
  assert (sat y2019_counts_can0 (Y2019Script.main_block env db n)) as Hsat.
  { unfold Y2019Script.main_block. cbv zeta.
    apply (sat_bind _ y2019_counts_can0_app).
    { apply sat_modify. intros v. unfold y2019_counts_can0. simpl. lia. }
    intros _. apply (sat_bind _ y2019_counts_can0_app).
    { destruct (Y2019Script.lookup_messages db) as [ms|].
      - apply y2019_startup_counts.
      - apply (sat_ret _ y2019_counts_can0_nil). }
    intros _.
    apply (sat_weaken y2019_keeps); [|apply y2019_main_loop_keeps].
    intros v tr st v' (_ & _ & Hcount). exact Hcount. }
  intros r. destruct (Hsat s) as (tr & Htr & Hcount).
  exists tr. split; assumption.
Qed.

Lemma no_encode_nil {V} (v : V) (st : option exn) : no_encode v [] st v.
Proof. constructor. Qed.

Lemma no_encode_app {V} (v : V) tr1 (v1 : V) tr2 st (v' : V) :
  no_encode v tr1 None v1 -> no_encode v1 tr2 st v' -> no_encode v (tr1 ++ tr2) st v'.
Proof. intros H1 H2. apply Forall_app. split; assumption. Qed.

Lemma lookup_messages_missing (db : DbcFile) (name : string) :
  In name startup_names -> db name = None -> Y2019Script.lookup_messages db = None.
Proof.
  intros Hin Hnone. unfold Y2019Script.lookup_messages.
  simpl in Hin.
  destruct Hin as [<-|[<-|[<-|[<-|[<-|[]]]]]]; rewrite Hnone;
    repeat case_match; reflexivity.
Qed.

(** X8.  When the control DBC lacks one of ACC_CONTROL, SPEED, PCM_CRUISE,
    PCM_CRUISE_2 or PCM_CRUISE_SM, toyota_radar_2019.py goes on without any
    control frame: the startup sequence is skipped and no pass of the loop
    encodes ACC_CONTROL, so the main block makes no encode call at all. *)
Theorem y2019_missing_message_no_control_frame
    (env : CanEnv) (db : DbcFile) (name : string) (n : nat) (s : Loop Y2019.Vars)
    (Hname : In name startup_names) (Hmissing : db name = None) :
  exists tr,
    trace (snd (Y2019Script.main_block env db n s)) = trace s ++ tr /\
    Forall (fun ev => match ev with
                      | EvEncode _ _ | EvEncodeFailed _ _ _ => False
                      | _ => True
                      end) tr.
Proof.
  assert (sat no_encode (Y2019Script.main_block env db n)) as Hsat.
  { unfold Y2019Script.main_block.
    rewrite (lookup_messages_missing db name Hname Hmissing). cbv zeta.
    unfold Y2019.main_loop. cbn [option_map].
    apply (sat_bind _ no_encode_app).
    { apply sat_modify. intros v. constructor. }
    intros _. apply (sat_bind _ no_encode_app).
    { apply (sat_ret _ no_encode_nil). }
    intros _. apply (sat_while_true _ no_encode_nil no_encode_app).
    unfold Y2019.tick, Y2019.send_static, Y2019.incr_can0_tx, sleep.
    repeat keeps_step (@no_encode Y2019.Vars) (@no_encode_nil Y2019.Vars)
                      (@no_encode_app Y2019.Vars);
      unfold no_encode; repeat constructor. }
  destruct (Hsat s) as (tr & Htr & Hno). exists tr. split; assumption.
Qed.

Lemma y2019_missing_message_no_control_frame_witness :
  exists tr,
    trace (snd (Y2019Script.main_block env_ok sample_db_incomplete 3
                  (mkLoop (Y2019.mkVars 0 Y2019.logger0) [])))
    = [] ++ tr /\
    Forall (fun ev => match ev with
                      | EvEncode _ _ | EvEncodeFailed _ _ _ => False
                      | _ => True
                      end) tr.
Proof.
  apply (y2019_missing_message_no_control_frame env_ok sample_db_incomplete
           "PCM_CRUISE_SM" 3 (mkLoop (Y2019.mkVars 0 Y2019.logger0) [])).
  - simpl. tauto.
  - reflexivity.
Defined.

(** X9.  How the two scripts end.  Whatever exception leaves the main block
    of toyota_radar_rpi.py (a keyboard interrupt, a failed send or encode, a
    missing DBC message), the script runs its cleanup and ends normally.  In
    toyota_radar_2019.py the cleanup runs as well, but only a keyboard
    interrupt ends the script normally: any other exception, such as a failed
    send, reaches the interpreter. *)
Theorem script_exit_behaviour :
  (forall env db call n s,
      let b := RpiScript.main_block env db n s in
      RpiScript.script env db call n s
      = match fst b with
        | Ok _ => (StillLooping, snd b)
        | Raise _ => (Exited, snd (Rpi.cleanup call (snd b)))
        end) /\
  (forall env db call n s,
      let b := Y2019Script.main_block env db n s in
      Y2019Script.script env db call n s
      = match fst b with
        | Ok _ => (StillLooping, snd b)
        | Raise e => (if is_KeyboardInterrupt e then Exited else Propagated e,
                      snd (Y2019.cleanup call (snd b)))
        end) /\
  fst (RpiScript.script env_down sample_db sample_call_z 5 (mkLoop 0%Z [])) = Exited /\
  fst (Y2019Script.script env_down sample_db sample_call_2019 5
         (mkLoop (Y2019.mkVars 0 Y2019.logger0) []))
  = Propagated CanError.
Proof.
  split; [|split; [|split]].
  - intros env db call n s b. subst b. unfold RpiScript.script.
    destruct (RpiScript.main_block env db n s) as [[[]|e] s1]; [reflexivity|].
    rewrite rpi_cleanup_returns. reflexivity.
  - intros env db call n s b. subst b. unfold Y2019Script.script.
    destruct (Y2019Script.main_block env db n s) as [[[]|e] s1]; [reflexivity|].
    cbn [fst snd].
    pose proof (y2019_cleanup_returns call s1) as Hok.
    destruct (Y2019.cleanup call s1) as [[[]|e'] s2]; [reflexivity | discriminate Hok].
  - vm_compute. reflexivity.
  - vm_compute. reflexivity.
Qed.

(** X10.  When the control DBC lacks one of ACC_CONTROL, SPEED, PCM_CRUISE,
    PCM_CRUISE_2 or PCM_CRUISE_SM, toyota_radar_rpi.py never reaches its
    keep-alive loop: the main block raises before the loop, however many
    passes were due, and the script ends after the cleanup. *)
Theorem rpi_missing_message_never_loops
    (env : CanEnv) (db : DbcFile) (call : CleanupCall -> M Z unit) (name : string)
    (n : nat) (s : Loop Z)
    (Hname : In name startup_names) (Hmissing : db name = None) :
  (exists e, fst (RpiScript.main_block env db n s) = Raise e /\
             fst (RpiScript.main_block env db 0 s) = Raise e) /\
  fst (RpiScript.script env db call n s) = Exited.
Proof.
  assert (exists e s1, forall k, RpiScript.main_block env db k s = (Raise e, s1))
    as (e & s1 & Hblock).
  { unfold RpiScript.main_block, RpiScript.send_init, get_message_by_name.
    simpl in Hname.
    destruct Hname as [<-|[<-|[<-|[<-|[<-|[]]]]]];
      unfold bind, ret, raise, put, encode_message, send; rewrite ?Hmissing;
      repeat (first [ rewrite Hmissing | case_match ]; simplify_eq; cbn [fst snd]);
      try (eexists _, _; intros k; reflexivity). }
  split.
  - exists e. rewrite !Hblock. split; reflexivity.
  - unfold RpiScript.script. rewrite Hblock, rpi_cleanup_returns. reflexivity.
Qed.

Lemma rpi_missing_message_never_loops_witness :
  (exists e,
      fst (RpiScript.main_block env_ok sample_db_incomplete 7 (mkLoop 0%Z [])) = Raise e /\
      fst (RpiScript.main_block env_ok sample_db_incomplete 0 (mkLoop 0%Z [])) = Raise e) /\
  fst (RpiScript.script env_ok sample_db_incomplete sample_call_z 7 (mkLoop 0%Z []))
  = Exited.
Proof.
  apply (rpi_missing_message_never_loops env_ok sample_db_incomplete sample_call_z
           "PCM_CRUISE_SM" 7 (mkLoop 0%Z [])).
  - simpl. tauto.
  - reflexivity.
Defined.

(** * fix_dbc.py *)

Section FixDbcFilter.

Variable ucd : FixDbc.UnicodeData.

(** Splits one step of [scan] into its six cases. *)
Ltac scan_cases line cur :=
  destruct (FixDbc.match_message ucd line) as [?|] eqn:?;
  [| destruct (FixDbc.match_signal ucd line) as [?|] eqn:?;
     [ destruct cur as [[|? ?]|];
       [| destruct (bool_decide _) eqn:? |]
     |] ].

(** Names the recursive call of [scan] in the goal, brings in the induction
    hypothesis for it, and splits its result. *)
Ltac scan_rec IH :=
  match goal with
  | |- context [FixDbc.scan ucd ?c ?m ?l] =>
      let H := fresh "Hrec" in
      pose proof (IH c m) as H; cbv zeta in H;
      destruct (FixDbc.scan ucd c m l) as [? ?]
  end.

Lemma scan_sublist_and_count (lines : list FixDbc.text) :
  forall current_message seen_signals,
    let r := FixDbc.scan ucd current_message seen_signals lines in
    sublist (fst r) lines /\
    (length (fst r) + length (snd r) = length lines)%nat.
Proof.
  induction lines as [|line rest IH]; intros cur seen; cbn [FixDbc.scan].
  - split; [constructor | reflexivity].
  - scan_cases line cur; scan_rec IH; cbn [fst snd length] in *;
      destruct Hrec as [Hsub Hlen];
      (split; [first [apply sublist_skip; exact Hsub | apply sublist_cons; exact Hsub] | lia]).
Qed.

(** X11.  The duplicate filter of fix_dbc.py only drops lines: the lines
    kept are a subsequence of the input, in order, and the lines kept plus
    the duplicates removed are as many as the input lines, whatever message
    was current and whatever signals had been seen. *)
Theorem scan_only_drops_lines (lines : list FixDbc.text) :
  forall current_message seen_signals,
    let r := FixDbc.scan ucd current_message seen_signals lines in
    sublist (fst r) lines /\
    (length (fst r) + length (snd r) = length lines)%nat.
Proof. exact (scan_sublist_and_count lines). Qed.

(** X12.  The filter never removes anything but signal definitions: every
    line that is a message definition, or that the signal pattern does not
    match, is kept, in its place. *)
Theorem scan_keeps_other_lines (lines : list FixDbc.text) :
  forall current_message seen_signals,
    List.filter (fun l => negb (FixDbc.is_signal_line ucd l))
      (fst (FixDbc.scan ucd current_message seen_signals lines))
    = List.filter (fun l => negb (FixDbc.is_signal_line ucd l)) lines.
Proof.
  induction lines as [|line rest IH]; intros cur seen; cbn [FixDbc.scan].
  - reflexivity.
  - cbn [List.filter].
    assert (FixDbc.is_signal_line ucd line
            = match FixDbc.match_message ucd line, FixDbc.match_signal ucd line with
              | None, Some _ => true
              | _, _ => false
              end) as Hsl by reflexivity.
    scan_cases line cur; scan_rec IH; cbn [fst snd List.filter] in *;
      repeat match goal with
             | H : FixDbc.match_message ucd line = _ |- _ => rewrite H in Hsl; clear H
             | H : FixDbc.match_signal ucd line = _ |- _ => rewrite H in Hsl; clear H
             end;
      rewrite Hsl; cbn [negb]; rewrite ?Hrec; reflexivity.
Qed.

(** X13.  Signals are only deduplicated inside a message: in a file, or a
    leading part of a file, without any [BO_] line, and with no message
    current, nothing is removed. *)
Theorem scan_without_message_keeps_all (lines : list FixDbc.text)
    (seen_signals : gmap FixDbc.text (gset FixDbc.text))
    (Hno_message : Forall (fun l => FixDbc.match_message ucd l = None) lines) :
  FixDbc.scan ucd None seen_signals lines = (lines, []).
Proof.
  induction Hno_message as [|line rest Hline _ IH]; cbn [FixDbc.scan].
  - reflexivity.
  - rewrite Hline. destruct (FixDbc.match_signal ucd line); rewrite IH; reflexivity.
Qed.

Lemma scan_idempotent_from (lines : list FixDbc.text) :
  forall current_message seen1 seen2,
    (forall m, current_message = Some m -> seen2 !!! m ⊆ seen1 !!! m) ->
    FixDbc.scan ucd current_message seen2
      (fst (FixDbc.scan ucd current_message seen1 lines))
    = (fst (FixDbc.scan ucd current_message seen1 lines), []).
Proof.
  induction lines as [|line rest IH]; intros cur seen1 seen2 Hsub;
    cbn [FixDbc.scan].
  - reflexivity.
  - destruct (FixDbc.match_message ucd line) as [name|] eqn:Hmsg.
    + specialize (IH (Some name) (<[name := ∅]> seen1) (<[name := ∅]> seen2)).
      destruct (FixDbc.scan ucd (Some name) (<[name := ∅]> seen1) rest)
        as [fixed removed].
      cbn [fst snd FixDbc.scan] in *. rewrite Hmsg, IH; [reflexivity|].
      intros m [= <-]. rewrite !lookup_total_insert_eq. reflexivity.
    + destruct (FixDbc.match_signal ucd line) as [sig|] eqn:Hsig.
      * destruct cur as [[|c m]|].
        -- specialize (IH (Some []) seen1 seen2 Hsub).
           destruct (FixDbc.scan ucd (Some []) seen1 rest) as [fixed removed].
           cbn [fst snd FixDbc.scan] in *. rewrite Hmsg, Hsig, IH. reflexivity.
        -- destruct (bool_decide (sig ∈ seen1 !!! (c :: m))) eqn:Hdup.
           ++ specialize (IH (Some (c :: m)) seen1 seen2 Hsub).
              destruct (FixDbc.scan ucd (Some (c :: m)) seen1 rest) as [fixed removed].
              cbn [fst snd] in *. exact IH.
           ++ apply bool_decide_eq_false in Hdup.
              specialize (IH (Some (c :: m))
                            (<[c :: m := {[sig]} ∪ seen1 !!! (c :: m)]> seen1)
                            (<[c :: m := {[sig]} ∪ seen2 !!! (c :: m)]> seen2)).
              destruct (FixDbc.scan ucd (Some (c :: m))
                          (<[c :: m := {[sig]} ∪ seen1 !!! (c :: m)]> seen1) rest)
                as [fixed removed].
              cbn [fst snd FixDbc.scan] in *. rewrite Hmsg, Hsig.
              rewrite bool_decide_eq_false_2
                by (intros Hin; apply Hdup; revert Hin; apply Hsub; reflexivity).
              rewrite IH; [reflexivity|].
              intros m' [= <-]. rewrite !lookup_total_insert_eq.
              specialize (Hsub (c :: m) eq_refl). set_solver.
        -- specialize (IH None seen1 seen2 Hsub).
           destruct (FixDbc.scan ucd None seen1 rest) as [fixed removed].
           cbn [fst snd FixDbc.scan] in *. rewrite Hmsg, Hsig, IH. reflexivity.
      * specialize (IH cur seen1 seen2 Hsub).
        destruct (FixDbc.scan ucd cur seen1 rest) as [fixed removed].
        cbn [fst snd FixDbc.scan] in *. rewrite Hmsg, Hsig, IH. reflexivity.
Qed.

(** X14.  The filter is idempotent: run again on the lines it kept, from
    the same state, it keeps them all and removes nothing.  So fixing a file
    that is already fixed changes nothing. *)
Theorem scan_idempotent (lines : list FixDbc.text)
    (current_message : option FixDbc.text)
    (seen_signals : gmap FixDbc.text (gset FixDbc.text)) :
  FixDbc.scan ucd current_message seen_signals
    (fst (FixDbc.scan ucd current_message seen_signals lines))
  = (fst (FixDbc.scan ucd current_message seen_signals lines), []).
Proof. apply scan_idempotent_from. intros m _. reflexivity. Qed.

Lemma signal_names_cons (line : FixDbc.text) (rest : list FixDbc.text) :
  FixDbc.signal_names ucd (line :: rest)
  = match FixDbc.match_signal ucd line with
    | Some sig => sig :: FixDbc.signal_names ucd rest
    | None => FixDbc.signal_names ucd rest
    end.
Proof. reflexivity. Qed.

Lemma signal_names_snoc (earlier : list FixDbc.text) (line : FixDbc.text) :
  FixDbc.signal_names ucd (earlier ++ [line])
  = FixDbc.signal_names ucd earlier
    ++ match FixDbc.match_signal ucd line with
       | Some sig => [sig]
       | None => []
       end.
Proof.
  unfold FixDbc.signal_names. rewrite omap_app. reflexivity.
Qed.

Lemma scan_block (body : list FixDbc.text) (c : Z) (m : FixDbc.text) :
  Forall (fun l => FixDbc.match_message ucd l = None) body ->
  forall seen,
    let r := FixDbc.scan ucd (Some (c :: m)) seen body in
    List.NoDup (FixDbc.signal_names ucd (fst r)) /\
    (forall x, In x (FixDbc.signal_names ucd (fst r)) <->
               In x (FixDbc.signal_names ucd body) /\ x ∉ seen !!! (c :: m)) /\
    (length (snd r) + length (FixDbc.signal_names ucd (fst r))
     = length (FixDbc.signal_names ucd body))%nat.
Proof.
  induction 1 as [|line rest Hline _ IH]; intros seen; cbn [FixDbc.scan].
  - cbn. split; [constructor|]. split; [|reflexivity]. intros x. tauto.
  - rewrite Hline. rewrite (signal_names_cons line rest).
    destruct (FixDbc.match_signal ucd line) as [sig|] eqn:Hsig.
    + destruct (bool_decide (sig ∈ seen !!! (c :: m))) eqn:Hdup.
      * apply bool_decide_eq_true in Hdup.
        specialize (IH seen). cbv zeta in IH.
        destruct (FixDbc.scan ucd (Some (c :: m)) seen rest) as [fixed removed].
        cbn [fst snd length] in *. destruct IH as (Hnd & Hin & Hlen).
        split; [exact Hnd|]. split; [|lia].
        intros x. rewrite Hin. cbn [In]. split; [tauto|].
        intros [[<-|Hx] Hnot]; [contradiction | tauto].
      * apply bool_decide_eq_false in Hdup.
        specialize (IH (<[c :: m := {[sig]} ∪ seen !!! (c :: m)]> seen)).
        cbv zeta in IH.
        destruct (FixDbc.scan ucd (Some (c :: m))
                    (<[c :: m := {[sig]} ∪ seen !!! (c :: m)]> seen) rest)
          as [fixed removed].
        cbn [fst snd length] in *. destruct IH as (Hnd & Hin & Hlen).
        rewrite lookup_total_insert_eq in Hin.
        rewrite (signal_names_cons line fixed), Hsig. cbn [length In].
        split; [|split; [|lia]].
        -- constructor; [|exact Hnd]. rewrite Hin. set_solver.
        -- intros x. rewrite Hin. split.
           ++ intros [<-|[Hx Hnot]]; [tauto|]. split; [tauto | set_solver].
           ++ intros [[<-|Hx] Hnot]; [tauto|].
              destruct (decide (x = sig)) as [->|Hne]; [tauto|].
              right. split; [exact Hx | set_solver].
    + specialize (IH seen). cbv zeta in IH.
      destruct (FixDbc.scan ucd (Some (c :: m)) seen rest) as [fixed removed].
      cbn [fst snd length] in *. rewrite (signal_names_cons line fixed), Hsig.
      exact IH.
Qed.

(** Inside a message, a line is dropped exactly when it defines a signal
    that the set of seen signals holds; the set holds the signals of the
    lines that came earlier. *)
Lemma scan_block_keeps_first (body : list FixDbc.text) (c : Z) (m : FixDbc.text) :
  Forall (fun l => FixDbc.match_message ucd l = None) body ->
  forall seen earlier,
    (forall x, x ∈ seen !!! (c :: m) <-> x ∈ FixDbc.signal_names ucd earlier) ->
    fst (FixDbc.scan ucd (Some (c :: m)) seen body)
    = concat (imap (fun i line =>
                      if FixDbc.defined_earlier ucd (earlier ++ take i body) line
                      then [] else [line]) body).
Proof.
  induction 1 as [|line rest Hline _ IH]; intros seen earlier Hseen;
    cbn [FixDbc.scan].
  - reflexivity.
  - rewrite Hline. rewrite imap_cons. cbn [concat take]. rewrite app_nil_r.
    assert (Hrest : forall seen',
               (forall x, x ∈ seen' !!! (c :: m)
                          <-> x ∈ FixDbc.signal_names ucd (earlier ++ [line])) ->
               fst (FixDbc.scan ucd (Some (c :: m)) seen' rest)
               = concat (imap ((fun i l =>
                                  if FixDbc.defined_earlier ucd
                                       (earlier ++ take i (line :: rest)) l
                                  then [] else [l]) ∘ S) rest)).
    { intros seen' Hseen'. rewrite (IH seen' (earlier ++ [line]) Hseen').
      f_equal. apply imap_ext. intros i l _. cbn [compose take].
      rewrite <- app_assoc. reflexivity. }
    unfold FixDbc.defined_earlier at 1.
    destruct (FixDbc.match_signal ucd line) as [sig|] eqn:Hsig.
    + destruct (bool_decide (sig ∈ seen !!! (c :: m))) eqn:Hdup.
      * apply bool_decide_eq_true in Hdup.
        rewrite bool_decide_eq_true_2 by (apply Hseen; exact Hdup).
        specialize (Hrest seen).
        destruct (FixDbc.scan ucd (Some (c :: m)) seen rest) as [fixed removed].
        cbn [fst snd app] in *. apply Hrest.
        intros x. rewrite signal_names_snoc, Hsig, Hseen. set_solver.
      * apply bool_decide_eq_false in Hdup.
        rewrite bool_decide_eq_false_2 by (rewrite <- Hseen; exact Hdup).
        specialize (Hrest (<[c :: m := {[sig]} ∪ seen !!! (c :: m)]> seen)).
        destruct (FixDbc.scan ucd (Some (c :: m))
                    (<[c :: m := {[sig]} ∪ seen !!! (c :: m)]> seen) rest)
          as [fixed removed].
        cbn [fst snd app] in *. f_equal. apply Hrest.
        intros x. rewrite lookup_total_insert_eq, signal_names_snoc, Hsig.
        rewrite elem_of_union, elem_of_app, Hseen. set_solver.
    + specialize (Hrest seen).
      destruct (FixDbc.scan ucd (Some (c :: m)) seen rest) as [fixed removed].
      cbn [fst snd app] in *. f_equal. apply Hrest.
      intros x. rewrite signal_names_snoc, Hsig, app_nil_r. apply Hseen.
Qed.

Lemma match_message_nonempty (line name : FixDbc.text) :
  FixDbc.match_message ucd line = Some name -> exists c m, name = c :: m.
Proof.
  unfold FixDbc.match_message. intros H.
  repeat case_match; simplify_eq. eauto.
Qed.

(** X15.  Within one message the filter keeps exactly the first definition
    of every signal.  For a [BO_] line followed by lines without another
    [BO_] line, a line of the body is dropped exactly when it defines a
    signal that an earlier line of the body defines, and every other line is
    kept, in order.  So the signal names of the lines kept are pairwise
    distinct, they are the same names as in the input, and the number of
    lines removed is the number of repeated definitions. *)
Theorem scan_message_keeps_first_definitions
    (header name : FixDbc.text) (body : list FixDbc.text)
    (Hheader : FixDbc.match_message ucd header = Some name)
    (Hbody : Forall (fun l => FixDbc.match_message ucd l = None) body) :
  exists fixed removed,
    FixDbc.scan ucd None ∅ (header :: body) = (header :: fixed, removed) /\
    fixed = concat (imap (fun i line =>
                            if FixDbc.defined_earlier ucd (take i body) line
                            then [] else [line]) body) /\
    List.NoDup (FixDbc.signal_names ucd fixed) /\
    (forall x, In x (FixDbc.signal_names ucd fixed)
               <-> In x (FixDbc.signal_names ucd body)) /\
    (length removed + length (FixDbc.signal_names ucd fixed)
     = length (FixDbc.signal_names ucd body))%nat.
Proof.
  destruct (match_message_nonempty header name Hheader) as (c & m & ->).
  pose proof (scan_block body c m Hbody (<[c :: m := ∅]> ∅)) as Hblock.
  pose proof (scan_block_keeps_first body c m Hbody (<[c :: m := ∅]> ∅) []) as Hfirst.
  cbv zeta in Hblock. cbn [FixDbc.scan]. rewrite Hheader.
  destruct (FixDbc.scan ucd (Some (c :: m)) (<[c :: m := ∅]> ∅) body)
    as [fixed removed].
  cbn [fst snd app] in *. destruct Hblock as (Hnd & Hin & Hlen).
  exists fixed, removed. split; [reflexivity|].
  split.
  { apply Hfirst. intros x. rewrite lookup_total_insert_eq. cbn. set_solver. }
  split; [exact Hnd|]. split; [|exact Hlen].
  intros x. rewrite Hin, lookup_total_insert_eq. set_solver.
Qed.

Lemma sublist_same_length {A} (l1 l2 : list A) :
  sublist l1 l2 -> (length l2 <= length l1)%nat -> l1 = l2.
Proof.
  induction 1 as [|x l1 l2 Hsub IH|x l1 l2 Hsub IH]; cbn [length]; intros Hlen.
  - reflexivity.
  - f_equal. apply IH. lia.
  - apply sublist_length in Hsub. lia.
Qed.

Lemma scan_nothing_removed (lines : list FixDbc.text) cur seen :
  snd (FixDbc.scan ucd cur seen lines) = [] ->
  fst (FixDbc.scan ucd cur seen lines) = lines.
Proof.
  intros Hnone.
  destruct (scan_sublist_and_count lines cur seen) as [Hsub Hlen].
  rewrite Hnone in Hlen. simpl in Hlen.
  apply sublist_same_length; [exact Hsub | lia].
Qed.

End FixDbcFilter.

Lemma scan_without_message_keeps_all_witness :
  FixDbc.scan sample_ucd None ∅ (drop 2 sample_dbc_lines)
  = (drop 2 sample_dbc_lines, []).
Proof.
  apply scan_without_message_keeps_all.
  repeat constructor.
Defined.

Lemma scan_message_keeps_first_definitions_witness :
  exists fixed removed,
    FixDbc.scan sample_ucd None ∅ (drop 1 sample_dbc_lines)
    = ((FixDbc.codes "BO_ 528 TRACK_A_0: 8 XXX" ++ [10]) :: fixed, removed) /\
    fixed = concat (imap (fun i line =>
                            if FixDbc.defined_earlier sample_ucd
                                 (take i (drop 2 sample_dbc_lines)) line
                            then [] else [line]) (drop 2 sample_dbc_lines)) /\
    List.NoDup (FixDbc.signal_names sample_ucd fixed) /\
    (forall x, In x (FixDbc.signal_names sample_ucd fixed) <->
               In x (FixDbc.signal_names sample_ucd (drop 2 sample_dbc_lines))) /\
    (length removed + length (FixDbc.signal_names sample_ucd fixed)
     = length (FixDbc.signal_names sample_ucd (drop 2 sample_dbc_lines)))%nat.
Proof.
  apply (scan_message_keeps_first_definitions sample_ucd
           (FixDbc.codes "BO_ 528 TRACK_A_0: 8 XXX" ++ [10])
           (FixDbc.codes "TRACK_A_0") (drop 2 sample_dbc_lines)).
  - reflexivity.
  - repeat constructor.
Defined.

Lemma concat_readlines (content : FixDbc.text) :
  concat (FixDbc.readlines content) = content.
Proof.
  induction content as [|c rest IH]; cbn [FixDbc.readlines]; [reflexivity|].
  destruct (c =? 10)%Z.
  - cbn [concat app]. rewrite IH. reflexivity.
  - destruct (FixDbc.readlines rest) as [|line lines].
    + cbn in *. subst rest. reflexivity.
    + cbn [concat app] in *. rewrite IH. reflexivity.
Qed.

Lemma readlines_whole_lines (content : FixDbc.text) :
  FixDbc.whole_lines (FixDbc.readlines content).
Proof.
  induction content as [|c rest IH]; cbn [FixDbc.readlines]; [constructor|].
  destruct (Z.eqb_spec c 10) as [->|Hc].
  - apply (FixDbc.whole_lines_cons []); [set_solver | exact IH].
  - destruct (FixDbc.readlines rest) as [|line lines].
    + apply FixDbc.whole_lines_last; [discriminate | set_solver].
    + inversion IH as [|l Hne Hlf|body ls Hlf Hls]; subst.
      * apply FixDbc.whole_lines_last; [discriminate | set_solver].
      * apply (FixDbc.whole_lines_cons (c :: body)); [set_solver | exact Hls].
Qed.

Lemma readlines_last_line (line : FixDbc.text) :
  line <> [] -> 10 ∉ line -> FixDbc.readlines line = [line].
Proof.
  induction line as [|c rest IH]; intros Hne Hlf; [contradiction|].
  cbn [FixDbc.readlines].
  destruct (Z.eqb_spec c 10) as [->|Hc]; [set_solver|].
  destruct rest as [|d rest]; [reflexivity|].
  rewrite IH; [reflexivity | discriminate | set_solver].
Qed.

Lemma readlines_whole_line (body rest : FixDbc.text) :
  10 ∉ body ->
  FixDbc.readlines ((body ++ [10]) ++ rest) = (body ++ [10]) :: FixDbc.readlines rest.
Proof.
  induction body as [|c body IH]; intros Hlf.
  - reflexivity.
  - cbn [app FixDbc.readlines].
    destruct (Z.eqb_spec c 10) as [->|Hc]; [set_solver|].
    cbn [app] in IH. rewrite IH by set_solver. reflexivity.
Qed.

Lemma readlines_concat (lines : list FixDbc.text) :
  FixDbc.whole_lines lines -> FixDbc.readlines (concat lines) = lines.
Proof.
  induction 1 as [|line Hne Hlf|body lines Hlf _ IH].
  - reflexivity.
  - cbn [concat]. rewrite app_nil_r. apply readlines_last_line; assumption.
  - cbn [concat]. rewrite readlines_whole_line by exact Hlf. rewrite IH. reflexivity.
Qed.

Lemma whole_lines_sublist (kept lines : list FixDbc.text) :
  sublist kept lines -> FixDbc.whole_lines lines -> FixDbc.whole_lines kept.
Proof.
  induction 1 as [|x l1 l2 Hsub IH|x l1 l2 Hsub IH]; intros Hwhole.
  - constructor.
  - inversion Hwhole as [|l Hne Hlf|body ls Hlf Hls]; subst.
    + apply sublist_nil_r in Hsub. subst l1. exact Hwhole.
    + apply FixDbc.whole_lines_cons; [exact Hlf | apply IH; exact Hls].
  - apply IH. inversion Hwhole; subst; [constructor | assumption].
Qed.

Lemma backup_path_differs (p : FixDbc.text) : p ++ FixDbc.codes ".backup" <> p.
Proof.
  intros H. apply (f_equal length) in H. rewrite length_app in H. cbn in H. lia.
Qed.

Lemma fix_dbc_file_spec (ucd : FixDbc.UnicodeData) (fs : gmap FixDbc.text FixDbc.File)
    (filepath : FixDbc.text) :
  let r := FixDbc.fix_dbc_file ucd fs filepath in
  let backup_path := filepath ++ FixDbc.codes ".backup" in
  match fs !! filepath with
  | None => r = (Ok false, fs)
  | Some FixDbc.Undecodable => r = (Raise ValueError, fs)
  | Some (FixDbc.Text content) =>
      fst r = Ok true /\
      snd r !! filepath
      = Some (FixDbc.Text
                (concat (fst (FixDbc.scan ucd None ∅ (FixDbc.readlines content))))) /\
      snd r !! backup_path = Some (default (FixDbc.Text content) (fs !! backup_path)) /\
      (forall q, q <> filepath -> q <> backup_path -> snd r !! q = fs !! q)
  end.
Proof.
  intros r backup_path. subst r. unfold FixDbc.fix_dbc_file.
  destruct (fs !! filepath) as [[|content]|] eqn:Hfile; [| |reflexivity].
  - fold backup_path. destruct (fs !! backup_path); [|reflexivity].
    rewrite Hfile. reflexivity.
  - fold backup_path.
    assert (backup_path <> filepath) as Hne by apply backup_path_differs.
    assert (exists fs1,
               match fs !! backup_path with
               | Some _ => Ok fs
               | None => Ok (<[backup_path := FixDbc.Text content]> fs)
               end = Ok fs1 /\
               fs1 !! filepath = Some (FixDbc.Text content) /\
               fs1 !! backup_path
               = Some (default (FixDbc.Text content) (fs !! backup_path)) /\
               (forall q, q <> backup_path -> fs1 !! q = fs !! q))
      as (fs1 & -> & Hread & Hbackup & Hother).
    { destruct (fs !! backup_path) as [old|] eqn:Hold; eexists; (split; [reflexivity|]).
      - split; [exact Hfile|]. split; [exact Hold|]. reflexivity.
      - split; [rewrite lookup_insert_ne by exact Hne; exact Hfile|].
        split; [apply lookup_insert_eq|].
        intros q Hq. apply lookup_insert_ne. congruence. }
    rewrite Hread.
    pose proof (scan_nothing_removed ucd (FixDbc.readlines content) None ∅) as Hsame.
    destruct (FixDbc.scan ucd None ∅ (FixDbc.readlines content)) as [fixed removed].
    cbn [fst snd] in *.
    destruct removed as [|dup removed].
    + cbn [length Z.of_nat Z.ltb Z.compare fst snd].
      rewrite (Hsame eq_refl), concat_readlines.
      split; [reflexivity|]. split; [exact Hread|]. split; [exact Hbackup|].
      intros q _ Hq. apply Hother. exact Hq.
    + replace (0 <? Z.of_nat (length (dup :: removed)))%Z with true
        by (symmetry; apply Z.ltb_lt; cbn [length]; lia).
      cbn [fst snd]. split; [reflexivity|].
      split; [apply lookup_insert_eq|].
      split.
      * rewrite lookup_insert_ne by congruence. exact Hbackup.
      * intros q Hq Hq'. rewrite lookup_insert_ne by congruence. apply Hother. exact Hq'.
Qed.

(** X16.  [fix_dbc_file] on a missing file returns False and touches
    nothing.  On a file that does not decode it raises [UnicodeDecodeError]
    and writes nothing, no backup either.  On a file that decodes it returns
    True; afterwards the file reads as the lines kept by the filter, the
    backup [<path>.backup] reads as the text of the original if there was no
    backup before and is untouched if there was one, and every other file is
    as before. *)
Theorem fix_dbc_file_effect (ucd : FixDbc.UnicodeData)
    (fs : gmap FixDbc.text FixDbc.File) (filepath : FixDbc.text) :
  let r := FixDbc.fix_dbc_file ucd fs filepath in
  let backup_path := filepath ++ FixDbc.codes ".backup" in
  match fs !! filepath with
  | None => r = (Ok false, fs)
  | Some FixDbc.Undecodable => r = (Raise ValueError, fs)
  | Some (FixDbc.Text content) =>
      fst r = Ok true /\
      snd r !! filepath
      = Some (FixDbc.Text
                (concat (fst (FixDbc.scan ucd None ∅ (FixDbc.readlines content))))) /\
      snd r !! backup_path = Some (default (FixDbc.Text content) (fs !! backup_path)) /\
      (forall q, q <> filepath -> q <> backup_path -> snd r !! q = fs !! q)
  end.
Proof. exact (fix_dbc_file_spec ucd fs filepath). Qed.

(** X17.  Running [fix_dbc_file] a second time on the same path returns
    the same value, or raises the same error, and leaves the file system
    exactly as the first run left it: the file is not rewritten and the
    backup is not touched. *)
Theorem fix_dbc_file_idempotent (ucd : FixDbc.UnicodeData)
    (fs : gmap FixDbc.text FixDbc.File) (filepath : FixDbc.text) :
  FixDbc.fix_dbc_file ucd (snd (FixDbc.fix_dbc_file ucd fs filepath)) filepath
  = FixDbc.fix_dbc_file ucd fs filepath.
Proof.
  pose proof (fix_dbc_file_spec ucd fs filepath) as Heffect. cbv zeta in Heffect.
  destruct (fs !! filepath) as [[|content]|] eqn:Hfile.
  - rewrite Heffect. cbn [snd]. exact Heffect.
  - destruct Heffect as (Hret & Hnew & Hbackup & _).
    destruct (FixDbc.fix_dbc_file ucd fs filepath) as [ret fs'] eqn:Hfirst.
    cbn [fst snd] in *. subst ret.
    unfold FixDbc.fix_dbc_file at 1. rewrite Hnew, Hbackup, Hnew.
    destruct (scan_sublist_and_count ucd (FixDbc.readlines content) None ∅)
      as [Hsub _].
    rewrite readlines_concat
      by (eapply whole_lines_sublist; [exact Hsub | apply readlines_whole_lines]).
    rewrite scan_idempotent_from by (intros m _; reflexivity). reflexivity.
  - rewrite Heffect. cbn [snd]. exact Heffect.
Qed.

(** * radar_curses.py *)

(** Turns the boolean comparisons of the context into order facts. *)
Ltac qbool :=
  repeat match goal with
         | H : Qle_bool _ _ = true |- _ => apply Qle_bool_iff in H
         | H : Qle_bool ?a ?b = false |- _ =>
             assert (b < a)%Q
               by (apply Qnot_le_lt; intros Hc; apply Qle_bool_iff in Hc; congruence);
             clear H
         end.

(** X18.  With [lower <= upper], [clamp] returns a value between the
    bounds: the value itself when it lies between them, the bound it passes
    otherwise; clamping twice is clamping once. *)
Theorem clamp_within_bounds (value lower upper : Q) (Hbounds : (lower <= upper)%Q) :
  (lower <= Curses.clamp value lower upper <= upper)%Q /\
  ((lower <= value <= upper)%Q -> Curses.clamp value lower upper == value)%Q /\
  ((value < lower)%Q -> Curses.clamp value lower upper = lower) /\
  ((upper < value)%Q -> Curses.clamp value lower upper == upper)%Q /\
  Curses.clamp (Curses.clamp value lower upper) lower upper
  = Curses.clamp value lower upper.
Proof.
  unfold Curses.clamp, Curses.py_max, Curses.py_min.
  destruct (Qle_bool upper value) eqn:H1.
  - destruct (Qle_bool upper lower) eqn:H2.
    + rewrite !H2. qbool. repeat split; intros; try reflexivity; lra.
    + assert ((if Qle_bool upper upper then upper else upper) = upper) as ->
        by (destruct (Qle_bool upper upper); reflexivity).
      rewrite H2. qbool. repeat split; intros; try reflexivity; lra.
  - destruct (Qle_bool value lower) eqn:H2.
    + assert ((if Qle_bool (if Qle_bool upper lower then upper else lower) lower
               then lower
               else if Qle_bool upper lower then upper else lower) = lower) as ->.
      { destruct (Qle_bool upper lower) eqn:H3; [rewrite H3; reflexivity|].
        destruct (Qle_bool lower lower); reflexivity. }
      qbool. repeat split; intros; try reflexivity; lra.
    + rewrite H1, H2. qbool. repeat split; intros; try reflexivity; lra.
Qed.

Lemma clamp_within_bounds_witness :
  (0 <= Curses.clamp (3 # 2) 0 1 <= 1)%Q /\
  ((0 <= 3 # 2 <= 1)%Q -> Curses.clamp (3 # 2) 0 1 == 3 # 2)%Q /\
  ((3 # 2 < 0)%Q -> Curses.clamp (3 # 2) 0 1 = 0%Q) /\
  ((1 < 3 # 2)%Q -> Curses.clamp (3 # 2) 0 1 == 1)%Q /\
  Curses.clamp (Curses.clamp (3 # 2) 0 1) 0 1 = Curses.clamp (3 # 2) 0 1.
Proof.
  apply (clamp_within_bounds (3 # 2) 0 1). unfold Qle. simpl. lia.
Defined.

(** X19.  With the bounds the wrong way round ([upper < lower]), [clamp]
    returns [lower] for every value. *)
Theorem clamp_inverted_bounds (value lower upper : Q) (Hinverted : (upper < lower)%Q) :
  Curses.clamp value lower upper = lower.
Proof.
  unfold Curses.clamp, Curses.py_max, Curses.py_min.
  destruct (Qle_bool upper value) eqn:H1;
    [destruct (Qle_bool upper lower) eqn:H2
    |destruct (Qle_bool value lower) eqn:H2];
    qbool; try reflexivity; lra.
Qed.

Lemma clamp_inverted_bounds_witness : Curses.clamp (1 # 2) 1 0 = 1%Q.
Proof.
  apply (clamp_inverted_bounds (1 # 2) 1 0). unfold Qlt. simpl. lia.
Defined.

Lemma last_char_to_hex (fuel : nat) :
  forall n c acc,
    Curses.last_char (Curses.to_hex fuel n (String c acc))
    = Curses.last_char (String c acc).
Proof.
  induction fuel as [|fuel IH]; intros n c acc; [reflexivity|].
  cbn [Curses.to_hex]. cbv zeta.
  destruct (n / 16 =? 0)%Z.
  - destruct acc; reflexivity.
  - rewrite IH. destruct acc; reflexivity.
Qed.

Lemma last_char_format_X (n : Z) :
  Curses.last_char (Curses.format_X n) = Some (Curses.hex_digit (Z.abs n mod 16)).
Proof.
  unfold Curses.format_X.
  destruct (Z.ltb_spec n 0) as [Hneg|Hpos].
  - replace (Z.abs n) with (- n)%Z by lia.
    cbn [Curses.to_hex]. cbv zeta.
    destruct (- n / 16 =? 0)%Z; [reflexivity|].
    change (Curses.last_char
              (String (Ascii.ascii_of_nat 45)
                 (Curses.to_hex (Z.to_nat (- n)) (- n / 16)
                    (String (Curses.hex_digit (- n mod 16)) EmptyString))))
      with (match Curses.to_hex (Z.to_nat (- n)) (- n / 16)
                    (String (Curses.hex_digit (- n mod 16)) EmptyString) with
            | EmptyString => Some (Ascii.ascii_of_nat 45)
            | String _ _ =>
                Curses.last_char
                  (Curses.to_hex (Z.to_nat (- n)) (- n / 16)
                     (String (Curses.hex_digit (- n mod 16)) EmptyString))
            end).
    pose proof (last_char_to_hex (Z.to_nat (- n)) (- n / 16)
                  (Curses.hex_digit (- n mod 16)) EmptyString) as Hlast.
    destruct (Curses.to_hex (Z.to_nat (- n)) (- n / 16)
                (String (Curses.hex_digit (- n mod 16)) EmptyString));
      [discriminate Hlast | exact Hlast].
  - replace (Z.abs n) with n by lia.
    cbn [Curses.to_hex]. cbv zeta.
    destruct (n / 16 =? 0)%Z; [reflexivity|].
    apply last_char_to_hex.
Qed.

(** X20.  The marker [draw_tracks] puts on the grid is the last
    hexadecimal digit of the track id, so tracks whose ids differ by a
    multiple of 16 share a marker.  A new track gets the digit in lower
    case: for the digits A..F that tells it apart from a known track, for
    the digits 0..9 it does not, and a new track in such a slot is drawn
    exactly like a known one. *)
Theorem marker_is_last_hex_digit (track : Driver.RadarTrack) :
  let d := Curses.hex_digit (Z.abs (Driver.track_id track) mod 16) in
  Curses.marker track
  = Some (if Driver.new_track track then Curses.lower d else d) /\
  ((Z.abs (Driver.track_id track) mod 16 < 10)%Z -> Curses.lower d = d) /\
  ((10 <= Z.abs (Driver.track_id track) mod 16)%Z -> Curses.lower d <> d).
Proof.
  intros d. subst d. unfold Curses.marker. rewrite last_char_format_X.
  split; [reflexivity|].
  pose proof (Z.mod_pos_bound (Z.abs (Driver.track_id track)) 16 ltac:(lia)) as Hr.
  set (r := (Z.abs (Driver.track_id track) mod 16)%Z) in *.
  assert (r = 0 \/ r = 1 \/ r = 2 \/ r = 3 \/ r = 4 \/ r = 5 \/ r = 6 \/ r = 7 \/
          r = 8 \/ r = 9 \/ r = 10 \/ r = 11 \/ r = 12 \/ r = 13 \/ r = 14 \/
          r = 15)%Z as Hcases by lia.
  clearbody r.
  split; intros Hdigit;
    repeat (destruct Hcases as [->|Hcases]; [first [reflexivity | discriminate | lia]|]);
    subst r; first [reflexivity | discriminate | lia].
Qed.

Lemma insert_by_perm {A} (key : A -> Q) (x : A) (l : list A) :
  Curses.insert_by key x l ≡ₚ x :: l.
Proof.
  induction l as [|y rest IH]; cbn [Curses.insert_by]; [reflexivity|].
  destruct (Qle_bool (key x) (key y)); [reflexivity|].
  rewrite IH. apply Permutation_swap.
Qed.

Lemma sorted_perm {A} (key : A -> Q) (l : list A) : Curses.sorted key l ≡ₚ l.
Proof.
  induction l as [|x rest IH]; [reflexivity|].
  unfold Curses.sorted in *. cbn [foldr]. rewrite insert_by_perm, IH. reflexivity.
Qed.

Lemma insert_by_sorted {A} (key : A -> Q) (x : A) (l : list A) :
  StronglySorted (fun a b => (key a <= key b)%Q) l ->
  StronglySorted (fun a b => (key a <= key b)%Q) (Curses.insert_by key x l).
Proof.
  induction 1 as [|y rest Hrest IH Hy]; cbn [Curses.insert_by].
  - repeat constructor.
  - destruct (Qle_bool (key x) (key y)) eqn:Hle; qbool.
    + constructor; [constructor; assumption|].
      constructor; [exact Hle|].
      eapply Forall_impl; [exact Hy|]. intros z Hz. cbv beta in Hz. lra.
    + constructor; [exact IH|].
      rewrite insert_by_perm. constructor; [lra | exact Hy].
Qed.

Lemma sorted_sorted {A} (key : A -> Q) (l : list A) :
  StronglySorted (fun a b => (key a <= key b)%Q) (Curses.sorted key l).
Proof.
  induction l as [|x rest IH]; [constructor|].
  unfold Curses.sorted in *. cbn [foldr]. apply insert_by_sorted. exact IH.
Qed.

(** X21.  [draw_info_panel] draws nothing when the panel has no width.
    Otherwise it writes the header in row 2 and one track per row from row 3
    on, nearest track first: the tracks shown are in order of distance, every
    track left out is at least as far as every track shown, and shown and
    left-out tracks together are the tracks given.  It shows
    [max_rows - 3] tracks at most; for [max_rows < 3] the slice bound is
    negative and it shows all but the last [3 - max_rows] tracks. *)
Theorem info_panel_shows_nearest_tracks
    (tracks : list Driver.RadarTrack) (panel_width max_rows : Z) :
  if (panel_width <=? 0)%Z
  then Curses.draw_info_panel tracks panel_width max_rows = []
  else exists shown hidden,
      Curses.draw_info_panel tracks panel_width max_rows
      = (2%Z, None) :: imap (fun idx track => ((3 + Z.of_nat idx)%Z, Some track)) shown /\
      shown ++ hidden ≡ₚ tracks /\
      StronglySorted (fun a b => (Driver.long_dist a <= Driver.long_dist b)%Q) shown /\
      (forall a b, a ∈ shown -> b ∈ hidden ->
                   (Driver.long_dist a <= Driver.long_dist b)%Q) /\
      Z.of_nat (length shown)
      = (if (0 <=? max_rows - 3)%Z
         then Z.min (max_rows - 3) (Z.of_nat (length tracks))
         else Z.max 0 (Z.of_nat (length tracks) + (max_rows - 3)))%Z.
Proof.
  unfold Curses.draw_info_panel.
  destruct (panel_width <=? 0)%Z; [reflexivity|]. cbv zeta.
  pose proof (sorted_perm Driver.long_dist tracks) as Hperm.
  pose proof (sorted_sorted Driver.long_dist tracks) as Hsorted.
  pose proof (Permutation_length Hperm) as Hlen.
  set (ordered := Curses.sorted Driver.long_dist tracks) in *.
  unfold Curses.slice_to. rewrite Hlen.
  set (k := if (0 <=? max_rows - 3)%Z
            then Z.to_nat (max_rows - 3)
            else Z.to_nat (Z.of_nat (length tracks) + (max_rows - 3))).
  exists (take k ordered), (drop k ordered).
  rewrite <- (take_drop k ordered) in Hsorted.
  split; [|split; [|split; [|split]]].
  - subst k. destruct (0 <=? max_rows - 3)%Z; reflexivity.
  - rewrite take_drop. exact Hperm.
  - exact (StronglySorted_app_1_l _ _ _ Hsorted).
  - intros a b Ha Hb.
    exact (StronglySorted_app_1_elem_of _ _ _ a b Hsorted Ha Hb).
  - rewrite length_take, Hlen. subst k.
    destruct (Z.leb_spec 0 (max_rows - 3)); lia.
Qed.

(** * radar_callbacks.py *)

Lemma call_keeps_interval (self : Callbacks.TrackLogger) (now : Q)
    (track : Driver.RadarTrack) :
  Callbacks._min_interval (fst (Callbacks.call self now track))
  = Callbacks._min_interval self.
Proof.
  unfold Callbacks.call. cbv zeta.
  destruct (Qle_bool _ _); reflexivity.
Qed.

Lemma run_spaced (updates : list (Q * Driver.RadarTrack)) :
  forall self,
    (0 <= Callbacks._min_interval self)%Q ->
    let printed := snd (Callbacks.run self updates) in
    Forall (fun p =>
              (Callbacks._min_interval self
               <= fst p - default 0%Q
                            (Callbacks._last_print self !! Driver.track_id (snd p)))%Q)
      printed /\
    ForallOrdPairs (fun p q =>
                      Driver.track_id (snd p) = Driver.track_id (snd q) ->
                      (Callbacks._min_interval self <= fst q - fst p)%Q)
      printed.
Proof.
  induction updates as [|[now track] rest IH]; intros self Hm; cbn [Callbacks.run].
  - split; constructor.
  - pose proof (call_keeps_interval self now track) as Hkeep.
    unfold Callbacks.call in *. cbv zeta in *.
    destruct (Qle_bool (Callbacks._min_interval self)
                (now - default 0%Q (Callbacks._last_print self !! Driver.track_id track)))
      eqn:Hdue.
    + qbool.
      specialize (IH (Callbacks.mkTrackLogger
                        (<[Driver.track_id track := now]> (Callbacks._last_print self))
                        (Callbacks._min_interval self)) Hm).
      cbv zeta in IH. cbn [Callbacks._min_interval Callbacks._last_print] in IH.
      destruct (Callbacks.run _ rest) as [self2 later]. cbn [fst snd] in *.
      destruct IH as [Hafter Hpairs].
      split.
      * constructor; [exact Hdue|].
        eapply Forall_impl; [exact Hafter|]. intros [t trk] Ht. cbn [fst snd] in *.
        destruct (decide (Driver.track_id track = Driver.track_id trk)) as [Heq|Hne].
        -- rewrite <- Heq in Ht |- *. rewrite lookup_insert_eq in Ht.
           cbn [default] in Ht. unfold id in Ht. lra.
        -- rewrite lookup_insert_ne in Ht by exact Hne. exact Ht.
      * constructor; [|exact Hpairs].
        eapply Forall_impl; [exact Hafter|]. intros [t trk] Ht Heq.
        cbn [fst snd] in *. rewrite <- Heq, lookup_insert_eq in Ht.
        cbn [default] in Ht. unfold id in Ht. exact Ht.
    + specialize (IH self Hm). cbv zeta in IH.
      destruct (Callbacks.run self rest) as [self2 later]. cbn [fst snd] in *.
      exact IH.
Qed.

Lemma init_interval_nonneg (min_interval : Q) :
  (0 <= Callbacks._min_interval (Callbacks.init min_interval))%Q /\
  (min_interval <= Callbacks._min_interval (Callbacks.init min_interval))%Q.
Proof.
  unfold Callbacks.init, Curses.py_max. cbn [Callbacks._min_interval].
  destruct (Qle_bool 0 min_interval) eqn:H; qbool; split; lra.
Qed.

(** X22.  [TrackLogger] limits the print rate per track: over any run of
    callbacks, two printed updates of the same track id are at least
    [min_interval] apart on the clock (and never less than 0 apart), whatever
    happens to other tracks in between. *)
Theorem track_logger_spaces_prints (min_interval : Q)
    (updates : list (Q * Driver.RadarTrack)) :
  ForallOrdPairs (fun p q =>
                    Driver.track_id (snd p) = Driver.track_id (snd q) ->
                    (min_interval <= fst q - fst p)%Q /\ (0 <= fst q - fst p)%Q)
    (snd (Callbacks.run (Callbacks.init min_interval) updates)).
Proof.
  destruct (init_interval_nonneg min_interval) as [Hnonneg Hge].
  destruct (run_spaced updates (Callbacks.init min_interval) Hnonneg) as [_ Hpairs].
  induction Hpairs as [|p later Hp _ IH]; constructor; [|exact IH].
  eapply Forall_impl; [exact Hp|]. intros q Hq Heq. specialize (Hq Heq).
  split; lra.
Qed.

(** X23.  The first update of a track is measured against the time 0.0, not
    against "never": a fresh [TrackLogger] prints the first update of a track
    exactly when the clock reads at least [max(min_interval, 0)], and from
    then on remembers that reading for the track. *)
Theorem track_logger_first_update (min_interval now : Q) (track : Driver.RadarTrack) :
  let r := Callbacks.call (Callbacks.init min_interval) now track in
  (snd r = true <-> (min_interval <= now)%Q /\ (0 <= now)%Q) /\
  (snd r = true ->
   Callbacks._last_print (fst r) !! Driver.track_id track = Some now) /\
  (snd r = false -> fst r = Callbacks.init min_interval).
Proof.
  intros r. subst r. unfold Callbacks.call, Callbacks.init, Curses.py_max.
  cbn [Callbacks._last_print Callbacks._min_interval]. cbv zeta.
  rewrite lookup_empty. cbn [default].
  destruct (Qle_bool 0 min_interval) eqn:Hm;
    [destruct (Qle_bool min_interval (now - 0)) eqn:Hdue
    |destruct (Qle_bool 0 (now - 0)) eqn:Hdue];
    qbool; cbn [fst snd Callbacks._last_print];
    (split;
     [split; [intros Hp; first [discriminate Hp | split; lra]
             |intros [? ?]; first [reflexivity | exfalso; lra]]|]);
    (split; [intros Hp; first [discriminate Hp | apply lookup_insert_eq]
            |intros Hp; first [discriminate Hp | reflexivity]]).
Qed.

(** * radar_experimental.py *)

Lemma new_ids_app (a b : list Output) :
  new_ids (a ++ b) = new_ids a ++ new_ids b.
Proof.
  induction a as [|o a IH]; [reflexivity|].
  destruct o; cbn [new_ids app]; rewrite IH; reflexivity.
Qed.

Lemma track_window_not_status (id : Z) :
  Y2019.in_track_window id = true -> id <> 0x4FF.
Proof. unfold Y2019.in_track_window. lia. Qed.

Lemma experimental_receive_all_spec (frames : list Message) :
  forall logger,
    let r := Experimental.receive_all frames logger in
    Experimental.can1_rx (fst r)
    = Experimental.can1_rx logger + Z.of_nat (length frames) /\
    Experimental.status_4ff_count (fst r)
    = Experimental.status_4ff_count logger
      + Z.of_nat (length (status_frames frames)) /\
    Experimental.status_4ff_data (fst r)
    = match last (status_frames frames) with
      | Some msg => Some (Experimental.hex (data msg))
      | None => Experimental.status_4ff_data logger
      end /\
    Experimental.other_messages (fst r)
    = list_to_set (new_ids (snd r)) ∪ Experimental.other_messages logger /\
    NoDup (new_ids (snd r)) /\
    (forall id, id ∈ new_ids (snd r) ->
                id ∉ Experimental.other_messages logger /\
                id <> 0x4FF /\ Y2019.in_track_window id = false /\
                id ∈ map arbitration_id frames) /\
    (forall id, id ∈ map arbitration_id frames ->
                id <> 0x4FF -> Y2019.in_track_window id = false ->
                id ∈ Experimental.other_messages (fst r)).
Proof.
  induction frames as [|msg rest IH]; intros logger; cbn [Experimental.receive_all].
  - cbn. repeat split; try lia; try constructor; try set_solver.
  - unfold status_frames in *. rewrite filter_cons.
    unfold Experimental.on_message_received. cbv zeta.
    cbn [Experimental.can0_tx Experimental.can1_tx Experimental.can1_rx
         Experimental.status_4ff_count Experimental.status_4ff_data
         Experimental.other_messages].
    destruct (arbitration_id msg =? 0x4FF) eqn:Hstatus.
    + apply Z.eqb_eq in Hstatus.
      rewrite decide_True by exact Hstatus.
      assert (Hlast : forall (d : option string),
                 match last (msg :: filter (fun m => arbitration_id m = 0x4FF) rest) with
                 | Some m => Some (Experimental.hex (data m))
                 | None => d
                 end
                 = match last (filter (fun m => arbitration_id m = 0x4FF) rest) with
                   | Some m => Some (Experimental.hex (data m))
                   | None => Some (Experimental.hex (data msg))
                   end).
      { intros d. destruct (filter _ rest) as [|m ms]; [reflexivity|].
        rewrite last_cons. destruct (last (m :: ms)) eqn:Hl; [reflexivity|].
        apply last_None in Hl. discriminate Hl. }
      rewrite Hlast. clear Hlast.
      case_bool_decide as Hsame.
      * specialize (IH (Experimental.mkLogger (Experimental.can0_tx logger)
                          (Experimental.can1_tx logger)
                          (Experimental.can1_rx logger + 1)
                          (Experimental.status_4ff_count logger + 1)
                          (Experimental.status_4ff_data logger)
                          (Experimental.other_messages logger))).
        cbv zeta in IH.
        destruct (Experimental.receive_all rest _) as [logger2 out2].
        cbn [fst snd app length map Experimental.can1_rx
             Experimental.status_4ff_count Experimental.status_4ff_data
             Experimental.other_messages] in *.
        destruct IH as (Hrx & Hcount & Hdata & Hother & Hnodup & Hnew & Hall).
        rewrite Hsame in Hdata.
        repeat split; try lia; try assumption.
        -- apply Hnew; assumption.
        -- apply Hnew; assumption.
        -- apply Hnew; assumption.
        -- right. apply Hnew; assumption.
        -- intros id Hin Hns Hnt. apply elem_of_cons in Hin as [->|Hin];
             [contradiction|]. apply Hall; assumption.
      * specialize (IH (Experimental.mkLogger (Experimental.can0_tx logger)
                          (Experimental.can1_tx logger)
                          (Experimental.can1_rx logger + 1)
                          (Experimental.status_4ff_count logger + 1)
                          (Some (Experimental.hex (data msg)))
                          (Experimental.other_messages logger))).
        cbv zeta in IH.
        destruct (Experimental.receive_all rest _) as [logger2 out2].
        cbn [fst snd app length map new_ids Experimental.can1_rx
             Experimental.status_4ff_count Experimental.status_4ff_data
             Experimental.other_messages] in *.
        destruct IH as (Hrx & Hcount & Hdata & Hother & Hnodup & Hnew & Hall).
        repeat split; try lia; try assumption.
        -- apply Hnew; assumption.
        -- apply Hnew; assumption.
        -- apply Hnew; assumption.
        -- right. apply Hnew; assumption.
        -- intros id Hin Hns Hnt. apply elem_of_cons in Hin as [->|Hin];
             [contradiction|]. apply Hall; assumption.
    + apply Z.eqb_neq in Hstatus.
      rewrite decide_False by exact Hstatus.
      destruct (Y2019.in_track_window (arbitration_id msg)) eqn:Htrack.
      * specialize (IH (Experimental.mkLogger (Experimental.can0_tx logger)
                          (Experimental.can1_tx logger)
                          (Experimental.can1_rx logger + 1)
                          (Experimental.status_4ff_count logger)
                          (Experimental.status_4ff_data logger)
                          (Experimental.other_messages logger))).
        cbv zeta in IH.
        destruct (Experimental.receive_all rest _) as [logger2 out2].
        cbn [fst snd app length map new_ids Experimental.can1_rx
             Experimental.status_4ff_count Experimental.status_4ff_data
             Experimental.other_messages] in *.
        destruct IH as (Hrx & Hcount & Hdata & Hother & Hnodup & Hnew & Hall).
        repeat split; try lia; try assumption.
        -- apply Hnew; assumption.
        -- apply Hnew; assumption.
        -- apply Hnew; assumption.
        -- right. apply Hnew; assumption.
        -- intros id Hin Hns Hnt. apply elem_of_cons in Hin as [->|Hin];
             [congruence|]. apply Hall; assumption.
      * case_bool_decide as Hseen.
        -- specialize (IH (Experimental.mkLogger (Experimental.can0_tx logger)
                             (Experimental.can1_tx logger)
                             (Experimental.can1_rx logger + 1)
                             (Experimental.status_4ff_count logger)
                             (Experimental.status_4ff_data logger)
                             (Experimental.other_messages logger))).
           cbv zeta in IH.
           destruct (Experimental.receive_all rest _) as [logger2 out2].
           cbn [fst snd app length map new_ids Experimental.can1_rx
                Experimental.status_4ff_count Experimental.status_4ff_data
                Experimental.other_messages] in *.
           destruct IH as (Hrx & Hcount & Hdata & Hother & Hnodup & Hnew & Hall).
           repeat split; try lia; try assumption.
           ++ apply Hnew; assumption.
           ++ apply Hnew; assumption.
           ++ apply Hnew; assumption.
           ++ right. apply Hnew; assumption.
           ++ intros id Hin Hns Hnt. apply elem_of_cons in Hin as [->|Hin];
                [rewrite Hother; set_solver|]. apply Hall; assumption.
        -- specialize (IH (Experimental.mkLogger (Experimental.can0_tx logger)
                             (Experimental.can1_tx logger)
                             (Experimental.can1_rx logger + 1)
                             (Experimental.status_4ff_count logger)
                             (Experimental.status_4ff_data logger)
                             ({[arbitration_id msg]}
                              ∪ Experimental.other_messages logger))).
           cbv zeta in IH.
           destruct (Experimental.receive_all rest _) as [logger2 out2].
           cbn [fst snd app length map new_ids Experimental.can1_rx
                Experimental.status_4ff_count Experimental.status_4ff_data
                Experimental.other_messages] in *.
           destruct IH as (Hrx & Hcount & Hdata & Hother & Hnodup & Hnew & Hall).
           repeat split; try lia; try assumption.
           ++ rewrite Hother. set_solver.
           ++ constructor; [|exact Hnodup].
              intros Hin. apply Hnew in Hin as [Hin _]. set_solver.
           ++ apply elem_of_cons in H as [->|Hin]; [exact Hseen|].
              apply Hnew in Hin as [Hin _]. set_solver.
           ++ apply elem_of_cons in H as [->|Hin]; [exact Hstatus|].
              apply Hnew; assumption.
           ++ apply elem_of_cons in H as [->|Hin]; [exact Htrack|].
              apply Hnew; assumption.
           ++ apply elem_of_cons in H as [->|Hin]; [left|right; apply Hnew; assumption].
           ++ intros id Hin Hns Hnt. apply elem_of_cons in Hin as [->|Hin];
                [rewrite Hother; set_solver|]. apply Hall; assumption.
Qed.

Lemma fromhex_hex_byte (b : byte) (rest : string) :
  Experimental.fromhex (Experimental.hex_byte b +:+ rest)
  = match Experimental.fromhex rest with
    | Some bytes => Some (b :: bytes)
    | None => None
    end.
Proof. destruct b; reflexivity. Qed.

Lemma string_app_assoc (a b c : string) : (a +:+ b) +:+ c = a +:+ (b +:+ c).
Proof.
  induction a as [|x a IH]; [reflexivity|].
  change (String x ((a +:+ b) +:+ c) = String x (a +:+ (b +:+ c))).
  f_equal. exact IH.
Qed.

Lemma fromhex_hex_app (payload : list byte) (rest : string) :
  Experimental.fromhex (Experimental.hex payload +:+ rest)
  = match Experimental.fromhex rest with
    | Some bytes => Some (payload ++ bytes)
    | None => None
    end.
Proof.
  induction payload as [|b more IH]; cbn [Experimental.hex app].
  - change (EmptyString +:+ rest) with rest.
    destruct (Experimental.fromhex rest); reflexivity.
  - rewrite string_app_assoc, fromhex_hex_byte, IH.
    destruct (Experimental.fromhex rest); reflexivity.
Qed.

Lemma string_app_empty_r (s : string) : s +:+ EmptyString = s.
Proof.
  induction s as [|c s IH]; [reflexivity|].
  change (String c (s +:+ EmptyString) = String c s).
  f_equal. exact IH.
Qed.

Lemma decode_4ff_status_hex (payload : list byte) :
  Experimental.decode_4ff_status (Experimental.hex payload)
  = match payload !! 0%nat with
    | None => Experimental.DecodeIndexError0
    | Some b0 =>
        match payload !! 3%nat with
        | None => Experimental.DecodeIndexError3 (Experimental.byte0_state b0)
        | Some b3 => Experimental.DecodeDone (Experimental.byte0_state b0)
                       (Experimental.byte3_state b3)
        end
    end.
Proof.
  unfold Experimental.decode_4ff_status.
  rewrite <- (string_app_empty_r (Experimental.hex payload)), fromhex_hex_app.
  cbn [Experimental.fromhex]. rewrite app_nil_r. reflexivity.
Qed.

Lemma experimental_no_track_recorded (frames : list Message) :
  let logger := fst (Experimental.receive_all frames Experimental.logger0) in
  (forall id, id ∈ Experimental.other_messages logger ->
              Y2019.in_track_window id = false /\ id <> 0x4FF) /\
  existsb Y2019.in_track_window (elements (Experimental.other_messages logger))
  = false.
Proof.
  pose proof (experimental_receive_all_spec frames Experimental.logger0) as H.
  cbv zeta in *. destruct H as (_ & _ & _ & Hother & _ & Hnew & _).
  cbn [Experimental.logger0 Experimental.other_messages] in *.
  assert (Hnone : forall id,
             id ∈ Experimental.other_messages
                    (fst (Experimental.receive_all frames Experimental.logger0)) ->
             Y2019.in_track_window id = false /\ id <> 0x4FF).
  { intros id Hin. rewrite Hother in Hin.
    apply elem_of_union in Hin as [Hin|Hin]; [|set_solver].
    apply elem_of_list_to_set in Hin. apply Hnew in Hin. tauto. }
  split; [exact Hnone|].
  destruct (existsb _ _) eqn:Hex; [|reflexivity].
  apply existsb_exists in Hex as (id & Hin & Hwin).
  apply list_elem_of_In, elem_of_elements, Hnone in Hin. destruct Hin. congruence.
Qed.

Lemma experimental_conclusion (frames : list Message) :
  Experimental.concludes_not_tracking
    (fst (Experimental.receive_all frames Experimental.logger0))
  = match frames with [] => false | _ :: _ => true end.
Proof.
  pose proof (experimental_receive_all_spec frames Experimental.logger0) as H.
  destruct (experimental_no_track_recorded frames) as [_ Hex].
  cbv zeta in *. destruct H as (Hrx & _).
  unfold Experimental.concludes_not_tracking. rewrite Hrx, Hex.
  cbn [Experimental.logger0 Experimental.can1_rx].
  destruct frames; cbn [length]; [reflexivity|].
  rewrite andb_true_r. apply Z.ltb_lt. lia.
Qed.

(** X25.  The experimental listener announces an id as new at most once, and
    exactly the ids received that are neither 0x4FF nor in the track window;
    these are the members of [other_messages] at the end. *)
Theorem experimental_new_ids_announced_once (frames : list Message) :
  let r := Experimental.receive_all frames Experimental.logger0 in
  NoDup (new_ids (snd r)) /\
  (forall id, id ∈ new_ids (snd r) <->
              id ∈ map arbitration_id frames /\ id <> 0x4FF /\
              Y2019.in_track_window id = false) /\
  (forall id, id ∈ Experimental.other_messages (fst r) <-> id ∈ new_ids (snd r)).
Proof.
  pose proof (experimental_receive_all_spec frames Experimental.logger0) as H.
  cbv zeta in *. destruct H as (_ & _ & _ & Hother & Hnodup & Hnew & Hall).
  cbn [Experimental.logger0 Experimental.other_messages] in *.
  assert (Hmem : forall id,
             id ∈ Experimental.other_messages
                    (fst (Experimental.receive_all frames Experimental.logger0))
             <-> id ∈ new_ids (snd (Experimental.receive_all frames
                                      Experimental.logger0))).
  { intros id. rewrite Hother. set_solver. }
  split; [exact Hnodup|]. split; [|exact Hmem].
  intros id. split.
  - intros Hin. apply Hnew in Hin. tauto.
  - intros (Hin & Hns & Hnt). apply Hmem. apply Hall; assumption.
Qed.

(** X26.  [bytes.fromhex] undoes [bytes.hex], also on payloads written one
    after the other: the status string stored by the listener decodes to
    the payload it was made from. *)
Theorem fromhex_hex_round_trip (payload more : list byte) :
  Experimental.fromhex (Experimental.hex payload) = Some payload /\
  Experimental.fromhex (Experimental.hex payload +:+ Experimental.hex more)
  = Some (payload ++ more).
Proof.
  assert (Hone : forall p, Experimental.fromhex (Experimental.hex p) = Some p).
  { intros p. rewrite <- (string_app_empty_r (Experimental.hex p)), fromhex_hex_app.
    cbn [Experimental.fromhex]. rewrite app_nil_r. reflexivity. }
  split; [apply Hone|]. rewrite fromhex_hex_app, Hone. reflexivity.
Qed.

(** X27.  On the status string of a payload, [decode_4ff_status] never
    raises [ValueError]; it raises [IndexError] exactly when the payload has
    fewer than four bytes (at [data[0]] for the empty payload, at [data[3]]
    otherwise), and else reports on bytes 0 and 3. *)
Theorem decode_4ff_status_of_payload (payload : list byte) :
  Experimental.decode_4ff_status (Experimental.hex payload)
  = match payload with
    | [] => Experimental.DecodeIndexError0
    | b0 :: _ :: _ :: b3 :: _ =>
        Experimental.DecodeDone (Experimental.byte0_state b0)
          (Experimental.byte3_state b3)
    | b0 :: _ => Experimental.DecodeIndexError3 (Experimental.byte0_state b0)
    end.
Proof.
  rewrite decode_4ff_status_hex.
  destruct payload as [|b0 [|b1 [|b2 [|b3 rest]]]]; reflexivity.
Qed.

Lemma hex_is_empty (payload : list byte) :
  str_is_empty (Experimental.hex payload)
  = match payload with [] => true | _ :: _ => false end.
Proof. destruct payload; reflexivity. Qed.

Lemma experimental_final_block_spec (frames : list Message) :
  let logger := fst (Experimental.receive_all frames Experimental.logger0) in
  let completed analysis :=
    Experimental.FinalCompleted analysis
      (merge_sort Z.le (elements (Experimental.other_messages logger)))
      (match frames with [] => false | _ :: _ => true end) in
  Experimental.final_block logger
  = match last (status_frames frames) with
    | None => completed None
    | Some msg =>
        match data msg with
        | [] => completed None
        | b0 :: _ :: _ :: b3 :: _ =>
            completed (Some (Experimental.byte0_state b0,
                             Experimental.byte3_state b3))
        | b0 :: _ =>
            Experimental.FinalRaised
              (Experimental.DecodeIndexError3 (Experimental.byte0_state b0))
        end
    end.
Proof.
  pose proof (experimental_receive_all_spec frames Experimental.logger0) as H.
  pose proof (experimental_conclusion frames) as Hverdict.
  cbv zeta in *. destruct H as (_ & _ & Hdata & _).
  unfold Experimental.final_block. rewrite Hdata, Hverdict.
  cbn [Experimental.logger0 Experimental.status_4ff_data].
  destruct (last (status_frames frames)) as [msg|]; [|reflexivity].
  rewrite hex_is_empty, decode_4ff_status_hex.
  destruct (data msg) as [|b0 [|b1 [|b2 [|b3 rest]]]]; reflexivity.
Qed.

(** X28.  The [finally] block of radar_experimental.py after a reception:
    with no 0x4FF frame, or a last 0x4FF frame without payload, the status
    analysis is skipped; when the last 0x4FF frame has one to three bytes the
    analysis raises [IndexError] and the block is left before the conclusion
    and the bus shutdown; otherwise the block completes with the analysis of
    bytes 0 and 3 of that frame. *)
Theorem experimental_final_block (frames : list Message) :
  let logger := fst (Experimental.receive_all frames Experimental.logger0) in
  let completed analysis :=
    Experimental.FinalCompleted analysis
      (merge_sort Z.le (elements (Experimental.other_messages logger)))
      (match frames with [] => false | _ :: _ => true end) in
  Experimental.final_block logger
  = match last (status_frames frames) with
    | None => completed None
    | Some msg =>
        match data msg with
        | [] => completed None
        | b0 :: _ :: _ :: b3 :: _ =>
            completed (Some (Experimental.byte0_state b0,
                             Experimental.byte3_state b3))
        | b0 :: _ =>
            Experimental.FinalRaised
              (Experimental.DecodeIndexError3 (Experimental.byte0_state b0))
        end
    end.
Proof. exact (experimental_final_block_spec frames). Qed.

(** X24.  The experimental listener never records a track id (nor 0x4FF) in
    [other_messages], so the test under [CONCLUSION] does not depend on the
    track frames: it holds exactly when at least one frame of any kind was
    received, track frames included.  The not-tracking conclusion is printed
    with that value whenever the [finally] block gets as far as the test; it
    does not get there only when the status analysis raised, the last 0x4FF
    frame having one to three bytes. *)
Theorem experimental_conclusion_ignores_tracks (frames : list Message) :
  let logger := fst (Experimental.receive_all frames Experimental.logger0) in
  let received := match frames with [] => false | _ :: _ => true end in
  (forall id, id ∈ Experimental.other_messages logger ->
              Y2019.in_track_window id = false /\ id <> 0x4FF) /\
  Experimental.concludes_not_tracking logger = received /\
  (forall analysis ids not_tracking,
      Experimental.final_block logger
      = Experimental.FinalCompleted analysis ids not_tracking ->
      not_tracking = received) /\
  (forall d,
      Experimental.final_block logger = Experimental.FinalRaised d ->
      exists msg, last (status_frames frames) = Some msg /\
                  (0 < length (data msg) < 4)%nat).
Proof.
  cbv zeta. split; [apply (experimental_no_track_recorded frames)|].
  split; [apply experimental_conclusion|].
  pose proof (experimental_final_block_spec frames) as Hfinal. cbv zeta in Hfinal.
  split.
  - intros analysis ids not_tracking Hdone. rewrite Hfinal in Hdone.
    destruct (last (status_frames frames)) as [msg|]; [|congruence].
    destruct (data msg) as [|b0 [|b1 [|b2 [|b3 rest]]]]; congruence.
  - intros d Hraised. rewrite Hfinal in Hraised.
    destruct (last (status_frames frames)) as [msg|]; [|discriminate].
    exists msg. split; [reflexivity|].
    destruct (data msg) as [|b0 [|b1 [|b2 [|b3 rest]]]]; cbn [length];
      first [discriminate | lia].
Qed.

(** Two track frames around a short status frame: the test under
    [CONCLUSION] holds although tracks were received. *)
Lemma experimental_conclusion_ignores_tracks_witness :
  Experimental.concludes_not_tracking
    (fst (Experimental.receive_all sample_short_status_frames Experimental.logger0))
  = true.
Proof.
  apply (proj1 (proj2 (experimental_conclusion_ignores_tracks
                         sample_short_status_frames))).
Defined.

(** * smartdsu_emulation.py *)

Lemma smartdsu_receive_all_counts (frames : list Message) :
  forall radar_msgs,
    let r := fst (SmartDsu.receive_all frames radar_msgs) in
    SmartDsu.count_4FF r
    = SmartDsu.count_4FF radar_msgs + Z.of_nat (length (status_frames frames)) /\
    SmartDsu.count_tracks r
    = SmartDsu.count_tracks radar_msgs + Z.of_nat (length (track_frames frames)).
Proof.
  induction frames as [|msg rest IH]; intros radar_msgs; cbn [SmartDsu.receive_all].
  - cbn. lia.
  - unfold status_frames, track_frames in *. rewrite !filter_cons.
    unfold SmartDsu.on_message_received.
    destruct (arbitration_id msg =? 0x4FF) eqn:Hstatus.
    + apply Z.eqb_eq in Hstatus. rewrite decide_True by exact Hstatus.
      rewrite decide_False
        by (rewrite Hstatus; unfold Y2019.in_track_window; cbn; discriminate).
      specialize (IH (SmartDsu.mkRadarMsgs (SmartDsu.count_4FF radar_msgs + 1)
                        (SmartDsu.count_tracks radar_msgs))).
      cbv zeta in IH. destruct (SmartDsu.receive_all rest _) as [r2 out2].
      cbn [fst SmartDsu.count_4FF SmartDsu.count_tracks length] in *. lia.
    + apply Z.eqb_neq in Hstatus. rewrite decide_False by exact Hstatus.
      destruct (Y2019.in_track_window (arbitration_id msg)) eqn:Htrack.
      * rewrite decide_True by reflexivity.
        specialize (IH (SmartDsu.mkRadarMsgs (SmartDsu.count_4FF radar_msgs)
                          (SmartDsu.count_tracks radar_msgs + 1))).
        cbv zeta in IH. destruct (SmartDsu.receive_all rest _) as [r2 out2].
        cbn [fst SmartDsu.count_4FF SmartDsu.count_tracks length] in *. lia.
      * rewrite decide_False by discriminate.
        specialize (IH radar_msgs).
        cbv zeta in IH. destruct (SmartDsu.receive_all rest _) as [r2 out2].
        cbn [fst SmartDsu.count_4FF SmartDsu.count_tracks length] in *. lia.
Qed.

(** X29.  smartdsu_emulation.py counts every 0x4FF frame and every frame in
    0x210..0x21F, and its final verdict is SUCCESS exactly when at least one
    track frame was received.  On the same frames the test under
    [CONCLUSION] of radar_experimental.py holds, so whenever its [finally]
    block gets as far as the test it prints the not-tracking conclusion. *)
Theorem smartdsu_success_iff_track_frame (frames : list Message) :
  let radar_msgs := fst (SmartDsu.receive_all frames SmartDsu.radar_msgs0) in
  let logger := fst (Experimental.receive_all frames Experimental.logger0) in
  SmartDsu.count_4FF radar_msgs = Z.of_nat (length (status_frames frames)) /\
  SmartDsu.count_tracks radar_msgs = Z.of_nat (length (track_frames frames)) /\
  (SmartDsu.reports_success radar_msgs = true <-> track_frames frames <> []) /\
  (SmartDsu.reports_success radar_msgs = true ->
   Experimental.concludes_not_tracking logger = true /\
   forall analysis ids not_tracking,
     Experimental.final_block logger
     = Experimental.FinalCompleted analysis ids not_tracking ->
     not_tracking = true).
Proof.
  destruct (smartdsu_receive_all_counts frames SmartDsu.radar_msgs0) as [H4 Ht].
  cbv zeta. cbn [SmartDsu.radar_msgs0 SmartDsu.count_4FF SmartDsu.count_tracks] in *.
  split; [lia|]. split; [lia|].
  unfold SmartDsu.reports_success. rewrite Ht.
  assert (Hiff : (0 <? Z.of_nat (length (track_frames frames))) = true
                 <-> track_frames frames <> []).
  { destruct (track_frames frames); cbn [length]; split; intros H;
      try discriminate; try congruence. apply Z.ltb_lt. lia. }
  split; [exact Hiff|].
  intros Hsucc. apply Hiff in Hsucc.
  assert (Hreceived : match frames with [] => false | _ :: _ => true end = true).
  { destruct frames; [|reflexivity]. exfalso. apply Hsucc. reflexivity. }
  split; [rewrite experimental_conclusion; exact Hreceived|].
  intros analysis ids not_tracking Hdone.
  pose proof (experimental_final_block_spec frames) as Hfinal. cbv zeta in Hfinal.
  rewrite Hfinal, Hreceived in Hdone.
  destruct (last (status_frames frames)) as [msg|]; [|congruence].
  destruct (data msg) as [|b0 [|b1 [|b2 [|b3 rest]]]]; congruence.
Qed.
